(** * gkeep2dynalist: Google Keep notes to the Dynalist inbox

    A shallow embedding of the note transformation ([keepnote.go],
    [main.go]) and of the delivery client ([dynalist.go]), followed by the
    properties of the specification that were checked against it.

    Go strings are byte strings: they are modelled by [string], one [ascii]
    per byte, so that [length] is Go's [len] and [substring] is slicing. *)

From Stdlib Require Import ZArith List String Ascii Bool Arith Lia.
From Stdlib Require Import Floats.SpecFloat.
From Equations Require Import Equations.
Import ListNotations.

Local Open Scope list_scope.
Local Open Scope string_scope.

(* ===================================================================== *)
(** * The Go standard library functions the program calls               *)
(* ===================================================================== *)

(** The newline byte; Rocq string literals have no escape for it. *)
Definition nl : string := String (ascii_of_nat 10) EmptyString.

(** [strings.HasPrefix]. *)
Definition HasPrefix (s pre : string) : bool := prefix pre s.

(** [strings.HasSuffix]:
    [len(s) >= len(suffix) && s[len(s)-len(suffix):] == suffix]. *)
Definition HasSuffix (s suffix : string) : bool :=
  (length suffix <=? length s)%nat &&
  String.eqb (substring (length s - length suffix) (length suffix) s) suffix.

(** [strings.TrimSuffix]. *)
Definition TrimSuffix (s suffix : string) : string :=
  if HasSuffix s suffix then substring 0 (length s - length suffix) s else s.

(** [strings.Split(s, sep)] for a separator that is not empty (the program
    only splits on literals): the pieces between the occurrences of [sep],
    found from the left and not overlapping.  [skip] counts the bytes of an
    occurrence still to be jumped over, [cur] is the piece being read. *)
Fixpoint split_from (sep : string) (skip : nat) (cur s : string) : list string :=
  match s with
  | EmptyString => [cur]
  | String c s' =>
      match skip with
      | S k => split_from sep k cur s'
      | O =>
          if prefix sep s
          then cur :: split_from sep (length sep - 1) EmptyString s'
          else split_from sep 0 (cur ++ String c EmptyString) s'
      end
  end.

Definition Split (s sep : string) : list string := split_from sep 0 EmptyString s.

(** [strings.ReplaceAll(s, old, new)] for [old] not empty: every occurrence
    of [old], found from the left and not overlapping, becomes [new]. *)
Fixpoint replace_from (old new : string) (skip : nat) (s : string) : string :=
  match s with
  | EmptyString => EmptyString
  | String c s' =>
      match skip with
      | S k => replace_from old new k s'
      | O =>
          if prefix old s
          then new ++ replace_from old new (length old - 1) s'
          else String c (replace_from old new 0 s')
      end
  end.

Definition ReplaceAll (s old new : string) : string := replace_from old new 0 s.

(** [strings.Join(elems, sep)]. *)
Definition Join (elems : list string) (sep : string) : string := concat sep elems.

(** Membership of a byte in an ASCII cutset. *)
Fixpoint inCutset (cutset : string) (c : ascii) : bool :=
  match cutset with
  | EmptyString => false
  | String d rest => Ascii.eqb c d || inCutset rest c
  end.

(** [strings.TrimLeft], [strings.TrimRight] and [strings.Trim] for an ASCII
    cutset (bytes are compared one by one). *)
Fixpoint TrimLeft (s cutset : string) : string :=
  match s with
  | EmptyString => EmptyString
  | String c s' => if inCutset cutset c then TrimLeft s' cutset else s
  end.

Fixpoint TrimRight (s cutset : string) : string :=
  match s with
  | EmptyString => EmptyString
  | String c s' =>
      match TrimRight s' cutset with
      | EmptyString => if inCutset cutset c then EmptyString else String c EmptyString
      | t => String c t
      end
  end.

Definition Trim (s cutset : string) : string := TrimLeft (TrimRight s cutset) cutset.

(** [os.IsPathSeparator] on the platforms of the Docker image (Unix). *)
Definition IsPathSeparator (c : ascii) : bool := Ascii.eqb c "/"%char.

(** [filepath.Ext]: the suffix beginning at the last dot of the last path
    element, empty when there is no dot.  Go scans from the end; read from
    the front, a separator forgets the candidate and a dot replaces it. *)
Fixpoint ext_scan (cand : string) (s : string) : string :=
  match s with
  | EmptyString => cand
  | String c s' =>
      if IsPathSeparator c then ext_scan EmptyString s'
      else if Ascii.eqb c "."%char then ext_scan s s'
      else ext_scan cand s'
  end.

Definition Ext (path : string) : string := ext_scan EmptyString path.

(** The part of [s] after its last separator ([cur] is the candidate). *)
Fixpoint after_last_separator (cur s : string) : string :=
  match s with
  | EmptyString => cur
  | String c s' =>
      if IsPathSeparator c then after_last_separator s' s'
      else after_last_separator cur s'
  end.

(** [filepath.Base] (no volume names on Unix). *)
Definition Base (path : string) : string :=
  if String.eqb path EmptyString then "."
  else
    let path := TrimRight path "/" in
    let path := after_last_separator path path in
    if String.eqb path EmptyString then "/" else path.

(* ===================================================================== *)
(** * keepnote.go                                                        *)
(* ===================================================================== *)

Record Attachment := { FilePath : string; MimeType : string }.

Record Label := { Name : string }.

Record KeepNote := {
  Title : string;
  TextContent : string;
  TextContentHTML : string;
  Attachments : list Attachment;
  Labels : list Label;
  UserEditedTimestampUsec : Z;
  CreatedTimestampUsec : Z;
  IsArchived : bool
}.

(** A Go [(value, error)] pair: the value, or the error's message. *)
Inductive result (A : Type) : Type :=
| Ok (a : A)
| Err (msg : string).
Arguments Ok {A} a.
Arguments Err {A} msg.

(** [processLabels]: the loop appends one hashtag per label, in order. *)
Definition processLabels (labels : list Label) : string :=
  let hashtags :=
    fold_left
      (fun (hashtags : list string) (label : Label) =>
         let hashtag := ReplaceAll (Name label) " " "_" in
         List.app hashtags ["#" ++ hashtag])
      labels [] in
  Join hashtags " ".

(** The three strings of [timestampPatterns], byte for byte. *)
Definition timestampPatterns : list string :=
  [ "\d{4}-\d{2}-\d{2}T\d{2}_\d{2}_\d{2}";
    "\d{4}-\d{2}-\d{2}";
    "\d{2}_\d{2}_\d{2}" ].

(** [shortenFilename].  [strings.Split(base, pattern)[0]] is the piece
    before the first occurrence of the string [pattern] in [base]; [Split]
    never returns an empty slice for a separator that is not empty. *)
Definition shortenFilename (filename : string) : string :=
  let name := Base filename in
  let ext := Ext filename in
  let base := TrimSuffix name ext in
  let base :=
    fold_left (fun (base pattern : string) => hd EmptyString (Split base pattern))
              timestampPatterns base in
  let base := Trim base "._- " in
  if (15 <? length base)%nat then substring 0 15 base ++ "..." else base.

(* ===================================================================== *)
(** * dynalist.go                                                        *)
(* ===================================================================== *)

Local Open Scope Z_scope.

Definition dynalistAPIURL : string := "https://dynalist.io/api/v1/inbox/add".

(** Durations are [time.Duration] values: nanoseconds in an [int64]. *)
Definition Second : Z := 1000000000.
Definition maxRetries : Z := 5.
Definition minDelay : Z := 2 * Second.
Definition maxDelay : Z := 60 * Second.
Definition minPause : Z := 1 * Second.
Definition maxPause : Z := 3 * Second.

Record DynalistRequest := {
  Token : string;
  Index : Z;
  Content : string;
  Note : string;
  Checked : bool;
  Checkbox : bool
}.

Record DynalistResponse := {
  Code : string;
  Message : string;
  FileID : string;
  NodeID : string;
  RespIndex : Z
}.

Record RetryStats := {
  TotalCalls : Z;
  SuccessfulCalls : Z;
  FailedCalls : Z;
  Retries : Z;
  LastError : string;
  LastStatus : string
}.

(** ** Machine integers and float64 *)

(** Go's [int] on a 64-bit target (the Dockerfile builds for one): [x++]
    wraps around. *)
Definition wrap64 (z : Z) : Z := (z + 2 ^ 63) mod 2 ^ 64 - 2 ^ 63.

Definition incr (x : Z) : Z := wrap64 (x + 1).

(** [float64] is IEEE 754 binary64, as specified by [SpecFloat]:
    53 bits of precision, infinities at exponent 1024, round to nearest
    even. *)
Definition float64 : Type := spec_float.
Definition prec : Z := 53.
Definition emax : Z := 1024.

(** The conversion [float64(x)] of an integer. *)
Definition float64_of_int (x : Z) : float64 := binary_normalize prec emax x 0 false.

(** The constant [0.5]. *)
Definition half : float64 := S754_finite false 4503599627370496 (-53).

(** [math.Pow(2, float64(retry))].  For an integral exponent [math.Pow]
    returns the power of two itself ([Ldexp] of the mantissa one): exact
    while it is representable, [+Inf] above and zero below the range. *)
Definition Pow2 (retry : Z) : float64 := SFldexp prec emax (SFone prec emax) retry.

(** Go's [x > y] on [float64]: false when either side is a NaN. *)
Definition float64_gt (x y : float64) : bool := SFltb y x.

(** The conversion [time.Duration(f)] of a [float64]: truncation toward
    zero.  Go leaves the result open when the value does not fit; amd64
    and arm64 then give some fixed value, taken here to be the least
    [int64] (the amd64 one).  No theorem below depends on that choice. *)
Definition int64_of_float64 (f : float64) : Z :=
  match f with
  | S754_zero _ => 0
  | S754_finite s m e =>
      let t := Z.shiftl (Zpos m) e in
      let v := if s then - t else t in
      if (- 2 ^ 63 <=? v) && (v <? 2 ^ 63) then v else - 2 ^ 63
  | _ => - 2 ^ 63
  end.

(** ** The world around the delivery client *)

(** What the program does to the outside, in the order it does it. *)
Inductive Event :=
| Sleep (d : Z)
| Post (url : string) (body : DynalistRequest)
| StatFile (path : string)
| UploadFile (path : string).

(** What one HTTP exchange gives back: [client.Do] fails, or the body does
    not decode, or a response is decoded. *)
Inductive Outcome :=
| SendError (err : string)
| DecodeError (err : string)
| Decoded (resp : DynalistResponse).

(** The environment of a run: the [k]-th accepted draw of [rand.Int63], the
    [k]-th value of [rand.Float64] and the outcome of the [k]-th request. *)
Record Env := {
  randInt63 : nat -> Z;
  randFloat64 : nat -> float64;
  roundTrip : nat -> DynalistRequest -> Outcome
}.

(** The mutable state: the global [Stats], the events so far and how much
    of the environment has been consumed. *)
Record Machine := {
  Stats : RetryStats;
  trace : list Event;
  sent : nat;
  drawnInt : nat;
  drawnFloat : nat
}.

Definition updStats (f : RetryStats -> RetryStats) (m : Machine) : Machine :=
  {| Stats := f (Stats m); trace := trace m; sent := sent m;
     drawnInt := drawnInt m; drawnFloat := drawnFloat m |}.

Definition emit (e : Event) (m : Machine) : Machine :=
  {| Stats := Stats m; trace := List.app (trace m) [e]; sent := sent m;
     drawnInt := drawnInt m; drawnFloat := drawnFloat m |}.

(** [Stats.TotalCalls++] and its siblings. *)
Definition incTotalCalls (s : RetryStats) : RetryStats :=
  {| TotalCalls := incr (TotalCalls s); SuccessfulCalls := SuccessfulCalls s;
     FailedCalls := FailedCalls s; Retries := Retries s;
     LastError := LastError s; LastStatus := LastStatus s |}.

Definition incSuccessfulCalls (s : RetryStats) : RetryStats :=
  {| TotalCalls := TotalCalls s; SuccessfulCalls := incr (SuccessfulCalls s);
     FailedCalls := FailedCalls s; Retries := Retries s;
     LastError := LastError s; LastStatus := LastStatus s |}.

Definition incFailedCalls (s : RetryStats) : RetryStats :=
  {| TotalCalls := TotalCalls s; SuccessfulCalls := SuccessfulCalls s;
     FailedCalls := incr (FailedCalls s); Retries := Retries s;
     LastError := LastError s; LastStatus := LastStatus s |}.

Definition incRetries (s : RetryStats) : RetryStats :=
  {| TotalCalls := TotalCalls s; SuccessfulCalls := SuccessfulCalls s;
     FailedCalls := FailedCalls s; Retries := incr (Retries s);
     LastError := LastError s; LastStatus := LastStatus s |}.

Definition setLastError (e : string) (s : RetryStats) : RetryStats :=
  {| TotalCalls := TotalCalls s; SuccessfulCalls := SuccessfulCalls s;
     FailedCalls := FailedCalls s; Retries := Retries s;
     LastError := e; LastStatus := LastStatus s |}.

Definition setLastStatus (st : string) (s : RetryStats) : RetryStats :=
  {| TotalCalls := TotalCalls s; SuccessfulCalls := SuccessfulCalls s;
     FailedCalls := FailedCalls s; Retries := Retries s;
     LastError := LastError s; LastStatus := st |}.

(** [time.Sleep(d)]. *)
Definition sleep (d : Z) (m : Machine) : Machine := emit (Sleep d) m.

(** [rand.Int63n(n)] for [n > 0]: the accepted draw modulo [n]. *)
Definition Int63n (env : Env) (n : Z) (m : Machine) : Z * Machine :=
  (randInt63 env (drawnInt m) mod n,
   {| Stats := Stats m; trace := trace m; sent := sent m;
      drawnInt := S (drawnInt m); drawnFloat := drawnFloat m |}).

(** [rand.Float64()]. *)
Definition Float64 (env : Env) (m : Machine) : float64 * Machine :=
  (randFloat64 env (drawnFloat m),
   {| Stats := Stats m; trace := trace m; sent := sent m;
      drawnInt := drawnInt m; drawnFloat := S (drawnFloat m) |}).

(** [http.NewRequest] followed by [client.Do] and the decoding of the
    body: one request on the wire.  [http.NewRequest] cannot fail for the
    method ["POST"] and the constant URL. *)
Definition doPost (env : Env) (body : DynalistRequest) (m : Machine) : Outcome * Machine :=
  (roundTrip env (sent m) body,
   {| Stats := Stats m; trace := List.app (trace m) [Post dynalistAPIURL body];
      sent := S (sent m); drawnInt := drawnInt m; drawnFloat := drawnFloat m |}).

(** ** calculateBackoff *)

(** The body of [calculateBackoff] once the jitter factor is known. *)
Definition backoffWithJitter (retry : Z) (jitter : float64) : Z :=
  let backoff := SFmul prec emax (float64_of_int minDelay) (Pow2 retry) in
  let backoff := SFmul prec emax backoff jitter in
  let backoff :=
    if float64_gt backoff (float64_of_int maxDelay)
    then float64_of_int maxDelay else backoff in
  int64_of_float64 backoff.

(** [calculateBackoff]: [jitter := 0.5 + rand.Float64()]. *)
Definition calculateBackoff (env : Env) (retry : Z) (m : Machine) : Z * Machine :=
  let (u, m) := Float64 env m in
  let jitter := SFadd prec emax half u in
  (backoffWithJitter retry jitter, m).

(** ** AddToDynalist *)

(** How one pass through the body of the [for] loop ends. *)
Inductive Step :=
| Return (err : option string) (m : Machine)
| Break (lastErr : option string) (m : Machine)
| Continue (retryCount : Z) (lastErr : option string) (m : Machine).

(** The lines that close each of the three failure paths:
    [retryCount++; Stats.Retries++], the test against [maxRetries], then
    the backoff sleep.  [retryCount] is a local that stays within 0..6. *)
Definition countRetry (env : Env) (retryCount : Z) (lastErr : string) (m : Machine) : Step :=
  let retryCount := retryCount + 1 in
  let m := updStats incRetries m in
  if retryCount >? maxRetries then Break (Some lastErr) m
  else
    let (delay, m) := calculateBackoff env retryCount m in
    Continue retryCount (Some lastErr) (sleep delay m).

(** The body of the [for] loop. *)
Definition attempt (env : Env) (req : DynalistRequest) (retryCount : Z) (m : Machine) : Step :=
  let (out, m) := doPost env req m in
  match out with
  | SendError err =>
      let lastErr := "failed to send request: " ++ err in
      let m := updStats (setLastError lastErr) m in
      countRetry env retryCount lastErr m
  | DecodeError err =>
      let lastErr := "failed to decode response: " ++ err in
      let m := updStats (setLastError lastErr) m in
      countRetry env retryCount lastErr m
  | Decoded dynalistResp =>
      if String.eqb (Code dynalistResp) "Ok" then
        Return None (updStats (setLastStatus "Success") (updStats incSuccessfulCalls m))
      else
        let lastErr := "dynalist API error: " ++ Code dynalistResp in
        let lastErr :=
          if negb (String.eqb (Message dynalistResp) "")
          then "dynalist API error: " ++ Message dynalistResp else lastErr in
        let m := updStats (setLastError lastErr) m in
        if negb (String.eqb (Code dynalistResp) "TooManyRequests") && (retryCount >=? 2)
        then Break (Some lastErr) m
        else countRetry env retryCount lastErr m
  end.

(** The lines after the loop. *)
Definition afterLoop (lastErr : option string) (m : Machine) : option string * Machine :=
  (lastErr, updStats (setLastStatus "Failed") (updStats incFailedCalls m)).

(** The number of passes the loop condition still allows. *)
Definition attemptsLeft (retryCount : Z) : nat := Z.to_nat (maxRetries + 1 - retryCount).
Arguments attemptsLeft : simpl never.

Definition inspect {A : Type} (a : A) : {b : A | a = b} := exist _ a eq_refl.

(** [for retryCount <= maxRetries { ... }] and what follows it. *)
Equations? retryLoop (env : Env) (req : DynalistRequest) (retryCount : Z)
    (lastErr : option string) (m : Machine) : option string * Machine
  by wf (attemptsLeft retryCount) lt :=
  retryLoop env req retryCount lastErr m with inspect (retryCount <=? maxRetries) := {
    | exist _ false _ => afterLoop lastErr m
    | exist _ true Hle with inspect (attempt env req retryCount m) := {
        | exist _ (Return err m') _ => (err, m')
        | exist _ (Break lastErr' m') _ => afterLoop lastErr' m'
        | exist _ (Continue retryCount' lastErr' m') Hstep =>
            retryLoop env req retryCount' lastErr' m' } }.
Proof.
  assert (Hnext : retryCount' = retryCount + 1).
  { revert Hstep. unfold attempt, countRetry, calculateBackoff, Float64, doPost.
    destruct (roundTrip env (sent m) req) as [err|err|resp]; cbn;
      repeat match goal with
             | |- context [if ?b then _ else _] => destruct b
             end;
      intros Hstep; inversion Hstep; reflexivity. }
  apply Z.leb_le in Hle. unfold attemptsLeft, maxRetries in *. lia.
Qed.

(** [AddToDynalist].  [json.Marshal] cannot fail on a struct of strings,
    integers and booleans, so the two early error returns are dead. *)
Definition AddToDynalist (env : Env) (token content note : string) (m : Machine)
  : option string * Machine :=
  let (r, m) := Int63n env (maxPause - minPause) m in
  let randomPause := minPause + r in
  let m := sleep randomPause m in
  let reqBody :=
    {| Token := token; Index := 0; Content := content; Note := note;
       Checked := false; Checkbox := false |} in
  let m := updStats incTotalCalls m in
  retryLoop env reqBody 0 None m.

(* ===================================================================== *)
(** * main.go                                                            *)
(* ===================================================================== *)

(** The file system as the program sees it: whether [os.Stat] succeeds on
    a path, what [filepath.Join] makes of two elements, and what
    [parseKeepNote] ([os.ReadFile], then [json.Unmarshal]) returns. *)
Record OS := {
  statOk : string -> bool;
  pathJoin : string -> string -> string;
  parseKeepNote : string -> result KeepNote
}.

(** The storage collaborator of [cloudflare.go]: only its method
    [UploadLocalFile] is called, with a local path, and gives a URL or an
    error. *)
Record CloudflareR2Client := { UploadLocalFile : string -> result string }.

(** [findAttachmentFile] (keepnote.go; it needs the file system). *)
Definition findAttachmentFile (os : OS) (folderPath attachmentPath : string) (m : Machine)
  : result string * Machine :=
  let attachmentFile := pathJoin os folderPath attachmentPath in
  let m := emit (StatFile attachmentFile) m in
  if statOk os attachmentFile then (Ok attachmentFile, m)
  else (Err ("attachment file not found: " ++ attachmentPath), m).

(** One pass through the body of the loop over [note.Attachments]. *)
Definition processAttachment (os : OS) (r2Client : CloudflareR2Client) (folderPath : string)
    (acc : list string * Machine) (attachment : Attachment) : list string * Machine :=
  let (attachmentLinks, m) := acc in
  match findAttachmentFile os folderPath (FilePath attachment) m with
  | (Err _, m) => (attachmentLinks, m)
  | (Ok attachmentFile, m) =>
      let m := emit (UploadFile attachmentFile) m in
      match UploadLocalFile r2Client attachmentFile with
      | Err _ => (attachmentLinks, m)
      | Ok r2URL =>
          (List.app attachmentLinks ["[" ++ FilePath attachment ++ "](" ++ r2URL ++ ")"], m)
      end
  end.

(** [processMessage].  A nil [r2Client] is [None]. *)
Definition processMessage (os : OS) (env : Env) (note : KeepNote)
    (folderPath dynalistToken : string) (r2Client : option CloudflareR2Client)
    (filePath : string) (m : Machine) : option string * Machine :=
  let (attachmentLinks, m) :=
    match r2Client with
    | Some r2 =>
        if (0 <? List.length (Attachments note))%nat
        then fold_left (processAttachment os r2 folderPath) (Attachments note) ([], m)
        else ([], m)
    | None => ([], m)
    end in
  let hashtags := processLabels (Labels note) in
  let noteContent := TextContent note in
  let noteContent :=
    if (0 <? List.length attachmentLinks)%nat
    then noteContent ++ nl ++ nl ++ "Attachments:" ++ nl ++ Join attachmentLinks nl
    else noteContent in
  let noteContent :=
    if negb (String.eqb hashtags "") then noteContent ++ nl ++ nl ++ hashtags
    else noteContent in
  let title := Title note in
  let title := if String.eqb title "" then shortenFilename filePath else title in
  let title := "gkeep: " ++ title in
  AddToDynalist env dynalistToken title noteContent m.

(** What [filepath.Walk] hands to the callback of [processKeepFolder]. *)
Record WalkEntry := {
  entryPath : string;
  entryIsDir : bool;
  entryErr : option string
}.

(** The callback of [processKeepFolder]: its return value and the state. *)
Definition walkFn (os : OS) (env : Env) (folderPath dynalistToken : string)
    (r2Client : option CloudflareR2Client) (e : WalkEntry) (m : Machine)
  : option string * Machine :=
  match entryErr e with
  | Some err => (Some err, m)
  | None =>
      if entryIsDir e then (None, m)
      else if negb (String.eqb (Ext (entryPath e)) ".json") then (None, m)
      else
        match parseKeepNote os (entryPath e) with
        | Err _ => (None, m)
        | Ok note =>
            if IsArchived note then (None, m)
            else
              let (_, m) :=
                processMessage os env note folderPath dynalistToken r2Client (entryPath e) m in
              (None, m)
        end
  end.

(** [processKeepFolder]: [filepath.Walk] calls the callback on the entries
    in its order and stops at the first error the callback returns. *)
Fixpoint processKeepFolder (os : OS) (env : Env) (folderPath dynalistToken : string)
    (r2Client : option CloudflareR2Client) (entries : list WalkEntry) (m : Machine)
  : option string * Machine :=
  match entries with
  | [] => (None, m)
  | e :: rest =>
      match walkFn os env folderPath dynalistToken r2Client e m with
      | (Some err, m) => (Some err, m)
      | (None, m) => processKeepFolder os env folderPath dynalistToken r2Client rest m
      end
  end.

(* ===================================================================== *)
(** * Notions used to state the properties                               *)
(* ===================================================================== *)

(** ** The delivery client as the state machine of the specification *)

(** The four ways an attempt is classified, given the number of retries
    made before it: success; a failure that is retried; a failure of a
    retryable kind with no retry left; a failure treated as final. *)
Inductive Verdict := Succeeded | Retryable | Exhausted | Terminal.

Definition classify (retries : Z) (o : Outcome) : Verdict :=
  match o with
  | SendError _ | DecodeError _ =>
      if retries <? maxRetries then Retryable else Exhausted
  | Decoded resp =>
      if String.eqb (Code resp) "Ok" then Succeeded
      else if String.eqb (Code resp) "TooManyRequests" then
        if retries <? maxRetries then Retryable else Exhausted
      else if retries <? 2 then Retryable else Terminal
  end.

(** The message of the error an outcome leaves in [lastErr]. *)
Definition errorOf (o : Outcome) : string :=
  match o with
  | SendError err => "failed to send request: " ++ err
  | DecodeError err => "failed to decode response: " ++ err
  | Decoded resp =>
      if String.eqb (Message resp) "" then "dynalist API error: " ++ Code resp
      else "dynalist API error: " ++ Message resp
  end.

(** What [AddToDynalist] returns after a last attempt with this verdict. *)
Definition resultOf (v : Verdict) (o : Outcome) : option string :=
  match v with
  | Succeeded => None
  | _ => Some (errorOf o)
  end.

(** The outcome of the request that machine [m] sends next. *)
Definition outcomeAt (env : Env) (req : DynalistRequest) (m : Machine) : Outcome :=
  roundTrip env (sent m) req.

(** The machine after one more request. *)
Definition posted (req : DynalistRequest) (m : Machine) : Machine :=
  {| Stats := Stats m; trace := List.app (trace m) [Post dynalistAPIURL req];
     sent := S (sent m); drawnInt := drawnInt m; drawnFloat := drawnFloat m |}.

(** The machine after a successful attempt. *)
Definition succeeded (req : DynalistRequest) (m : Machine) : Machine :=
  updStats (setLastStatus "Success") (updStats incSuccessfulCalls (posted req m)).

(** The backoff delay slept after the attempt made with [retries] retries
    behind it, when [drawn] values of [rand.Float64] are used up. *)
Definition backoffAt (env : Env) (retries : Z) (drawn : nat) : Z :=
  backoffWithJitter (retries + 1) (SFadd prec emax half (randFloat64 env drawn)).

(** The machine after a failed attempt that is retried, backoff included. *)
Definition retried (env : Env) (req : DynalistRequest) (retries : Z) (m : Machine) : Machine :=
  let m1 := updStats incRetries
              (updStats (setLastError (errorOf (outcomeAt env req m))) (posted req m)) in
  sleep (backoffAt env retries (drawnFloat m)) (snd (Float64 env m1)).

(** The machine when the loop is left after a failed last attempt. *)
Definition brokenAt (env : Env) (req : DynalistRequest) (v : Verdict) (m : Machine) : Machine :=
  let m1 := updStats (setLastError (errorOf (outcomeAt env req m))) (posted req m) in
  match v with
  | Exhausted => updStats incRetries m1
  | _ => m1
  end.

(** Runs of the attempt loop: from [retries] retries and machine [m], the
    loop makes [j] more retries, that is [S j] requests, and ends with
    result [r] in machine [m']. *)
Inductive Run (env : Env) (req : DynalistRequest)
  : Z -> Machine -> nat -> option string -> Machine -> Prop :=
| Run_success retries m :
    classify retries (outcomeAt env req m) = Succeeded ->
    Run env req retries m 0 None (succeeded req m)
| Run_failure retries m v :
    classify retries (outcomeAt env req m) = v ->
    v = Exhausted \/ v = Terminal ->
    Run env req retries m 0
        (Some (errorOf (outcomeAt env req m)))
        (snd (afterLoop None (brokenAt env req v m)))
| Run_retry retries m j r m' :
    classify retries (outcomeAt env req m) = Retryable ->
    Run env req (retries + 1) (retried env req retries m) j r m' ->
    Run env req retries m (S j) r m'.

(** The pause slept on entry. *)
Definition pauseOf (env : Env) (m : Machine) : Z :=
  minPause + randInt63 env (drawnInt m) mod (maxPause - minPause).

(** The machine when [AddToDynalist] enters its loop. *)
Definition entered (env : Env) (m : Machine) : Machine :=
  updStats incTotalCalls
    (sleep (pauseOf env m) (snd (Int63n env (maxPause - minPause) m))).

(** The request [AddToDynalist] builds. *)
Definition requestOf (token content note : string) : DynalistRequest :=
  {| Token := token; Index := 0; Content := content; Note := note;
     Checked := false; Checkbox := false |}.

(** ** Observations on traces *)

(** The bodies of the requests of a trace, in order. *)
Definition posts (tr : list Event) : list DynalistRequest :=
  flat_map (fun e => match e with Post _ body => [body] | _ => [] end) tr.

(** The file system and storage events of a trace. *)
Definition storageEvents (tr : list Event) : list Event :=
  filter (fun e => match e with StatFile _ | UploadFile _ => true | _ => false end) tr.

(** The events of [j] retries in a row: each is a backoff sleep, computed
    from the incremented [retryCount] and the next float draw, followed by
    the request. *)
Fixpoint retryEvents (env : Env) (req : DynalistRequest) (retries : Z) (drawn : nat) (j : nat)
  : list Event :=
  match j with
  | O => []
  | S j' =>
      Sleep (backoffAt env retries drawn) :: Post dynalistAPIURL req
        :: retryEvents env req (retries + 1) (S drawn) j'
  end.

(** Every request of the trace comes right after a sleep whose duration
    lies in the pacing window ([prev] is the event before the trace). *)
Fixpoint pacedBeforeEveryPost (prev : option Event) (tr : list Event) : bool :=
  match tr with
  | [] => true
  | e :: rest =>
      match e with
      | Post _ _ =>
          match prev with
          | Some (Sleep d) => (minPause <=? d) && (d <=? maxPause)
          | _ => false
          end
      | _ => true
      end && pacedBeforeEveryPost (Some e) rest
  end.

(** [n] increments of a counter. *)
Definition incrN (n : nat) (x : Z) : Z := Nat.iter n incr x.

(** [x + d] in [int64] arithmetic: the sum, brought back between
    [-2^63] and [2^63 - 1] by a multiple of [2^64]. *)
Definition int64_sum (x d : Z) : Z := (x + d + 2 ^ 63) mod 2 ^ 64 - 2 ^ 63.

(** ** Observations on strings *)

(** A label name with each space byte replaced by an underscore. *)
Fixpoint underscored (s : string) : string :=
  match s with
  | EmptyString => EmptyString
  | String c s' => String (if Ascii.eqb c " "%char then "_"%char else c) (underscored s')
  end.

(** The hashtag of one label, as the specification words it. *)
Definition hashtagOf (l : Label) : string := String "#"%char (underscored (Name l)).

(** No byte of [s] is a space. *)
Fixpoint noSpace (s : string) : bool :=
  match s with
  | EmptyString => true
  | String c s' => negb (Ascii.eqb c " "%char) && noSpace s'
  end.

(** [suf] is a suffix of [s]. *)
Definition isSuffix (suf s : string) : Prop := exists pre, s = pre ++ suf.

(** The blocks [processMessage] appends to the body text. *)
Definition attachmentsBlock (links : list string) : string :=
  match links with
  | [] => ""
  | _ => nl ++ nl ++ "Attachments:" ++ nl ++ Join links nl
  end.

Definition hashtagBlock (hashtags : string) : string :=
  if String.eqb hashtags "" then "" else nl ++ nl ++ hashtags.

(** The links [processMessage] collects, and the machine after collecting
    them, when a storage client is present. *)
Definition collectLinks (os : OS) (r2 : CloudflareR2Client) (folderPath : string)
    (note : KeepNote) (m : Machine) : list string * Machine :=
  fold_left (processAttachment os r2 folderPath) (Attachments note) ([], m).

(** No byte of [s] is a backslash. *)
Fixpoint noBackslash (s : string) : bool :=
  match s with
  | EmptyString => true
  | String c s' => negb (Ascii.eqb c "\"%char) && noBackslash s'
  end.

(** The links gathered before the payload is built, and the machine then. *)
Definition gathered (os : OS) (r2Client : option CloudflareR2Client) (folderPath : string)
    (note : KeepNote) (m : Machine) : list string * Machine :=
  match r2Client with
  | Some r2 => collectLinks os r2 folderPath note m
  | None => ([], m)
  end.

(** The title before the marker is put in front of it. *)
Definition titleOf (note : KeepNote) (filePath : string) : string :=
  if String.eqb (Title note) "" then shortenFilename filePath else Title note.

(** The request [processMessage] hands to [AddToDynalist]. *)
Definition payloadOf (token : string) (note : KeepNote) (filePath : string)
    (links : list string) : DynalistRequest :=
  requestOf token ("gkeep: " ++ titleOf note filePath)
    (TextContent note ++ attachmentsBlock links ++ hashtagBlock (processLabels (Labels note))).

(** ** calculateBackoff on binary64 *)

(** The constant [1.5]. *)
Definition oneAndHalf : float64 := S754_finite false 6755399441055744 (-52).

(** [j] is a binary64 number with [0.5 <= j < 1.5]. *)
Definition inJitterRange (j : float64) : bool :=
  valid_binary prec emax j && SFleb half j && SFltb j oneAndHalf.

(** The jitter factor times [2^53], an integer for factors in the range. *)
Definition jitter53 (j : float64) : Z :=
  match j with
  | S754_finite false m e => Z.shiftl (Zpos m) (e + 53)
  | _ => 0
  end.

(** The mantissas of [float64(minDelay)] and [float64(maxDelay)]. *)
Definition mB : positive := 8388608000000000.
Definition mC : positive := 7864320000000000.

(** [k >= 1] right shifts of [m] leave the quotient, the last bit shifted
    out and whether anything was shifted out before it. *)
Definition shifted (m : Z) (k : Z) (r : shr_record) : Prop :=
  0 <= shr_m r /\
  exists t, 0 <= t < 2 ^ (k - 1) /\
    m = 2 ^ k * shr_m r + 2 ^ (k - 1) * Z.b2z (shr_r r) + t /\
    shr_s r = negb (t =? 0).

(** The integer [P] shifted right by [k] bits and rounded to nearest
    even, as [binary_round_aux] does it. *)
Definition roundShift (P : Z) (k : positive) : Z :=
  let r := iter_pos shr_1 k {| shr_m := P; shr_r := false; shr_s := false |} in
  round_nearest_even (shr_m r) (loc_of_shr_record r).

(** What the rounding of [float64(minDelay) * jitter] leaves: a mantissa
    [M] of 53 bits and an exponent [c], within half a unit in the last
    place of the exact product. *)
Definition jitterRounding (j : float64) (M c : Z) : Prop :=
  2 ^ 52 <= M < 2 ^ 53 /\
  -23 <= c <= -21 /\
  2 * (minDelay * jitter53 j) - 2 ^ (c + 53) <= 2 * M * 2 ^ (c + 53)
    <= 2 * (minDelay * jitter53 j) + 2 ^ (c + 53).

(** The value of [backoffWithJitter] in terms of that mantissa and
    exponent: the cap, or the integer part of [M * 2^(n + c)]. *)
Definition backoffClosed (M c n : Z) : Z :=
  if (-17 <? n + c) || ((n + c =? -17) && (Zpos mC <? M)) then maxDelay
  else M / 2 ^ (- (n + c)).

(** The jitter factor one. *)
Definition one : float64 := S754_finite false 4503599627370496 (-52).

(** ** Concrete data for the examples *)

Definition stats0 : RetryStats :=
  {| TotalCalls := 0; SuccessfulCalls := 0; FailedCalls := 0; Retries := 0;
     LastError := ""; LastStatus := "" |}.

Definition machine0 : Machine :=
  {| Stats := stats0; trace := []; sent := 0; drawnInt := 0; drawnFloat := 0 |}.

Definition response (code msg : string) : Outcome :=
  Decoded {| Code := code; Message := msg; FileID := ""; NodeID := ""; RespIndex := 0 |}.

(** An environment that answers the requests with the outcomes of [l],
    then with [d]; every pause draw is [r], every float draw is [u]. *)
Definition envOf (r : Z) (u : float64) (l : list Outcome) (d : Outcome) : Env :=
  {| randInt63 := fun _ => r; randFloat64 := fun _ => u;
     roundTrip := fun k _ => nth k l d |}.

Definition os0 : OS :=
  {| statOk := fun _ => true;
     pathJoin := fun a b => a ++ "/" ++ b;
     parseKeepNote := fun _ => Err "no such file" |}.

Definition r2ok : CloudflareR2Client :=
  {| UploadLocalFile := fun path => Ok ("https://r2.example/" ++ path) |}.

Definition noteTB : KeepNote :=
  {| Title := "T"; TextContent := "B"; TextContentHTML := "";
     Attachments := [];
     Labels := [ {| Name := "Work" |}; {| Name := "A B" |} ];
     UserEditedTimestampUsec := 0; CreatedTimestampUsec := 0;
     IsArchived := false |}.

(** The environment of the counterexample to C3: the first request fails
    in transport, the second succeeds; the float draw is 0.5, so the
    jitter factor is one. *)
Definition envTimeoutThenOk : Env :=
  envOf 0 half [SendError "timeout"] (response "Ok" "").

(** The labels of the witness: a name with a space and a repeated name. *)
Definition labelsWorkAB : list Label :=
  [ {| Name := "Work" |}; {| Name := "A B" |}; {| Name := "Work" |} ].

(** Three rate-limited responses, then a success. *)
Definition envThreeRateLimits : Env :=
  envOf 0 half
    [response "TooManyRequests" ""; response "TooManyRequests" "";
     response "TooManyRequests" ""]
    (response "Ok" "").

(** An error response that is neither a success nor a rate limit. *)
Definition badRequest : DynalistResponse :=
  {| Code := "InvalidToken"; Message := ""; FileID := ""; NodeID := ""; RespIndex := 0 |}.

(** ** The walk over the folder *)

(** The entry is passed over by the callback: a directory, a file whose
    extension is not [".json"], a file that does not parse, or an archived
    note. *)
Definition passedOver (os : OS) (e : WalkEntry) : bool :=
  entryIsDir e
  || negb (String.eqb (Ext (entryPath e)) ".json")
  || match parseKeepNote os (entryPath e) with
     | Err _ => true
     | Ok note => IsArchived note
     end.

(** The first error the walk itself reports, if any. *)
Fixpoint firstWalkError (entries : list WalkEntry) : option string :=
  match entries with
  | [] => None
  | e :: rest =>
      match entryErr e with
      | Some err => Some err
      | None => firstWalkError rest
      end
  end.

(** The entries the callback sees: those up to the first walk error. *)
Fixpoint visited (entries : list WalkEntry) : list WalkEntry :=
  match entries with
  | [] => []
  | e :: rest =>
      match entryErr e with
      | Some _ => []
      | None => e :: visited rest
      end
  end.

(** The number of notes handed to [processMessage]. *)
Definition handedOver (os : OS) (entries : list WalkEntry) : nat :=
  List.length (filter (fun e => negb (passedOver os e)) (visited entries)).

(** What the three call counters leave open, modulo [2^64]: zero when
    every call counted in [TotalCalls] has been counted as a success or as
    a failure. *)
Definition openCalls (s : RetryStats) : Z :=
  (TotalCalls s - SuccessfulCalls s - FailedCalls s) mod 2 ^ 64.

(** An archived note and a file system in which every file parses to [note]. *)
Definition noteArchived : KeepNote :=
  {| Title := "Old"; TextContent := "done"; TextContentHTML := "";
     Attachments := []; Labels := [];
     UserEditedTimestampUsec := 0; CreatedTimestampUsec := 0;
     IsArchived := true |}.

Definition osParsing (note : KeepNote) : OS :=
  {| statOk := fun _ => true;
     pathJoin := fun a b => a ++ "/" ++ b;
     parseKeepNote := fun _ => Ok note |}.

Definition fileEntry (path : string) : WalkEntry :=
  {| entryPath := path; entryIsDir := false; entryErr := None |}.

Definition failedEntry (path err : string) : WalkEntry :=
  {| entryPath := path; entryIsDir := false; entryErr := Some err |}.

(** ** Attachments *)

(** The link one attachment contributes: none when its file is not found
    or its upload fails. *)
Definition linkOf (os : OS) (r2 : CloudflareR2Client) (folderPath : string) (a : Attachment)
  : list string :=
  let attachmentFile := pathJoin os folderPath (FilePath a) in
  if statOk os attachmentFile then
    match UploadLocalFile r2 attachmentFile with
    | Ok r2URL => ["[" ++ FilePath a ++ "](" ++ r2URL ++ ")"]
    | Err _ => []
    end
  else [].

(** The events one attachment causes: the look-up, and the upload when the
    file is there. *)
Definition attachmentEvents (os : OS) (folderPath : string) (a : Attachment) : list Event :=
  let attachmentFile := pathJoin os folderPath (FilePath a) in
  if statOk os attachmentFile then [StatFile attachmentFile; UploadFile attachmentFile]
  else [StatFile attachmentFile].

(** A note with three attachments, a file system in which the second is
    missing, and a storage that refuses the third. *)
Definition noteThreePhotos : KeepNote :=
  {| Title := "Trip"; TextContent := "B"; TextContentHTML := "";
     Attachments := [ {| FilePath := "a.jpg"; MimeType := "image/jpeg" |};
                      {| FilePath := "b.jpg"; MimeType := "image/jpeg" |};
                      {| FilePath := "c.jpg"; MimeType := "image/jpeg" |} ];
     Labels := [];
     UserEditedTimestampUsec := 0; CreatedTimestampUsec := 0;
     IsArchived := false |}.

Definition osWithoutB : OS :=
  {| statOk := fun path => negb (String.eqb path "/takeout/b.jpg");
     pathJoin := fun a b => a ++ "/" ++ b;
     parseKeepNote := fun _ => Ok noteThreePhotos |}.

Definition r2RefusingC : CloudflareR2Client :=
  {| UploadLocalFile := fun path =>
       if String.eqb path "/takeout/c.jpg" then Err "403"
       else Ok ("https://r2.example" ++ path) |}.

(** ** Titles from file names *)

(** The last step of [shortenFilename]: at most fifteen bytes, then the
    ellipsis. *)
Definition ellipsis15 (base : string) : string :=
  if (15 <? length base)%nat then substring 0 15 base ++ "..." else base.

(** ** The jitter factor and the time a call sleeps *)

(** The constant [0.0]. *)
Definition zero : float64 := S754_zero false.

(** [u] is a binary64 number with [0 <= u < 1], as [rand.Float64] returns. *)
Definition inUnit (u : float64) : bool :=
  valid_binary prec emax u && SFleb zero u && SFltb u one.


(** The durations slept in a trace, in order, and their sum. *)
Definition sleeps (tr : list Event) : list Z :=
  flat_map (fun e => match e with Sleep d => [d] | _ => [] end) tr.


(* ===================================================================== *)
(** * main.go with the progress display                                  *)
(* ===================================================================== *)

(** The sources hold a second text of [main.go], after the Dockerfile: it
    counts the JSON files first, shows a progress line after each note,
    makes a title from the first lines of a note that has none, and writes
    the hashtags into the title.  It calls the same [keepnote.go] and
    [dynalist.go]. *)
Module Progressive.

(** [ProgressStats]; [StartTime] is the clock reading of [init]. *)
Record ProgressStats := {
  TotalNotes : Z;
  ProcessedNotes : Z;
  SkippedNotes : Z;
  StartTime : Z
}.

(** The state of this version: the global [Progress], the values of
    [Progress] and [Stats] each call of [displayProgress] has read, and
    the machine of the delivery client. *)
Record World := {
  Progress : ProgressStats;
  displayed : list (ProgressStats * RetryStats);
  machine : Machine
}.

Definition updProgress (f : ProgressStats -> ProgressStats) (w : World) : World :=
  {| Progress := f (Progress w); displayed := displayed w; machine := machine w |}.

Definition setMachine (m : Machine) (w : World) : World :=
  {| Progress := Progress w; displayed := displayed w; machine := m |}.

(** [Progress.TotalNotes++] and its siblings. *)
Definition incTotalNotes (p : ProgressStats) : ProgressStats :=
  {| TotalNotes := incr (TotalNotes p); ProcessedNotes := ProcessedNotes p;
     SkippedNotes := SkippedNotes p; StartTime := StartTime p |}.

Definition incProcessedNotes (p : ProgressStats) : ProgressStats :=
  {| TotalNotes := TotalNotes p; ProcessedNotes := incr (ProcessedNotes p);
     SkippedNotes := SkippedNotes p; StartTime := StartTime p |}.

Definition incSkippedNotes (p : ProgressStats) : ProgressStats :=
  {| TotalNotes := TotalNotes p; ProcessedNotes := ProcessedNotes p;
     SkippedNotes := incr (SkippedNotes p); StartTime := StartTime p |}.

(** [init]: [Progress] holds the start time and zeros. *)
Definition init (now : Z) (m : Machine) : World :=
  {| Progress := {| TotalNotes := 0; ProcessedNotes := 0; SkippedNotes := 0;
                    StartTime := now |};
     displayed := []; machine := m |}.

(** The callback of [countJsonFiles]; it always returns [nil], so the walk
    goes over every entry. *)
Definition countFn (e : WalkEntry) (w : World) : World :=
  match entryErr e with
  | Some _ => w
  | None =>
      if negb (entryIsDir e) && String.eqb (Ext (entryPath e)) ".json"
      then updProgress incTotalNotes w
      else w
  end.

(** [countJsonFiles]. *)
Definition countJsonFiles (entries : list WalkEntry) (w : World) : World :=
  fold_left (fun w e => countFn e w) entries w.

(** The width of the progress bar, a local constant of [displayProgress]. *)
Definition width : Z := 30.

(** The local variable [completed] of [displayProgress]:
    [int(float64(width) * float64(Progress.ProcessedNotes) /
    float64(Progress.TotalNotes))]. *)
Definition completed (p : ProgressStats) : Z :=
  int64_of_float64
    (SFdiv prec emax
       (SFmul prec emax (float64_of_int width) (float64_of_int (ProcessedNotes p)))
       (float64_of_int (TotalNotes p))).

(** [displayProgress] builds the bar with [strings.Repeat("=", completed)]
    and [strings.Repeat(" ", width-completed)], which panic on a negative
    count, and prints one line made from [Progress] and [Stats].  [None]
    is the panic; of the line printed only the values it is made from are
    recorded. *)
Definition displayProgress (w : World) : option World :=
  let completed := completed (Progress w) in
  if (completed <? 0) || (width - completed <? 0) then None
  else
    Some {| Progress := Progress w;
            displayed := List.app (displayed w) [(Progress w, Stats (machine w))];
            machine := machine w |}.

Section WithTrimSpace.

(** [strings.TrimSpace] cuts the white space, as Unicode defines it, from
    both ends of a string. *)
Variable TrimSpace : string -> string.

(** The loop over [contentLines] that builds [previewText]; it leaves at
    the second line that is not blank. *)
Fixpoint previewLoop (contentLines : list string) (previewText : string) (lineCount : Z)
  : string :=
  match contentLines with
  | [] => previewText
  | line :: rest =>
      let trimmedLine := TrimSpace line in
      if negb (String.eqb trimmedLine "") then
        let previewText :=
          if negb (String.eqb previewText "") then previewText ++ " | " else previewText in
        let previewText :=
          if (30 <? length trimmedLine)%nat
          then previewText ++ substring 0 30 trimmedLine ++ "..."
          else previewText ++ trimmedLine in
        let lineCount := lineCount + 1 in
        if 2 <=? lineCount then previewText else previewLoop rest previewText lineCount
      else previewLoop rest previewText lineCount
  end.

(** [processMessage]. *)
Definition processMessage (os : OS) (env : Env) (note : KeepNote)
    (folderPath dynalistToken : string) (r2Client : option CloudflareR2Client)
    (filePath : string) (m : Machine) : option string * Machine :=
  let (attachmentLinks, m) :=
    match r2Client with
    | Some r2 =>
        if (0 <? List.length (Attachments note))%nat
        then fold_left (processAttachment os r2 folderPath) (Attachments note) ([], m)
        else ([], m)
    | None => ([], m)
    end in
  let hashtags := processLabels (Labels note) in
  let noteContent := TextContent note in
  let noteContent :=
    if (0 <? List.length attachmentLinks)%nat
    then noteContent ++ nl ++ nl ++ "Attachments:" ++ nl ++ Join attachmentLinks nl
    else noteContent in
  let title := Title note in
  let title :=
    if String.eqb title "" then
      let baseTitle := shortenFilename filePath in
      if negb (String.eqb (TextContent note) "") then
        let contentLines := Split (TextContent note) nl in
        let previewText := previewLoop contentLines "" 0 in
        if negb (String.eqb previewText "") then baseTitle ++ ": " ++ previewText
        else baseTitle
      else baseTitle
    else title in
  let title := "gkeep: " ++ title in
  let title := if negb (String.eqb hashtags "") then title ++ " " ++ hashtags else title in
  AddToDynalist env dynalistToken title noteContent m.

(** A note that is not delivered: [Progress.SkippedNotes++], then
    [displayProgress()]. *)
Definition skipNote (w : World) : option World :=
  displayProgress (updProgress incSkippedNotes w).

(** [return nil] after [displayProgress()], when that call has returned. *)
Definition returnNil (w : option World) : option (option string * World) :=
  match w with
  | Some w => Some (None, w)
  | None => None
  end.

(** The callback of [processKeepFolder]: its return value and the state,
    or [None] when [displayProgress] panics. *)
Definition walkFn (os : OS) (env : Env) (folderPath dynalistToken : string)
    (r2Client : option CloudflareR2Client) (e : WalkEntry) (w : World)
  : option (option string * World) :=
  match entryErr e with
  | Some err => Some (Some err, w)
  | None =>
      if entryIsDir e then Some (None, w)
      else if negb (String.eqb (Ext (entryPath e)) ".json") then Some (None, w)
      else
        match parseKeepNote os (entryPath e) with
        | Err _ => returnNil (skipNote w)
        | Ok note =>
            if IsArchived note then returnNil (skipNote w)
            else
              let (err, m) :=
                processMessage os env note folderPath dynalistToken r2Client (entryPath e)
                               (machine w) in
              let w := setMachine m w in
              match err with
              | Some _ => returnNil (skipNote w)
              | None => returnNil (displayProgress (updProgress incProcessedNotes w))
              end
        end
  end.

(** [processKeepFolder]; a panic in the callback ends the program. *)
Fixpoint processKeepFolder (os : OS) (env : Env) (folderPath dynalistToken : string)
    (r2Client : option CloudflareR2Client) (entries : list WalkEntry) (w : World)
  : option (option string * World) :=
  match entries with
  | [] => Some (None, w)
  | e :: rest =>
      match walkFn os env folderPath dynalistToken r2Client e w with
      | None => None
      | Some (Some err, w) => Some (Some err, w)
      | Some (None, w) => processKeepFolder os env folderPath dynalistToken r2Client rest w
      end
  end.

End WithTrimSpace.

End Progressive.

(** ** The version with the progress display *)

(** What a line contributes to the preview: its first thirty bytes and an
    ellipsis when it is longer. *)
Definition previewPiece (trimmedLine : string) : string :=
  if (30 <? length trimmedLine)%nat then substring 0 30 trimmedLine ++ "..." else trimmedLine.

(** The lines of a text that are not blank, trimmed. *)
Definition inkLines (TrimSpace : string -> string) (text : string) : list string :=
  filter (fun l => negb (String.eqb l "")) (map TrimSpace (Split text nl)).

(** The preview of a text: the pieces of its first two lines that are not
    blank; an empty text is not split. *)
Definition previewOf (TrimSpace : string -> string) (text : string) : string :=
  if String.eqb text "" then ""
  else
    match inkLines TrimSpace text with
    | [] => ""
    | [l] => previewPiece l
    | l1 :: l2 :: _ => previewPiece l1 ++ " | " ++ previewPiece l2
    end.

(** The title before the marker: the note's own, or the shortened file
    name followed by the preview when there is one. *)
Definition previewTitle (TrimSpace : string -> string) (note : KeepNote) (filePath : string)
  : string :=
  if String.eqb (Title note) "" then
    match previewOf TrimSpace (TextContent note) with
    | EmptyString => shortenFilename filePath
    | p => shortenFilename filePath ++ ": " ++ p
    end
  else Title note.

(** The hashtags as they follow the title. *)
Definition hashtagTail (hashtags : string) : string :=
  if String.eqb hashtags "" then "" else " " ++ hashtags.

(** The JSON files among the entries, as [countJsonFiles] tells them. *)
Definition isJsonFile (e : WalkEntry) : bool :=
  match entryErr e with
  | Some _ => false
  | None => negb (entryIsDir e) && String.eqb (Ext (entryPath e)) ".json"
  end.

Definition jsonFiles (entries : list WalkEntry) : nat := List.length (filter isJsonFile entries).

(** [TrimSpace] on text whose white space is ASCII. *)
Definition trimAsciiSpace (s : string) : string :=
  Trim s (String (ascii_of_nat 9) (String (ascii_of_nat 10) (String (ascii_of_nat 11)
         (String (ascii_of_nat 12) (String (ascii_of_nat 13) " "))))).

(** A note without a title, whose text has a blank line and three others. *)
Definition noteUntitled : KeepNote :=
  {| Title := "";
     TextContent := "  milk and eggs " ++ nl ++ "   " ++ nl
                      ++ "call the plumber before the end of the week" ++ nl ++ "third";
     TextContentHTML := "";
     Attachments := [];
     Labels := [ {| Name := "Home" |} ];
     UserEditedTimestampUsec := 0; CreatedTimestampUsec := 0;
     IsArchived := false |}.

(** The second half of [binary_round_aux]: the rounded mantissa is brought
    back to 53 bits and the exponent checked. *)
Definition roundFinish (s : bool) (mr e : Z) : float64 :=
  let '(mrs, e') := shr_fexp prec emax mr e loc_Exact in
  match shr_m mrs with
  | Z0 => S754_zero s
  | Zpos m => if e' <=? emax - prec then S754_finite s m e' else S754_infinity s
  | _ => S754_nan
  end.

(** [x] after [k] executions of [x++] on an [int64]. *)
Definition incremented (x : Z) (k : nat) : Z :=
  match k with
  | O => x
  | S _ => int64_sum x (Z.of_nat k)
  end.

(** [Progress] after [a] more notes were processed and [b] more skipped. *)
Definition advanced (p : Progressive.ProgressStats) (a b : nat) : Progressive.ProgressStats :=
  {| Progressive.TotalNotes := Progressive.TotalNotes p;
     Progressive.ProcessedNotes := incrN a (Progressive.ProcessedNotes p);
     Progressive.SkippedNotes := incrN b (Progressive.SkippedNotes p);
     Progressive.StartTime := Progressive.StartTime p |}.

(** A state in the middle of a run: three notes of six processed, one
    skipped. *)
Definition worldHalfway : Progressive.World :=
  {| Progressive.Progress :=
       {| Progressive.TotalNotes := 6; Progressive.ProcessedNotes := 3;
          Progressive.SkippedNotes := 1; Progressive.StartTime := 0 |};
     Progressive.displayed := [];
     Progressive.machine := machine0 |}.

(** A folder with a directory, a picture and two notes. *)
Definition folderTwoNotes : list WalkEntry :=
  [ {| entryPath := "/takeout/Keep"; entryIsDir := true; entryErr := None |};
    fileEntry "/takeout/Keep/a.json";
    fileEntry "/takeout/Keep/a.jpg";
    fileEntry "/takeout/Keep/b.json" ].

(** The room the labels take as hashtags: for each label its name, the
    ['#'] and the space that separates it from the next. *)
Definition hashtagRoom (labels : list Label) : nat :=
  fold_right (fun l n => (length (Name l) + 2 + n)%nat) 0%nat labels.

(* ===================================================================== *)
(** * Properties                                                         *)
(* ===================================================================== *)

(** ** The attempt loop is the state machine *)

Lemma retryLoop_eq env req rc le m :
  retryLoop env req rc le m =
  if rc <=? maxRetries then
    match attempt env req rc m with
    | Return err m' => (err, m')
    | Break le' m' => afterLoop le' m'
    | Continue rc' le' m' => retryLoop env req rc' le' m'
    end
  else afterLoop le m.
Proof.
  funelim (retryLoop env req rc le m);
    repeat match goal with
           | H : (_ <=? _) = _ |- _ => rewrite H
           | H : attempt _ _ _ _ = _ |- _ => rewrite H
           end; reflexivity.
Qed.

Lemma errorOf_Decoded resp :
  (if negb (String.eqb (Message resp) "")
   then "dynalist API error: " ++ Message resp
   else "dynalist API error: " ++ Code resp) = errorOf (Decoded resp).
Proof. cbn. destruct (String.eqb (Message resp) ""); reflexivity. Qed.

Lemma gtb_maxRetries rc : (rc + 1 >? maxRetries) = negb (rc <? maxRetries).
Proof.
  unfold maxRetries. rewrite Z.gtb_ltb.
  destruct (Z.ltb_spec 5 (rc + 1)), (Z.ltb_spec rc 5); cbn; lia || reflexivity.
Qed.

Lemma attempt_spec env req rc m :
  attempt env req rc m =
  let o := outcomeAt env req m in
  match classify rc o with
  | Succeeded => Return None (succeeded req m)
  | Retryable => Continue (rc + 1) (Some (errorOf o)) (retried env req rc m)
  | Exhausted => Break (Some (errorOf o)) (brokenAt env req Exhausted m)
  | Terminal => Break (Some (errorOf o)) (brokenAt env req Terminal m)
  end.
Proof.
  unfold attempt, doPost, outcomeAt, retried, brokenAt, succeeded, backoffAt.
  fold (posted req m).
  destruct (roundTrip env (sent m) req) as [err|err|resp] eqn:Ho;
    unfold outcomeAt; rewrite ?Ho.
  - unfold countRetry, classify. rewrite gtb_maxRetries.
    destruct (rc <? maxRetries); reflexivity.
  - unfold countRetry, classify. rewrite gtb_maxRetries.
    destruct (rc <? maxRetries); reflexivity.
  - unfold classify. destruct (String.eqb (Code resp) "Ok"); [reflexivity|].
    rewrite errorOf_Decoded.
    destruct (String.eqb (Code resp) "TooManyRequests"); cbn [negb andb].
    + unfold countRetry. rewrite gtb_maxRetries.
      destruct (rc <? maxRetries); reflexivity.
    + rewrite Z.geb_leb.
      destruct (Z.leb_spec 2 rc) as [H2|H2], (Z.ltb_spec rc 2) as [H2'|H2']; try lia.
      * reflexivity.
      * unfold countRetry. rewrite gtb_maxRetries.
        destruct (Z.ltb_spec rc maxRetries) as [H5|H5]; [reflexivity|].
        unfold maxRetries in H5. lia.
Qed.

Lemma classify_Retryable_lt rc o : classify rc o = Retryable -> rc < maxRetries.
Proof.
  unfold classify, maxRetries.
  destruct o as [e|e|resp].
  - destruct (Z.ltb_spec rc 5); [lia|discriminate].
  - destruct (Z.ltb_spec rc 5); [lia|discriminate].
  - destruct (String.eqb (Code resp) "Ok"); [discriminate|].
    destruct (String.eqb (Code resp) "TooManyRequests").
    + destruct (Z.ltb_spec rc 5); [lia|discriminate].
    + destruct (Z.ltb_spec rc 2); [lia|discriminate].
Qed.

Lemma retryLoop_Run env req :
  forall (n : nat) rc le m,
    attemptsLeft rc = n -> rc <= maxRetries ->
    exists j, Run env req rc m j (fst (retryLoop env req rc le m))
                                 (snd (retryLoop env req rc le m)).
Proof.
  induction n as [n IH] using lt_wf_ind. intros rc le m Hn Hle.
  rewrite retryLoop_eq.
  destruct (Z.leb_spec rc maxRetries) as [_|Hgt]; [|lia].
  rewrite attempt_spec. cbv zeta.
  destruct (classify rc (outcomeAt env req m)) eqn:Hc.
  - exists 0%nat. cbn [fst snd]. apply Run_success. exact Hc.
  - pose proof (classify_Retryable_lt _ _ Hc) as Hlt.
    destruct (IH (attemptsLeft (rc + 1))) with
        (rc := rc + 1) (le := Some (errorOf (outcomeAt env req m)))
        (m := retried env req rc m) as [k Hk].
    + subst n. unfold attemptsLeft, maxRetries in *. lia.
    + reflexivity.
    + lia.
    + exists (S k). apply Run_retry; assumption.
  - exists 0%nat. unfold afterLoop at 1 2. cbn [fst snd].
    apply (Run_failure env req rc m Exhausted); auto.
  - exists 0%nat. unfold afterLoop at 1 2. cbn [fst snd].
    apply (Run_failure env req rc m Terminal); auto.
Qed.

Lemma AddToDynalist_eq env token content note m :
  AddToDynalist env token content note m =
  retryLoop env (requestOf token content note) 0 None (entered env m).
Proof. reflexivity. Qed.

Lemma AddToDynalist_Run env token content note m :
  exists j, Run env (requestOf token content note) 0 (entered env m) j
                (fst (AddToDynalist env token content note m))
                (snd (AddToDynalist env token content note m)).
Proof.
  rewrite AddToDynalist_eq.
  apply (retryLoop_Run env _ (attemptsLeft 0)); [reflexivity|unfold maxRetries; lia].
Qed.

(** ** What a run of the state machine does *)

Lemma sent_retried env req rc m : sent (retried env req rc m) = S (sent m).
Proof. reflexivity. Qed.

Lemma drawnFloat_retried env req rc m :
  drawnFloat (retried env req rc m) = S (drawnFloat m).
Proof. reflexivity. Qed.

Lemma trace_retried env req rc m :
  trace (retried env req rc m) =
  List.app (trace m) [Post dynalistAPIURL req; Sleep (backoffAt env rc (drawnFloat m))].
Proof. cbn. rewrite <- app_assoc. reflexivity. Qed.

Lemma Stats_retried env req rc m :
  Stats (retried env req rc m) =
  incRetries (setLastError (errorOf (outcomeAt env req m)) (Stats m)).
Proof. reflexivity. Qed.

Lemma Run_retries_bound env req rc m j r m' :
  Run env req rc m j r m' -> rc <= maxRetries -> rc + Z.of_nat j <= maxRetries.
Proof.
  induction 1 as [rc m Hc|rc m v Hc Hv|rc m j r m' Hc _ IH]; intros Hle; try lia.
  apply classify_Retryable_lt in Hc. lia.
Qed.

Lemma Run_sent env req rc m j r m' :
  Run env req rc m j r m' -> sent m' = (sent m + S j)%nat.
Proof.
  induction 1 as [rc m Hc|rc m v Hc Hv|rc m j r m' Hc _ IH].
  - cbn. lia.
  - destruct Hv as [-> | ->]; cbn; lia.
  - rewrite IH, sent_retried. lia.
Qed.

Lemma Run_retried_attempts env req rc m j r m' :
  Run env req rc m j r m' ->
  forall i, (i < j)%nat ->
    classify (rc + Z.of_nat i) (roundTrip env (sent m + i) req) = Retryable.
Proof.
  induction 1 as [rc m Hc|rc m v Hc Hv|rc m j r m' Hc _ IH]; intros i Hi; try lia.
  destruct i as [|i].
  - rewrite Z.add_0_r, Nat.add_0_r. exact Hc.
  - specialize (IH i ltac:(lia)). rewrite sent_retried in IH.
    replace (rc + Z.of_nat (S i)) with (rc + 1 + Z.of_nat i) by lia.
    replace (sent m + S i)%nat with (S (sent m) + i)%nat by lia.
    exact IH.
Qed.

Lemma Run_last_attempt env req rc m j r m' :
  Run env req rc m j r m' ->
  let o := roundTrip env (sent m + j) req in
  classify (rc + Z.of_nat j) o <> Retryable /\
  r = resultOf (classify (rc + Z.of_nat j) o) o.
Proof.
  induction 1 as [rc m Hc|rc m v Hc Hv|rc m j r m' Hc _ IH]; cbv zeta.
  - rewrite Z.add_0_r, Nat.add_0_r. fold (outcomeAt env req m). rewrite Hc.
    split; [discriminate|reflexivity].
  - rewrite Z.add_0_r, Nat.add_0_r. fold (outcomeAt env req m). rewrite Hc.
    destruct Hv as [-> | ->]; (split; [discriminate|reflexivity]).
  - cbv zeta in IH. rewrite sent_retried in IH.
    replace (rc + Z.of_nat (S j)) with (rc + 1 + Z.of_nat j) by lia.
    replace (sent m + S j)%nat with (S (sent m) + j)%nat by lia.
    exact IH.
Qed.

Lemma Run_trace env req rc m j r m' :
  Run env req rc m j r m' ->
  trace m' =
  List.app (trace m) (Post dynalistAPIURL req :: retryEvents env req rc (drawnFloat m) j).
Proof.
  induction 1 as [rc m Hc|rc m v Hc Hv|rc m j r m' Hc _ IH].
  - reflexivity.
  - destruct Hv as [-> | ->]; reflexivity.
  - rewrite IH, trace_retried, drawnFloat_retried, <- app_assoc. reflexivity.
Qed.

Lemma Run_draws env req rc m j r m' :
  Run env req rc m j r m' ->
  drawnInt m' = drawnInt m /\ drawnFloat m' = (drawnFloat m + j)%nat.
Proof.
  induction 1 as [rc m Hc|rc m v Hc Hv|rc m j r m' Hc _ IH].
  - cbn. lia.
  - destruct Hv as [-> | ->]; cbn; lia.
  - destruct IH as [IH1 IH2]. rewrite IH1, IH2, drawnFloat_retried. cbn. lia.
Qed.

Lemma incrN_S n x : incrN (S n) x = incrN n (incr x).
Proof. unfold incrN. rewrite Nat.iter_succ_r. reflexivity. Qed.

(** The statistics after a run: the counters that move, and the two
    strings on each way out. *)
Lemma Run_stats env req rc m j r m' :
  Run env req rc m j r m' ->
  let v := classify (rc + Z.of_nat j) (roundTrip env (sent m + j) req) in
  TotalCalls (Stats m') = TotalCalls (Stats m) /\
  Retries (Stats m') =
    incrN (j + match v with Exhausted => 1 | _ => 0 end) (Retries (Stats m)) /\
  match r with
  | None =>
      SuccessfulCalls (Stats m') = incr (SuccessfulCalls (Stats m)) /\
      FailedCalls (Stats m') = FailedCalls (Stats m) /\
      LastStatus (Stats m') = "Success"
  | Some e =>
      SuccessfulCalls (Stats m') = SuccessfulCalls (Stats m) /\
      FailedCalls (Stats m') = incr (FailedCalls (Stats m)) /\
      LastStatus (Stats m') = "Failed" /\
      LastError (Stats m') = e
  end.
Proof.
  induction 1 as [rc m Hc|rc m v Hc Hv|rc m j r m' Hc _ IH]; cbv zeta.
  - rewrite Z.add_0_r, Nat.add_0_r. fold (outcomeAt env req m). rewrite Hc.
    cbn. repeat split; reflexivity.
  - rewrite Z.add_0_r, Nat.add_0_r. fold (outcomeAt env req m). rewrite Hc.
    destruct Hv as [-> | ->]; cbn; repeat split; reflexivity.
  - cbv zeta in IH. rewrite sent_retried in IH.
    replace (rc + Z.of_nat (S j)) with (rc + 1 + Z.of_nat j) by lia.
    replace (sent m + S j)%nat with (S (sent m) + j)%nat by lia.
    rewrite Stats_retried in IH. cbn [TotalCalls Retries SuccessfulCalls FailedCalls
      incRetries setLastError] in IH.
    destruct IH as (IH1 & IH2 & IH3).
    split; [exact IH1|]. split; [|exact IH3].
    rewrite IH2. cbn [Nat.add]. rewrite incrN_S. reflexivity.
Qed.

(** ** One call of AddToDynalist *)

Lemma pauseOf_range env m : minPause <= pauseOf env m < maxPause.
Proof.
  unfold pauseOf.
  pose proof (Z.mod_pos_bound (randInt63 env (drawnInt m)) (maxPause - minPause)) as H.
  unfold maxPause, minPause, Second in *. lia.
Qed.

Lemma posts_app l1 l2 : posts (List.app l1 l2) = List.app (posts l1) (posts l2).
Proof. unfold posts. apply flat_map_app. Qed.

Lemma posts_retryEvents env req rc d j :
  posts (retryEvents env req rc d j) = repeat req j.
Proof.
  revert rc d. induction j as [|j IH]; intros rc d; [reflexivity|].
  cbn. f_equal. apply IH.
Qed.

(** Everything the run of one call determines, in one place. *)
Lemma AddToDynalist_facts env token content note m :
  let req := requestOf token content note in
  let res := AddToDynalist env token content note m in
  let out := fun i : nat => roundTrip env (sent m + i) req in
  exists j : nat,
    let v := classify (Z.of_nat j) (out j) in
    Z.of_nat j <= maxRetries /\
    sent (snd res) = (sent m + S j)%nat /\
    (forall i, (i < j)%nat -> classify (Z.of_nat i) (out i) = Retryable) /\
    v <> Retryable /\
    fst res = resultOf v (out j) /\
    trace (snd res) =
      List.app (trace m)
        (Sleep (pauseOf env m) :: Post dynalistAPIURL req
           :: retryEvents env req 0 (drawnFloat m) j) /\
    TotalCalls (Stats (snd res)) = incr (TotalCalls (Stats m)) /\
    Retries (Stats (snd res)) =
      incrN (j + match v with Exhausted => 1 | _ => 0 end) (Retries (Stats m)) /\
    match fst res with
    | None =>
        SuccessfulCalls (Stats (snd res)) = incr (SuccessfulCalls (Stats m)) /\
        FailedCalls (Stats (snd res)) = FailedCalls (Stats m) /\
        LastStatus (Stats (snd res)) = "Success"
    | Some e =>
        SuccessfulCalls (Stats (snd res)) = SuccessfulCalls (Stats m) /\
        FailedCalls (Stats (snd res)) = incr (FailedCalls (Stats m)) /\
        LastStatus (Stats (snd res)) = "Failed" /\
        LastError (Stats (snd res)) = e
    end.
Proof.
  intros req res out.
  destruct (AddToDynalist_Run env token content note m) as [j HR].
  fold req in HR. fold res in HR.
  exists j. cbv zeta.
  pose proof (Run_retries_bound _ _ _ _ _ _ _ HR) as Hb.
  pose proof (Run_sent _ _ _ _ _ _ _ HR) as Hs.
  pose proof (Run_retried_attempts _ _ _ _ _ _ _ HR) as Hr.
  pose proof (Run_last_attempt _ _ _ _ _ _ _ HR) as Hl.
  pose proof (Run_trace _ _ _ _ _ _ _ HR) as Ht.
  pose proof (Run_stats _ _ _ _ _ _ _ HR) as Hst.
  cbv zeta in Hl, Hst. cbn [Z.add] in Hb, Hr, Hl, Hst.
  change (sent (entered env m)) with (sent m) in *.
  change (drawnFloat (entered env m)) with (drawnFloat m) in *.
  change (Stats (entered env m)) with (incTotalCalls (Stats m)) in *.
  cbn [TotalCalls Retries SuccessfulCalls FailedCalls incTotalCalls] in Hst.
  destruct Hl as [Hl1 Hl2]. destruct Hst as (Hst1 & Hst2 & Hst3).
  repeat split; try assumption.
  - apply Hb. unfold maxRetries. lia.
  - rewrite Ht. change (trace (entered env m)) with (List.app (trace m) [Sleep (pauseOf env m)]).
    rewrite <- app_assoc. reflexivity.
Qed.

(** C1.  Whatever the responses and transport errors, a call of
    [AddToDynalist] returns after some number [retries] of retries with
    [retries <= maxRetries = 5]; it has then sent exactly [retries + 1]
    requests, so at most [maxRetries + 1 = 6]. *)
Theorem AddToDynalist_at_most_maxRetries env token content note m :
  let req := requestOf token content note in
  let m' := snd (AddToDynalist env token content note m) in
  exists retries : nat,
    Z.of_nat retries <= maxRetries /\
    posts (trace m') = List.app (posts (trace m)) (repeat req (S retries)) /\
    sent m' = (sent m + S retries)%nat /\
    (List.length (posts (trace m')) <= List.length (posts (trace m)) + 6)%nat.
Proof.
  intros req m'.
  destruct (AddToDynalist_facts env token content note m)
    as (j & Hb & Hs & _ & _ & _ & Ht & _).
  fold m' in Hs, Ht. fold req in Ht.
  assert (Hp : posts (trace m') = List.app (posts (trace m)) (repeat req (S j))).
  { rewrite Ht, posts_app. cbn. rewrite posts_retryEvents. reflexivity. }
  exists j. repeat split; try assumption.
  rewrite Hp, length_app, repeat_length. unfold maxRetries in Hb. lia.
Qed.

(** C2.  The attempts of a call are classified as the specification says:
    the call makes a further attempt after attempt [i] (the one with [i]
    retries behind it) exactly when [classify] calls its outcome
    [Retryable], and it returns on the first attempt that is not, with no
    error after a success and with that attempt's error otherwise.  By
    [classify], a transport or decoding failure and a rate-limited response
    are retryable as long as [i < maxRetries]; any other error response is
    retryable only when [i < 2]. *)
Theorem AddToDynalist_classifies_attempts env token content note m :
  let req := requestOf token content note in
  let res := AddToDynalist env token content note m in
  let out := fun i : nat => roundTrip env (sent m + i) req in
  (exists j : nat,
     sent (snd res) = (sent m + S j)%nat /\
     (forall i, (i < j)%nat -> classify (Z.of_nat i) (out i) = Retryable) /\
     classify (Z.of_nat j) (out j) <> Retryable /\
     fst res = resultOf (classify (Z.of_nat j) (out j)) (out j)) /\
  (forall i err,
     classify i (SendError err) = (if i <? maxRetries then Retryable else Exhausted) /\
     classify i (DecodeError err) = (if i <? maxRetries then Retryable else Exhausted)) /\
  (forall i resp, Code resp = "TooManyRequests" ->
     classify i (Decoded resp) = if i <? maxRetries then Retryable else Exhausted) /\
  (forall i resp, Code resp <> "Ok" -> Code resp <> "TooManyRequests" ->
     classify i (Decoded resp) = if i <? 2 then Retryable else Terminal) /\
  (forall i resp, Code resp = "Ok" -> classify i (Decoded resp) = Succeeded).
Proof.
  intros req res out. split; [|repeat split].
  - destruct (AddToDynalist_facts env token content note m)
      as (j & _ & Hs & Hr & Hv & He & _).
    exists j. repeat split; assumption.
  - intros i resp H. unfold classify. rewrite H. reflexivity.
  - intros i resp H1 H2. unfold classify.
    apply String.eqb_neq in H1, H2. rewrite H1, H2. reflexivity.
  - intros i resp H. unfold classify. rewrite H. reflexivity.
Qed.

Lemma AddToDynalist_classifies_attempts_witness :
  classify 1 (Decoded badRequest) = Retryable /\
  classify 2 (Decoded badRequest) = Terminal.
Proof.
  pose proof (AddToDynalist_classifies_attempts envThreeRateLimits "tok" "c" "n" machine0)
    as (_ & _ & _ & H & _).
  split.
  - apply (H 1 badRequest); discriminate.
  - apply (H 2 badRequest); discriminate.
Defined.

(** C3, as the code has it.  A call sleeps once for a pause in the pacing
    window, [minPause <= pause < maxPause], before its first request; each
    retry is preceded by the backoff sleep of [calculateBackoff] for the
    incremented retry count, and by no pause. *)
Theorem AddToDynalist_pause_then_backoffs env token content note m :
  let req := requestOf token content note in
  let m' := snd (AddToDynalist env token content note m) in
  exists (pause : Z) (retries : nat),
    minPause <= pause < maxPause /\
    trace m' =
      List.app (trace m)
        (Sleep pause :: Post dynalistAPIURL req
           :: retryEvents env req 0 (drawnFloat m) retries) /\
    (forall rc d k,
       retryEvents env req rc d (S k) =
       Sleep (backoffWithJitter (rc + 1) (SFadd prec emax half (randFloat64 env d)))
         :: Post dynalistAPIURL req :: retryEvents env req (rc + 1) (S d) k).
Proof.
  intros req m'.
  destruct (AddToDynalist_facts env token content note m)
    as (j & _ & _ & _ & _ & _ & Ht & _).
  exists (pauseOf env m), j. split; [apply pauseOf_range|]. split; [exact Ht|].
  reflexivity.
Qed.

(** C3 as stated fails: the second request of this run comes right after
    a sleep of four seconds, the backoff, which is outside the pacing
    window of one to three seconds. *)
Lemma AddToDynalist_retry_not_paced :
  trace (snd (AddToDynalist envTimeoutThenOk "tok" "c" "n" machine0)) =
    [Sleep (1 * Second); Post dynalistAPIURL (requestOf "tok" "c" "n");
     Sleep (4 * Second); Post dynalistAPIURL (requestOf "tok" "c" "n")] /\
  pacedBeforeEveryPost None
    (trace (snd (AddToDynalist envTimeoutThenOk "tok" "c" "n" machine0))) = false.
Proof. split; vm_compute; reflexivity. Qed.

Lemma incr_sum x : incr x = int64_sum x 1.
Proof. reflexivity. Qed.

Lemma int64_sum_incr x d : int64_sum (incr x) d = int64_sum x (d + 1).
Proof.
  unfold incr, wrap64, int64_sum.
  pose proof (Z.div_mod (x + 1 + 2 ^ 63) (2 ^ 64) ltac:(discriminate)) as H.
  replace ((x + 1 + 2 ^ 63) mod 2 ^ 64 - 2 ^ 63 + d + 2 ^ 63)
    with (x + (d + 1) + 2 ^ 63 + (- ((x + 1 + 2 ^ 63) / 2 ^ 64)) * 2 ^ 64) by lia.
  rewrite Z_mod_plus_full. reflexivity.
Qed.

Lemma incrN_sum n : forall x, incrN (S n) x = int64_sum x (Z.of_nat (S n)).
Proof.
  induction n as [|n IH]; intros x.
  - reflexivity.
  - rewrite incrN_S, IH, int64_sum_incr. f_equal. lia.
Qed.

Lemma int64_sum_small x d : - 2 ^ 63 <= x + d < 2 ^ 63 -> int64_sum x d = x + d.
Proof.
  intros H. unfold int64_sum.
  rewrite Z.mod_small by (change (2 ^ 64) with (2 * 2 ^ 63); lia). lia.
Qed.

(** C4.  Every return of [AddToDynalist] leaves the statistics updated,
    each counter by a sum in [int64] arithmetic, which is the plain sum
    while it fits: [TotalCalls] grows by one; on success [SuccessfulCalls]
    grows by one and [LastStatus] is ["Success"]; on an error
    [FailedCalls] grows by one, [LastStatus] is ["Failed"] and [LastError]
    is the error returned; [Retries] grows by the number [j] of retried
    attempts (and by one more when the run ends by exhaustion).  A success
    on the first attempt gives one request, one more successful call and
    no retry; three rate-limited responses, then a success, give four
    requests, three more retries and one more successful call. *)
Theorem AddToDynalist_updates_statistics env token content note m :
  let req := requestOf token content note in
  let res := AddToDynalist env token content note m in
  let out := fun i : nat => roundTrip env (sent m + i) req in
  let s := Stats m in
  let s' := Stats (snd res) in
  let rateLimited := fun o => exists resp, o = Decoded resp /\ Code resp = "TooManyRequests" in
  let success := fun o => exists resp, o = Decoded resp /\ Code resp = "Ok" in
  let grown := fun (x : Z) (k : nat) =>
                 match k with O => x | S _ => int64_sum x (Z.of_nat k) end in
  (exists j : nat,
     posts (trace (snd res)) = List.app (posts (trace m)) (repeat req (S j)) /\
     TotalCalls s' = int64_sum (TotalCalls s) 1 /\
     Retries s' =
       grown (Retries s)
             (j + match classify (Z.of_nat j) (out j) with Exhausted => 1 | _ => 0 end)%nat /\
     (fst res = None ->
        SuccessfulCalls s' = int64_sum (SuccessfulCalls s) 1 /\
        FailedCalls s' = FailedCalls s /\
        LastStatus s' = "Success" /\
        Retries s' = grown (Retries s) j) /\
     (forall e, fst res = Some e ->
        FailedCalls s' = int64_sum (FailedCalls s) 1 /\
        SuccessfulCalls s' = SuccessfulCalls s /\
        LastStatus s' = "Failed" /\
        LastError s' = e)) /\
  (success (out 0%nat) ->
     fst res = None /\
     posts (trace (snd res)) = List.app (posts (trace m)) [req] /\
     TotalCalls s' = int64_sum (TotalCalls s) 1 /\
     SuccessfulCalls s' = int64_sum (SuccessfulCalls s) 1 /\
     FailedCalls s' = FailedCalls s /\
     Retries s' = Retries s) /\
  (rateLimited (out 0%nat) -> rateLimited (out 1%nat) -> rateLimited (out 2%nat) ->
   success (out 3%nat) ->
     fst res = None /\
     posts (trace (snd res)) = List.app (posts (trace m)) [req; req; req; req] /\
     TotalCalls s' = int64_sum (TotalCalls s) 1 /\
     SuccessfulCalls s' = int64_sum (SuccessfulCalls s) 1 /\
     FailedCalls s' = FailedCalls s /\
     Retries s' = int64_sum (Retries s) 3) /\
  (forall x d, - 2 ^ 63 <= x + d < 2 ^ 63 -> int64_sum x d = x + d).
Proof.
  intros req res out s s' rateLimited success grown.
  destruct (AddToDynalist_facts env token content note m)
    as (j & Hb & Hs & Hr & Hv & He & Ht & Htc & Hrt & Hres).
  fold req in He, Ht, Hr, Hv, Hrt. fold res in Hs, He, Ht, Htc, Hrt, Hres.
  fold s s' in Htc, Hrt, Hres.
  subst out. cbv beta.
  assert (Hg : forall k x, incrN k x = grown x k).
  { intros [|k] x; [reflexivity|]. apply incrN_sum. }
  rewrite incr_sum in Htc. rewrite Hg in Hrt.
  assert (Hp : posts (trace (snd res)) = List.app (posts (trace m)) (repeat req (S j))).
  { rewrite Ht, posts_app. cbn. rewrite posts_retryEvents. reflexivity. }
  assert (Hok : forall i o, success o -> classify i o = Succeeded).
  { intros i o (resp & -> & Hc). unfold classify. rewrite Hc. reflexivity. }
  assert (Hrl : forall i o, rateLimited o -> i < maxRetries -> classify i o = Retryable).
  { intros i o (resp & -> & Hc) Hi. unfold classify. rewrite Hc. cbn.
    destruct (Z.ltb_spec i maxRetries); [reflexivity|lia]. }
  assert (Hnone : fst res = None ->
                  classify (Z.of_nat j) (roundTrip env (sent m + j) req) = Succeeded).
  { intros Hn. rewrite He in Hn.
    destruct (classify (Z.of_nat j) (roundTrip env (sent m + j) req));
      try discriminate; reflexivity. }
  split; [|split; [|split]].
  - exists j. split; [exact Hp|]. split; [exact Htc|]. split; [exact Hrt|]. split.
    + intros Hn. rewrite Hn in Hres. destruct Hres as (H1 & H2 & H3).
      rewrite incr_sum in H1.
      repeat split; try assumption.
      rewrite Hrt, (Hnone Hn), Nat.add_0_r. reflexivity.
    + intros e Hn. rewrite Hn in Hres. destruct Hres as (H1 & H2 & H3 & H4).
      rewrite incr_sum in H2.
      repeat split; assumption.
  - intros H0.
    assert (j = 0)%nat as ->.
    { destruct j as [|j]; [reflexivity|].
      specialize (Hr 0%nat ltac:(lia)). rewrite (Hok _ _ H0) in Hr. discriminate. }
    rewrite (Hok _ _ H0) in He, Hrt. unfold resultOf in He.
    change (grown (Retries s) (0 + 0)%nat) with (Retries s) in Hrt.
    rewrite He in Hres. destruct Hres as (H1 & H2 & _).
    rewrite incr_sum in H1.
    repeat split; assumption.
  - intros H0 H1 H2 H3.
    assert (j = 3)%nat as ->.
    { destruct j as [|[|[|[|j]]]].
      - rewrite (Hrl _ _ H0) in Hv by (unfold maxRetries; lia). contradiction.
      - rewrite (Hrl _ _ H1) in Hv by (unfold maxRetries; lia). contradiction.
      - rewrite (Hrl _ _ H2) in Hv by (unfold maxRetries; lia). contradiction.
      - reflexivity.
      - specialize (Hr 3%nat ltac:(lia)). rewrite (Hok _ _ H3) in Hr. discriminate. }
    rewrite (Hok _ _ H3) in He, Hrt. unfold resultOf in He.
    change (grown (Retries s) (3 + 0)%nat) with (int64_sum (Retries s) 3) in Hrt.
    rewrite He in Hres. destruct Hres as (Hs1 & Hs2 & _).
    rewrite incr_sum in Hs1.
    repeat split; assumption.
  - exact int64_sum_small.
Qed.

Lemma AddToDynalist_updates_statistics_witness :
  fst (AddToDynalist envThreeRateLimits "tok" "c" "n" machine0) = None /\
  posts (trace (snd (AddToDynalist envThreeRateLimits "tok" "c" "n" machine0))) =
    [requestOf "tok" "c" "n"; requestOf "tok" "c" "n";
     requestOf "tok" "c" "n"; requestOf "tok" "c" "n"] /\
  TotalCalls (Stats (snd (AddToDynalist envThreeRateLimits "tok" "c" "n" machine0))) = 1 /\
  SuccessfulCalls (Stats (snd (AddToDynalist envThreeRateLimits "tok" "c" "n" machine0))) = 1 /\
  FailedCalls (Stats (snd (AddToDynalist envThreeRateLimits "tok" "c" "n" machine0))) = 0 /\
  Retries (Stats (snd (AddToDynalist envThreeRateLimits "tok" "c" "n" machine0))) = 3.
Proof.
  pose proof (AddToDynalist_updates_statistics envThreeRateLimits "tok" "c" "n" machine0)
    as (_ & _ & H & _).
  apply H; eexists; (split; [reflexivity|reflexivity]).
Defined.

(** ** Strings *)

Lemma append_assoc (a b c : string) : (a ++ b) ++ c = a ++ b ++ c.
Proof. induction a as [|x a IH]; cbn; [reflexivity|]. rewrite IH. reflexivity. Qed.

Lemma append_empty_r (a : string) : a ++ "" = a.
Proof. induction a as [|x a IH]; cbn; [reflexivity|]. rewrite IH. reflexivity. Qed.

Lemma prefix_cons a s1 b s2 :
  prefix (String a s1) (String b s2) = if ascii_dec a b then prefix s1 s2 else false.
Proof. reflexivity. Qed.

Lemma prefix_empty s : prefix "" s = true.
Proof. destruct s; reflexivity. Qed.

Lemma prefix_space c s :
  prefix " " (String c s) = Ascii.eqb c " "%char.
Proof.
  rewrite prefix_cons, prefix_empty.
  destruct (ascii_dec " "%char c) as [<-|Hne].
  - reflexivity.
  - symmetry. apply Ascii.eqb_neq. congruence.
Qed.

Lemma ReplaceAll_space s : ReplaceAll s " " "_" = underscored s.
Proof.
  unfold ReplaceAll. induction s as [|c s IH]; [reflexivity|].
  cbn [replace_from underscored]. rewrite prefix_space.
  destruct (Ascii.eqb c " "%char); cbn; rewrite IH; reflexivity.
Qed.

Lemma noSpace_underscored s : noSpace (underscored s) = true.
Proof.
  induction s as [|c s IH]; [reflexivity|].
  cbn [underscored noSpace]. rewrite IH.
  destruct (Ascii.eqb_spec c " "%char) as [->|Hne]; [reflexivity|].
  apply Ascii.eqb_neq in Hne. rewrite Hne. reflexivity.
Qed.

Lemma noSpace_hashtagOf l : noSpace (hashtagOf l) = true.
Proof. unfold hashtagOf. cbn. apply noSpace_underscored. Qed.

(** Splitting on a space: a piece without spaces is read whole. *)
Lemma split_space_piece s : forall cur,
  noSpace s = true -> split_from " " 0 cur s = [cur ++ s].
Proof.
  induction s as [|c s IH]; intros cur Hs.
  - cbn. rewrite append_empty_r. reflexivity.
  - cbn [noSpace] in Hs. apply andb_prop in Hs. destruct Hs as [Hc Hs].
    cbn [split_from]. rewrite prefix_space.
    apply negb_true_iff in Hc. rewrite Hc.
    rewrite IH by assumption. rewrite append_assoc. reflexivity.
Qed.

Lemma split_space_next s rest : forall cur,
  noSpace s = true ->
  split_from " " 0 cur (s ++ String " "%char rest) =
  (cur ++ s) :: split_from " " 0 "" rest.
Proof.
  induction s as [|c s IH]; intros cur Hs.
  - cbn [append split_from]. rewrite prefix_space. cbn. rewrite append_empty_r.
    reflexivity.
  - cbn [noSpace] in Hs. apply andb_prop in Hs. destruct Hs as [Hc Hs].
    cbn [append split_from]. rewrite prefix_space.
    apply negb_true_iff in Hc. rewrite Hc.
    rewrite IH by assumption. rewrite append_assoc. reflexivity.
Qed.

Lemma Split_Join_space (hs : list string) :
  hs <> [] -> Forall (fun h => noSpace h = true) hs ->
  Split (Join hs " ") " " = hs.
Proof.
  unfold Split, Join. induction hs as [|h hs IH]; intros Hne Hall; [congruence|].
  inversion Hall as [|? ? Hh Hhs]; subst.
  destruct hs as [|h' hs].
  - cbn [concat]. apply split_space_piece. assumption.
  - change (concat " " (h :: h' :: hs)) with (h ++ String " "%char (concat " " (h' :: hs))).
    rewrite split_space_next by assumption. cbn [append].
    f_equal. apply IH; [discriminate|assumption].
Qed.

Lemma fold_left_snoc {A B} (f : A -> B) (l : list A) : forall acc,
  fold_left (fun acc x => List.app acc [f x]) l acc = List.app acc (map f l).
Proof.
  induction l as [|x l IH]; intros acc; cbn.
  - rewrite app_nil_r. reflexivity.
  - rewrite IH, <- app_assoc. reflexivity.
Qed.

Lemma processLabels_eq labels :
  processLabels labels = Join (map hashtagOf labels) " ".
Proof.
  unfold processLabels.
  rewrite (fold_left_snoc (fun l => "#" ++ ReplaceAll (Name l) " " "_")).
  cbn [List.app]. f_equal. apply map_ext. intros l.
  unfold hashtagOf. rewrite ReplaceAll_space. reflexivity.
Qed.

(** C9.  [processLabels] joins with one space the hashtags of the labels,
    one per label, in the order of the list and with repetitions kept;
    each hashtag is ['#'] followed by the name with its spaces turned into
    underscores, so it contains no space, and splitting the result on
    spaces gives the hashtags back.  The empty list gives the empty
    string. *)
Theorem processLabels_one_hashtag_per_label (labels : list Label) :
  processLabels labels = Join (map hashtagOf labels) " " /\
  List.length (map hashtagOf labels) = List.length labels /\
  (forall i l, nth_error labels i = Some l ->
     nth_error (map hashtagOf labels) i = Some (String "#"%char (underscored (Name l))) /\
     noSpace (underscored (Name l)) = true) /\
  (labels <> [] -> Split (processLabels labels) " " = map hashtagOf labels) /\
  processLabels [] = "".
Proof.
  split; [apply processLabels_eq|]. split; [apply length_map|].
  split; [|split; [|reflexivity]].
  - intros i l Hi. split; [|apply noSpace_underscored].
    rewrite nth_error_map, Hi. reflexivity.
  - intros Hne. rewrite processLabels_eq. apply Split_Join_space.
    + destruct labels; [congruence|discriminate].
    + apply Forall_forall. intros h Hin. apply in_map_iff in Hin.
      destruct Hin as (l & <- & _). apply noSpace_hashtagOf.
Qed.

Lemma processLabels_one_hashtag_per_label_witness :
  processLabels labelsWorkAB = "#Work #A_B #Work" /\
  Split (processLabels labelsWorkAB) " " = ["#Work"; "#A_B"; "#Work"].
Proof.
  destruct (processLabels_one_hashtag_per_label labelsWorkAB) as (H1 & _ & _ & H4 & _).
  split; [exact H1|]. apply H4. discriminate.
Defined.

(** ** shortenFilename *)

Lemma split_no_backslash pat s : forall cur,
  noBackslash s = true ->
  split_from (String "\"%char pat) 0 cur s = [cur ++ s].
Proof.
  induction s as [|c s IH]; intros cur Hs.
  - cbn. rewrite append_empty_r. reflexivity.
  - cbn [noBackslash] in Hs. apply andb_prop in Hs. destruct Hs as [Hc Hs].
    apply negb_true_iff, Ascii.eqb_neq in Hc.
    cbn [split_from]. rewrite prefix_cons.
    destruct (ascii_dec "\"%char c) as [E|_]; [congruence|].
    rewrite IH by assumption. rewrite append_assoc. reflexivity.
Qed.

(** The three patterns are searched for as they are written, backslashes
    and braces included: a name without a backslash keeps its digits. *)
Lemma timestampPatterns_literal base :
  noBackslash base = true ->
  fold_left (fun (base pattern : string) => hd EmptyString (Split base pattern))
            timestampPatterns base = base.
Proof.
  intros H. unfold timestampPatterns, Split. cbn [fold_left].
  do 3 (rewrite (split_no_backslash _ base "" H); cbn [hd append]).
  reflexivity.
Qed.

(** C8 fails on the code.  On the file name that the comment in
    [shortenFilename] gives as the common format, nothing of the timestamp
    is stripped: the title is the first fifteen bytes of the timestamp
    and the ellipsis. *)
Theorem shortenFilename_keeps_timestamp :
  shortenFilename "/takeout/Keep/2024-03-25T19_29_21.446+01_00.json"
    = "2024-03-25T19_2..." /\
  shortenFilename "/takeout/Keep/Shopping 2024-03-25T19_29_21.json"
    = "Shopping 2024-0...".
Proof. split; reflexivity. Qed.

(** ** processMessage *)

Lemma processMessage_eq os env note folderPath token r2Client filePath m :
  processMessage os env note folderPath token r2Client filePath m =
  AddToDynalist env token
    (Content (payloadOf token note filePath (fst (gathered os r2Client folderPath note m))))
    (Note (payloadOf token note filePath (fst (gathered os r2Client folderPath note m))))
    (snd (gathered os r2Client folderPath note m)).
Proof.
  unfold processMessage, gathered, collectLinks.
  assert (E : forall r2,
             (if (0 <? List.length (Attachments note))%nat
              then fold_left (processAttachment os r2 folderPath) (Attachments note) ([], m)
              else ([], m)) =
             fold_left (processAttachment os r2 folderPath) (Attachments note) ([], m)).
  { intros r2. destruct (Attachments note); reflexivity. }
  destruct r2Client as [r2|].
  - rewrite E.
    destruct (fold_left (processAttachment os r2 folderPath) (Attachments note) ([], m))
      as [links m1].
    cbn [fst snd payloadOf requestOf Content Note]. unfold titleOf, hashtagBlock.
    destruct links as [|l links];
      destruct (String.eqb (processLabels (Labels note)) ""); cbn [negb List.length Nat.ltb Nat.leb attachmentsBlock];
      rewrite ?append_assoc, ?append_empty_r; reflexivity.
  - cbn [fst snd payloadOf requestOf Content Note]. unfold titleOf, hashtagBlock.
    destruct (String.eqb (processLabels (Labels note)) ""); cbn [negb List.length Nat.ltb Nat.leb attachmentsBlock];
      rewrite ?append_assoc, ?append_empty_r; reflexivity.
Qed.

Lemma posts_emit_storage m e :
  match e with StatFile _ | UploadFile _ => True | _ => False end ->
  posts (trace (emit e m)) = posts (trace m).
Proof.
  intros He. cbn. rewrite posts_app. destruct e; try contradiction; cbn;
    apply app_nil_r.
Qed.

Lemma processAttachment_posts os r2 folderPath acc a :
  posts (trace (snd (processAttachment os r2 folderPath acc a))) = posts (trace (snd acc)).
Proof.
  destruct acc as [links m]. unfold processAttachment, findAttachmentFile.
  destruct (statOk os (pathJoin os folderPath (FilePath a))).
  - destruct (UploadLocalFile r2 (pathJoin os folderPath (FilePath a)));
      cbn [snd]; rewrite !posts_emit_storage; cbn; auto.
  - cbn [snd]. rewrite posts_emit_storage; cbn; auto.
Qed.

Lemma collect_posts os r2 folderPath l : forall acc,
  posts (trace (snd (fold_left (processAttachment os r2 folderPath) l acc))) =
  posts (trace (snd acc)).
Proof.
  induction l as [|a l IH]; intros acc; [reflexivity|].
  cbn [fold_left]. rewrite IH. apply processAttachment_posts.
Qed.

Lemma gathered_posts os r2Client folderPath note m :
  posts (trace (snd (gathered os r2Client folderPath note m))) = posts (trace m).
Proof.
  unfold gathered, collectLinks. destruct r2Client as [r2|]; [|reflexivity].
  rewrite collect_posts. reflexivity.
Qed.

Lemma processMessage_posts os env note folderPath token r2Client filePath m :
  exists j : nat,
    posts (trace (snd (processMessage os env note folderPath token r2Client filePath m))) =
    List.app (posts (trace m))
      (repeat (payloadOf token note filePath (fst (gathered os r2Client folderPath note m)))
              (S j)).
Proof.
  rewrite processMessage_eq.
  destruct (AddToDynalist_facts env token
              (Content (payloadOf token note filePath (fst (gathered os r2Client folderPath note m))))
              (Note (payloadOf token note filePath (fst (gathered os r2Client folderPath note m))))
              (snd (gathered os r2Client folderPath note m)))
    as (j & _ & _ & _ & _ & _ & Ht & _).
  exists j. rewrite Ht, posts_app, gathered_posts. cbn. rewrite posts_retryEvents.
  reflexivity.
Qed.

Lemma storageEvents_app l1 l2 :
  storageEvents (List.app l1 l2) = List.app (storageEvents l1) (storageEvents l2).
Proof. unfold storageEvents. apply filter_app. Qed.

Lemma storageEvents_retryEvents env req rc d j :
  storageEvents (retryEvents env req rc d j) = [].
Proof.
  revert rc d. induction j as [|j IH]; intros rc d; [reflexivity|].
  cbn. apply IH.
Qed.

(** C6.  [processMessage] delivers, in every request of the call, the
    payload whose content is the marker ["gkeep: "] followed by the title
    of the note, or by [shortenFilename] of the file when the title is
    empty, and whose note is the body text, then the attachments block
    when links were gathered, then the hashtags after a blank line when
    there are any.  The walk calls it on each note that is not archived.
    For title ["T"], body ["B"] and labels ["Work"], ["A B"] the content is
    ["gkeep: T"] and the note is ["B"], a blank line, ["#Work #A_B"]. *)
Theorem processMessage_payload os env note folderPath token r2Client filePath m :
  let res := processMessage os env note folderPath token r2Client filePath m in
  let links := fst (gathered os r2Client folderPath note m) in
  let title := if String.eqb (Title note) "" then shortenFilename filePath else Title note in
  let payload :=
    {| Token := token; Index := 0;
       Content := "gkeep: " ++ title;
       Note := TextContent note
               ++ match links with
                  | [] => ""
                  | _ => nl ++ nl ++ "Attachments:" ++ nl ++ Join links nl
                  end
               ++ (if String.eqb (processLabels (Labels note)) "" then ""
                   else nl ++ nl ++ processLabels (Labels note));
       Checked := false; Checkbox := false |} in
  (exists j : nat,
     posts (trace (snd res)) = List.app (posts (trace m)) (repeat payload (S j))) /\
  (forall e : WalkEntry,
     entryErr e = None -> entryIsDir e = false -> Ext (entryPath e) = ".json" ->
     parseKeepNote os (entryPath e) = Ok note -> IsArchived note = false ->
     entryPath e = filePath ->
     snd (walkFn os env folderPath token r2Client e m) = snd res) /\
  (Title note = "T" -> TextContent note = "B" -> Attachments note = [] ->
   Labels note = [ {| Name := "Work" |}; {| Name := "A B" |} ] ->
   Content payload = "gkeep: T" /\ Note payload = "B" ++ nl ++ nl ++ "#Work #A_B").
Proof.
  intros res links title payload. split; [|split].
  - apply processMessage_posts.
  - intros e He Hd Hx Hp Ha Hf. unfold walkFn.
    rewrite He, Hd, Hx, Hp, Ha, Hf. cbn [String.eqb Ascii.eqb Bool.eqb negb].
    fold res. destruct res. reflexivity.
  - intros Ht Hb Hat Hl. subst payload title links. cbn [Content Note].
    assert (Hg : fst (gathered os r2Client folderPath note m) = []).
    { unfold gathered, collectLinks. rewrite Hat. destruct r2Client; reflexivity. }
    rewrite Hg, Ht, Hb, Hl. split; reflexivity.
Qed.

Lemma processMessage_payload_witness :
  snd (walkFn
         {| statOk := fun _ => true; pathJoin := fun a b => a ++ "/" ++ b;
            parseKeepNote := fun _ => Ok noteTB |}
         (envOf 0 half [] (response "Ok" "")) "/takeout" "tok" (Some r2ok)
         {| entryPath := "/takeout/n.json"; entryIsDir := false; entryErr := None |}
         machine0)
  = snd (processMessage
         {| statOk := fun _ => true; pathJoin := fun a b => a ++ "/" ++ b;
            parseKeepNote := fun _ => Ok noteTB |}
         (envOf 0 half [] (response "Ok" "")) noteTB "/takeout" "tok" (Some r2ok)
         "/takeout/n.json" machine0).
Proof.
  apply (proj1 (proj2 (processMessage_payload
           {| statOk := fun _ => true; pathJoin := fun a b => a ++ "/" ++ b;
              parseKeepNote := fun _ => Ok noteTB |}
           (envOf 0 half [] (response "Ok" "")) noteTB "/takeout" "tok" (Some r2ok)
           "/takeout/n.json" machine0))); reflexivity.
Defined.

(** C7 as stated fails: for the note with title ["T"] and labels
    ["Work"], ["A B"] the only request has content ["gkeep: T"], which
    does not end in the hashtags ["#Work #A_B"]; they are in the note. *)
Lemma processMessage_title_has_no_hashtags :
  processLabels (Labels noteTB) = "#Work #A_B" /\
  posts (trace (snd (processMessage os0 (envOf 0 half [] (response "Ok" "")) noteTB
                       "/takeout" "tok" None "/takeout/n.json" machine0)))
    = [ requestOf "tok" "gkeep: T" ("B" ++ nl ++ nl ++ "#Work #A_B") ] /\
  HasSuffix "gkeep: T" "#Work #A_B" = false.
Proof. repeat split; vm_compute; reflexivity. Qed.

(** C7, as the code has it.  When the hashtag string is not empty, every
    request of the call has as content the marker and the title, with
    nothing after it, and the hashtag string is the end of the note field,
    after a blank line. *)
Theorem processMessage_hashtags_end_the_note os env note folderPath token r2Client filePath m :
  processLabels (Labels note) <> "" ->
  let res := processMessage os env note folderPath token r2Client filePath m in
  let title := if String.eqb (Title note) "" then shortenFilename filePath else Title note in
  exists (j : nat) (body : DynalistRequest) (before : string),
    posts (trace (snd res)) = List.app (posts (trace m)) (repeat body (S j)) /\
    Content body = "gkeep: " ++ title /\
    Note body = before ++ nl ++ nl ++ processLabels (Labels note).
Proof.
  intros Hne res title.
  destruct (processMessage_posts os env note folderPath token r2Client filePath m)
    as [j Hj].
  exists j, (payloadOf token note filePath (fst (gathered os r2Client folderPath note m))),
    (TextContent note ++ attachmentsBlock (fst (gathered os r2Client folderPath note m))).
  split; [exact Hj|]. split; [reflexivity|].
  cbn [payloadOf requestOf Note]. unfold hashtagBlock.
  apply String.eqb_neq in Hne. rewrite Hne. rewrite append_assoc. reflexivity.
Qed.

Lemma processMessage_hashtags_end_the_note_witness :
  exists (j : nat) (body : DynalistRequest) (before : string),
    posts (trace (snd (processMessage os0 (envOf 0 half [] (response "Ok" "")) noteTB
                         "/takeout" "tok" None "/takeout/n.json" machine0)))
      = List.app (posts (trace machine0)) (repeat body (S j)) /\
    Content body = "gkeep: " ++ "T" /\
    Note body = before ++ nl ++ nl ++ processLabels (Labels noteTB).
Proof.
  apply (processMessage_hashtags_end_the_note os0 (envOf 0 half [] (response "Ok" ""))
           noteTB "/takeout" "tok" None "/takeout/n.json" machine0).
  vm_compute. discriminate.
Defined.

(** C10.  Without a storage client ([r2Client] nil) [processMessage] makes
    no call to the file system or to the storage, whatever attachments the
    note declares, and every request carries as note the body text
    followed only by the hashtags: there is no attachments block. *)
Theorem processMessage_without_storage os env note folderPath token filePath m :
  let res := processMessage os env note folderPath token None filePath m in
  let title := if String.eqb (Title note) "" then shortenFilename filePath else Title note in
  let payload :=
    {| Token := token; Index := 0;
       Content := "gkeep: " ++ title;
       Note := TextContent note
               ++ (if String.eqb (processLabels (Labels note)) "" then ""
                   else nl ++ nl ++ processLabels (Labels note));
       Checked := false; Checkbox := false |} in
  storageEvents (trace (snd res)) = storageEvents (trace m) /\
  exists j : nat,
    posts (trace (snd res)) = List.app (posts (trace m)) (repeat payload (S j)).
Proof.
  intros res title payload. split.
  - subst res. rewrite processMessage_eq. cbn [gathered fst snd].
    match goal with
    | |- context [AddToDynalist env ?t ?c ?n m] =>
        destruct (AddToDynalist_facts env t c n m) as (j & _ & _ & _ & _ & _ & Ht & _)
    end.
    rewrite Ht, storageEvents_app. cbn. rewrite storageEvents_retryEvents.
    apply app_nil_r.
  - exact (processMessage_posts os env note folderPath token None filePath m).
Qed.

(** ** calculateBackoff *)

(** [iter_pos] is iteration. *)
Lemma iter_pos_nat {A} (f : A -> A) p : forall x, iter_pos f p x = Nat.iter (Pos.to_nat p) f x.
Proof.
  induction p as [p IH|p IH|]; intros x; cbn [iter_pos].
  - rewrite !IH, Pos2Nat.inj_xI. 
    replace (S (2 * Pos.to_nat p))%nat with (Pos.to_nat p + (Pos.to_nat p + 1))%nat by lia.
    rewrite !Nat.iter_add. cbn. reflexivity.
  - rewrite !IH, Pos2Nat.inj_xO.
    replace (2 * Pos.to_nat p)%nat with (Pos.to_nat p + Pos.to_nat p)%nat by lia.
    rewrite Nat.iter_add. reflexivity.
  - reflexivity.
Qed.

Lemma shr_1_eq q r s : 0 <= q ->
  shr_1 {| shr_m := q; shr_r := r; shr_s := s |} =
  {| shr_m := Z.div2 q; shr_r := Z.odd q; shr_s := r || s |}.
Proof.
  intros Hq. destruct q as [|p|p]; [reflexivity| |lia].
  destruct p; reflexivity.
Qed.

Lemma shr_1_first m : 0 <= m -> shifted m 1 (shr_1 {| shr_m := m; shr_r := false; shr_s := false |}).
Proof.
  intros Hm. rewrite shr_1_eq by assumption. unfold shifted. cbn [shr_m shr_r shr_s orb].
  pose proof (Z.div2_odd m) as Hd.
  split; [apply Z.div2_nonneg; assumption|].
  exists 0. change (2 ^ (1 - 1)) with 1. change (2 ^ 1) with 2. cbn [Z.eqb negb].
  repeat split; lia.
Qed.

Lemma shr_1_next m k r : 1 <= k -> shifted m k r -> shifted m (k + 1) (shr_1 r).
Proof.
  intros Hk (Hq & t & Ht & Hm & Hs). destruct r as [q rb sb]. cbn [shr_m shr_r shr_s] in *.
  rewrite shr_1_eq by assumption. unfold shifted. cbn [shr_m shr_r shr_s].
  replace (k + 1 - 1) with k by lia.
  assert (E : 2 ^ k = 2 * 2 ^ (k - 1)).
  { replace k with (Z.succ (k - 1)) at 1 by lia. rewrite Z.pow_succ_r by lia. reflexivity. }
  assert (E' : 2 ^ (k + 1) = 2 * 2 ^ k) by (rewrite Z.pow_add_r, Z.mul_comm by lia; reflexivity).
  assert (Hpos : 0 < 2 ^ (k - 1)) by (apply Z.pow_pos_nonneg; lia).
  pose proof (Z.div2_odd q) as Hd.
  assert (Hb : 0 <= Z.b2z rb <= 1) by (destruct rb; cbn; lia).
  assert (Hb' : 0 <= Z.b2z (Z.odd q) <= 1) by (destruct (Z.odd q); cbn; lia).
  split; [apply Z.div2_nonneg; assumption|].
  exists (2 ^ (k - 1) * Z.b2z rb + t). split; [|split].
  - nia.
  - rewrite E', Hm. rewrite Hd at 1. nia.
  - subst sb. destruct rb; cbn [Z.b2z orb].
    + symmetry. apply negb_true_iff, Z.eqb_neq. lia.
    + rewrite Z.mul_0_r, Z.add_0_l. reflexivity.
Qed.

Lemma iter_shr_1 m (n : nat) : 0 <= m ->
  shifted m (Z.of_nat (S n)) (Nat.iter (S n) shr_1 {| shr_m := m; shr_r := false; shr_s := false |}).
Proof.
  intros Hm. induction n as [|n IH].
  - apply shr_1_first. exact Hm.
  - rewrite Nat2Z.inj_succ, <- Z.add_1_r. cbn [Nat.iter nat_rect]. apply shr_1_next; [lia|].
    exact IH.
Qed.

Lemma shr_shifted m (k : positive) : 0 <= m ->
  shifted m (Zpos k) (iter_pos shr_1 k {| shr_m := m; shr_r := false; shr_s := false |}).
Proof.
  intros Hm. rewrite iter_pos_nat.
  destruct (Pos2Nat.is_succ k) as [n Hn]. rewrite Hn.
  replace (Zpos k) with (Z.of_nat (S n)) by lia.
  apply iter_shr_1. exact Hm.
Qed.

(** The number of binary digits. *)
Lemma digits2_pos_bounds p : 2 ^ (Zpos (digits2_pos p) - 1) <= Zpos p < 2 ^ Zpos (digits2_pos p).
Proof.
  induction p as [p IH|p IH|]; cbn [digits2_pos].
  - rewrite Pos2Z.inj_succ. replace (Z.succ (Zpos (digits2_pos p)) - 1) with (Z.succ (Zpos (digits2_pos p) - 1)) by lia.
    rewrite !Z.pow_succ_r by lia. lia.
  - rewrite Pos2Z.inj_succ. replace (Z.succ (Zpos (digits2_pos p)) - 1) with (Z.succ (Zpos (digits2_pos p) - 1)) by lia.
    rewrite !Z.pow_succ_r by lia. lia.
  - cbn. lia.
Qed.

Lemma digits2_pos_unique p n : 2 ^ (n - 1) <= Zpos p < 2 ^ n -> Zpos (digits2_pos p) = n.
Proof.
  intros [H1 H2]. pose proof (digits2_pos_bounds p) as [H3 H4].
  destruct (Z.lt_trichotomy (Zpos (digits2_pos p)) n) as [Hlt|[Heq|Hgt]]; [|exact Heq|].
  - assert (2 ^ Zpos (digits2_pos p) <= 2 ^ (n - 1)) by (apply Z.pow_le_mono_r; lia). lia.
  - assert (0 <= n \/ n < 0) as [Hn|Hn] by lia.
    + assert (2 ^ n <= 2 ^ (Zpos (digits2_pos p) - 1)) by (apply Z.pow_le_mono_r; lia). lia.
    + rewrite (Z.pow_neg_r 2 n) in H2 by lia. lia.
Qed.

Lemma pow2_double k : 0 <= k -> 2 ^ (k + 1) = 2 * 2 ^ k.
Proof. intros Hk. rewrite Z.pow_add_r, Z.mul_comm by lia. reflexivity. Qed.

Lemma roundShift_half_ulp P k : 0 <= P ->
  2 * P - 2 ^ Zpos k <= 2 ^ (Zpos k + 1) * roundShift P k <= 2 * P + 2 ^ Zpos k.
Proof.
  intros HP. unfold roundShift. cbv zeta.
  destruct (shr_shifted P k HP) as (Hq & t & Ht & Hm & Hs).
  destruct (iter_pos shr_1 k _) as [q rb sb]. cbn [shr_m shr_r shr_s] in *.
  assert (E : 2 ^ Zpos k = 2 * 2 ^ (Zpos k - 1)).
  { replace (Zpos k) with (Zpos k - 1 + 1) at 1 by lia. apply pow2_double. lia. }
  rewrite pow2_double by lia.
  assert (Hpos : 0 < 2 ^ (Zpos k - 1)) by (apply Z.pow_pos_nonneg; lia).
  destruct rb, sb; cbn [loc_of_shr_record round_nearest_even Z.b2z] in *.
  - symmetry in Hs. apply negb_true_iff, Z.eqb_neq in Hs. nia.
  - symmetry in Hs. apply negb_false_iff, Z.eqb_eq in Hs. subst t.
    destruct (Z.even q); nia.
  - nia.
  - nia.
Qed.

Lemma roundShift_range P k : 
  2 ^ (Zpos k + 52) <= P < 2 ^ (Zpos k + 53) ->
  2 ^ 52 <= roundShift P k <= 2 ^ 53.
Proof.
  intros [H1 H2].
  assert (HP : 0 <= P). { pose proof (Z.pow_pos_nonneg 2 (Zpos k + 52)). lia. }
  pose proof (roundShift_half_ulp P k HP) as [H3 H4].
  rewrite pow2_double in H3, H4 by lia.
  rewrite Z.pow_add_r in H1, H2 by lia.
  assert (Hpos : 0 < 2 ^ Zpos k) by (apply Z.pow_pos_nonneg; lia).
  change (2 ^ 52) with 4503599627370496 in *. change (2 ^ 53) with 9007199254740992 in *.
  split; nia.
Qed.

Lemma fexp_normal e : -1074 <= e - 53 -> fexp prec emax e = e - 53.
Proof. intros H. unfold fexp, emin, prec, emax. lia. Qed.

Lemma binary_round_aux_53 s (m : positive) e :
  Zpos (digits2_pos m) = 53 -> -1074 <= e ->
  binary_round_aux prec emax s (Zpos m) e loc_Exact =
  if e <=? 971 then S754_finite s m e else S754_infinity s.
Proof.
  intros Hd He. unfold binary_round_aux, shr_fexp.
  cbn [Zdigits2 shr_record_of_loc]. rewrite Hd.
  rewrite fexp_normal by lia. replace (53 + e - 53 - e) with 0 by lia.
  cbn [shr shr_m loc_of_shr_record round_nearest_even Zdigits2 shr_record_of_loc].
  rewrite Hd. rewrite fexp_normal by lia. replace (53 + e - 53 - e) with 0 by lia.
  cbn [shr shr_m]. reflexivity.
Qed.

Lemma binary_round_aux_shift s (P : positive) (k : positive) e :
  Zpos (digits2_pos P) = Zpos k + 53 -> -1074 <= e + Zpos k ->
  binary_round_aux prec emax s (Zpos P) e loc_Exact =
  let q := roundShift (Zpos P) k in
  if q =? 2 ^ 53 then
    if e + Zpos k + 1 <=? 971
    then S754_finite s 4503599627370496 (e + Zpos k + 1) else S754_infinity s
  else
    if e + Zpos k <=? 971
    then S754_finite s (Z.to_pos q) (e + Zpos k) else S754_infinity s.
Proof.
  intros Hd He.
  assert (Hr : 2 ^ 52 <= roundShift (Zpos P) k <= 2 ^ 53).
  { apply roundShift_range. pose proof (digits2_pos_bounds P) as HB. rewrite Hd in HB.
    replace (Zpos k + 53 - 1) with (Zpos k + 52) in HB by lia. exact HB. }
  unfold binary_round_aux, shr_fexp at 1.
  cbn [Zdigits2 shr_record_of_loc]. rewrite Hd.
  rewrite fexp_normal by lia. replace (Zpos k + 53 + e - 53 - e) with (Zpos k) by lia.
  cbn [shr]. fold (roundShift (Zpos P) k). cbv zeta.
  destruct (roundShift (Zpos P) k) as [|q|q] eqn:Eq; [change (2^52) with 4503599627370496 in Hr; lia| |lia].
  destruct (Z.eqb_spec (Zpos q) (2 ^ 53)) as [E53|N53].
  - injection E53 as ->. unfold shr_fexp. cbn [Zdigits2 shr_record_of_loc].
    change (Zpos (digits2_pos 9007199254740992)) with 54.
    rewrite fexp_normal by lia. replace (54 + (e + Zpos k) - 53 - (e + Zpos k)) with 1 by lia.
    cbn [shr iter_pos shr_1 shr_m orb]. reflexivity.
  - assert (Hd' : Zpos (digits2_pos q) = 53).
    { apply digits2_pos_unique. change (2 ^ (53 - 1)) with (2 ^ 52). lia. }
    unfold shr_fexp. cbn [Zdigits2 shr_record_of_loc]. rewrite Hd'.
    rewrite fexp_normal by lia. replace (53 + (e + Zpos k) - 53 - (e + Zpos k)) with 0 by lia.
    cbn [shr shr_m Z.to_pos]. reflexivity.
Qed.

Lemma float64_minDelay : float64_of_int minDelay = S754_finite false mB (-22).
Proof. vm_compute. reflexivity. Qed.

Lemma float64_maxDelay : float64_of_int maxDelay = S754_finite false mC (-17).
Proof. vm_compute. reflexivity. Qed.

Lemma Pow2_nonneg n : 0 <= n ->
  Pow2 n = if n <=? 1023 then S754_finite false 4503599627370496 (n - 52) else S754_infinity false.
Proof.
  intros Hn. unfold Pow2.
  change (SFone prec emax) with (S754_finite false 4503599627370496 (-52)).
  unfold SFldexp, binary_round.
  change (Zpos (digits2_pos 4503599627370496)) with 53.
  rewrite fexp_normal by lia.
  unfold shl_align. replace (53 + (-52 + n) - 53 - (-52 + n)) with 0 by lia.
  rewrite binary_round_aux_53 by (try reflexivity; lia).
  replace (-52 + n) with (n - 52) by lia.
  destruct (Z.leb_spec (n - 52) 971), (Z.leb_spec n 1023); try lia; reflexivity.
Qed.

Lemma base_times_Pow2 n : 0 <= n ->
  SFmul prec emax (float64_of_int minDelay) (Pow2 n) =
  if n <=? 993 then S754_finite false mB (n - 22) else S754_infinity false.
Proof.
  intros Hn. rewrite float64_minDelay, Pow2_nonneg by assumption.
  destruct (Z.leb_spec n 1023) as [H|H].
  - cbn [SFmul xorb].
    rewrite (binary_round_aux_shift false (mB * 4503599627370496) 52) by (try reflexivity; lia).
    replace (roundShift (Zpos (mB * 4503599627370496)) 52) with (Zpos mB) by (vm_compute; reflexivity).
    cbv zeta. change (Zpos mB =? 2 ^ 53) with false. cbv iota.
    change (Z.to_pos (Zpos mB)) with mB.
    replace (-22 + (n - 52) + 52) with (n - 22) by lia.
    destruct (Z.leb_spec (n - 22) 971), (Z.leb_spec n 993); try lia; reflexivity.
  - cbn [SFmul xorb]. destruct (Z.leb_spec n 993); [lia|reflexivity].
Qed.

Lemma SFcompare_finite_pos m1 e1 m2 e2 :
  SFcompare (S754_finite false m1 e1) (S754_finite false m2 e2) =
  Some (match e1 ?= e2 with
        | Lt => Lt
        | Gt => Gt
        | Eq => Zpos m1 ?= Zpos m2
        end).
Proof. reflexivity. Qed.

Lemma SFltb_finite_pos m1 e1 m2 e2 :
  SFltb (S754_finite false m1 e1) (S754_finite false m2 e2) = true <->
  e1 < e2 \/ (e1 = e2 /\ Zpos m1 < Zpos m2).
Proof.
  unfold SFltb. rewrite SFcompare_finite_pos.
  destruct (Z.compare_spec e1 e2) as [E|E|E].
  - destruct (Z.compare_spec (Zpos m1) (Zpos m2)) as [C|C|C]; split; intros H;
      try discriminate; try lia; reflexivity.
  - split; intros H; [lia|reflexivity].
  - split; intros H; [discriminate|lia].
Qed.

Lemma SFleb_finite_pos m1 e1 m2 e2 :
  SFleb (S754_finite false m1 e1) (S754_finite false m2 e2) = true <->
  e1 < e2 \/ (e1 = e2 /\ Zpos m1 <= Zpos m2).
Proof.
  unfold SFleb. rewrite SFcompare_finite_pos.
  destruct (Z.compare_spec e1 e2) as [E|E|E].
  - destruct (Z.compare_spec (Zpos m1) (Zpos m2)) as [C|C|C]; split; intros H;
      try discriminate; try lia; reflexivity.
  - split; intros H; [lia|reflexivity].
  - split; intros H; [discriminate|lia].
Qed.

Lemma inJitterRange_inv j : inJitterRange j = true ->
  exists mj ej, j = S754_finite false mj ej /\
    ((ej = -53 /\ 2 ^ 52 <= Zpos mj < 2 ^ 53) \/
     (ej = -52 /\ 2 ^ 52 <= Zpos mj < 6755399441055744)).
Proof.
  unfold inJitterRange. intros H.
  apply andb_prop in H. destruct H as [H Hlt]. apply andb_prop in H. destruct H as [Hv Hle].
  destruct j as [s|s| |s m e]; try (destruct s; discriminate); try discriminate.
  destruct s; [discriminate|].
  exists m, e. split; [reflexivity|].
  unfold half in Hle. unfold oneAndHalf in Hlt.
  apply SFleb_finite_pos in Hle. apply SFltb_finite_pos in Hlt.
  cbn [valid_binary] in Hv. unfold bounded, canonical_mantissa in Hv.
  apply andb_prop in Hv. destruct Hv as [Hc _]. apply Z.eqb_eq in Hc.
  pose proof (digits2_pos_bounds m) as HB.
  assert (Hd : -53 <= e -> Zpos (digits2_pos m) = 53).
  { intros He. unfold fexp, emin, prec, emax in Hc. clear - Hc He. lia. }
  assert (He : e = -53 \/ e = -52) by (clear - Hle Hlt; lia).
  destruct He as [-> | ->].
  - left. split; [reflexivity|]. rewrite Hd in HB by (clear; lia). exact HB.
  - right. split; [reflexivity|]. rewrite Hd in HB by (clear; lia).
    split; [apply HB|]. clear - Hlt. lia.
Qed.

Lemma mB_minDelay : Zpos mB = minDelay * 2 ^ 22.
Proof. reflexivity. Qed.

Lemma product_rounding mj ej :
  (ej = -53 /\ 2 ^ 52 <= Zpos mj < 2 ^ 53) \/
  (ej = -52 /\ 2 ^ 52 <= Zpos mj < 6755399441055744) ->
  exists M c,
    jitterRounding (S754_finite false mj ej) M c /\
    forall n, 0 <= n -> n <= 993 ->
      SFmul prec emax (S754_finite false mB (n - 22)) (S754_finite false mj ej) =
      if n + c <=? 971 then S754_finite false (Z.to_pos M) (n + c)
      else S754_infinity false.
Proof.
  intros Hj.
  assert (Hm : 2 ^ 52 <= Zpos mj < 2 ^ 53).
  { destruct Hj as [[_ H]|[_ H]]; [exact H|]. change (2 ^ 53) with 9007199254740992. lia. }
  assert (HP : Zpos (mB * mj) = minDelay * 2 ^ 22 * Zpos mj).
  { rewrite Pos2Z.inj_mul, mB_minDelay. reflexivity. }
  assert (Hk : exists k : positive, (k = 52%positive \/ k = 53%positive) /\
               Zpos (digits2_pos (mB * mj)) = Zpos k + 53).
  { destruct (Z.ltb_spec (Zpos (mB * mj)) (2 ^ 105)) as [Hlt|Hge].
    - exists 52%positive. split; [left; reflexivity|].
      apply digits2_pos_unique. rewrite HP in *. unfold minDelay, Second in *.
      change (2 ^ (52 + 53 - 1)) with (2 ^ 104). change (52 + 53) with 105.
      split; [|exact Hlt]. change (2 ^ 104) with (2 ^ 52 * 2 ^ 52). lia.
    - exists 53%positive. split; [right; reflexivity|].
      apply digits2_pos_unique. rewrite HP in *. unfold minDelay, Second in *.
      change (2 ^ (53 + 53 - 1)) with (2 ^ 105). change (53 + 53) with 106.
      split; [exact Hge|]. change (2 ^ 106) with (2 ^ 53 * 2 ^ 53). lia. }
  destruct Hk as (k & Hk & Hd).
  pose proof (roundShift_half_ulp (Zpos (mB * mj)) k ltac:(lia)) as HU.
  assert (HR : 2 ^ 52 <= roundShift (Zpos (mB * mj)) k <= 2 ^ 53).
  { apply roundShift_range. pose proof (digits2_pos_bounds (mB * mj)) as HB. rewrite Hd in HB.
    replace (Zpos k + 53 - 1) with (Zpos k + 52) in HB by lia. exact HB. }
  assert (Hbra : forall n, 0 <= n -> n <= 993 ->
     SFmul prec emax (S754_finite false mB (n - 22)) (S754_finite false mj ej) =
     let q := roundShift (Zpos (mB * mj)) k in
     if q =? 2 ^ 53 then
       if n - 22 + ej + Zpos k + 1 <=? 971
       then S754_finite false 4503599627370496 (n - 22 + ej + Zpos k + 1)
       else S754_infinity false
     else
       if n - 22 + ej + Zpos k <=? 971
       then S754_finite false (Z.to_pos q) (n - 22 + ej + Zpos k)
       else S754_infinity false).
  { intros n Hn0 Hn. cbn [SFmul xorb]. apply binary_round_aux_shift; [exact Hd|].
    destruct Hj as [[-> _]|[-> _]]; destruct Hk as [-> | ->]; lia. }
  set (q := roundShift (Zpos (mB * mj)) k) in *.
  rewrite HP in HU. unfold minDelay, Second in HU.
  assert (J53 : jitter53 (S754_finite false mj ej) = 2 ^ (ej + 53) * Zpos mj).
  { unfold jitter53. rewrite Z.shiftl_mul_pow2, Z.mul_comm by (destruct Hj as [[-> _]|[-> _]]; lia).
    reflexivity. }
  clear HP Hd.
  destruct (Z.eqb_spec q (2 ^ 53)) as [Hc|Hc].
  - (* the mantissa rounds up to the next power of two *)
    exists (2 ^ 52), (-22 + ej + Zpos k + 1). split.
    + unfold jitterRounding. rewrite J53. unfold minDelay, Second. rewrite Hc in HU.
      clear Hbra J53 HR Hc. clearbody q. clear q.
      destruct Hj as [[-> Hj]|[-> Hj]]; destruct Hk as [-> | ->].
      * change (-22 + -53 + 52 + 1) with (-22). change (2 ^ (-22 + 53)) with 2147483648.
        change (2 ^ (-53 + 53)) with 1.
        change (2 ^ 53) with 9007199254740992 in *. change (2 ^ 52) with 4503599627370496 in *.
        change (2 ^ (52 + 1)) with 9007199254740992 in *. change (2 ^ 22) with 4194304 in *.
        lia.
      * change (-22 + -53 + 53 + 1) with (-21). change (2 ^ (-21 + 53)) with 4294967296.
        change (2 ^ (-53 + 53)) with 1.
        change (2 ^ 53) with 9007199254740992 in *. change (2 ^ 52) with 4503599627370496 in *.
        change (2 ^ (53 + 1)) with 18014398509481984 in *. change (2 ^ 22) with 4194304 in *.
        lia.
      * change (-22 + -52 + 52 + 1) with (-21). change (2 ^ (-21 + 53)) with 4294967296.
        change (2 ^ (-52 + 53)) with 2.
        change (2 ^ 53) with 9007199254740992 in *. change (2 ^ 52) with 4503599627370496 in *.
        change (2 ^ (52 + 1)) with 9007199254740992 in *. change (2 ^ 22) with 4194304 in *.
        lia.
      * exfalso.
        change (2 ^ 53) with 9007199254740992 in *. change (2 ^ 52) with 4503599627370496 in *.
        change (2 ^ (53 + 1)) with 18014398509481984 in *. change (2 ^ 22) with 4194304 in *.
        lia.
    + intros n Hn0 Hn. rewrite Hbra by assumption. cbv zeta.
      destruct (Z.eqb_spec q (2 ^ 53)) as [_|N]; [|contradiction].
      replace (n - 22 + ej + Zpos k + 1) with (n + (-22 + ej + Zpos k + 1)) by lia.
      reflexivity.
  - exists q, (-22 + ej + Zpos k). split.
    + unfold jitterRounding. rewrite J53. unfold minDelay, Second.
      assert (HR' : 2 ^ 52 <= q < 2 ^ 53) by lia.
      clear Hbra J53 HR Hc. clearbody q.
      destruct Hj as [[-> Hj]|[-> Hj]]; destruct Hk as [-> | ->].
      * change (-22 + -53 + 52) with (-23). change (2 ^ (-23 + 53)) with 1073741824.
        change (2 ^ (-53 + 53)) with 1.
        change (2 ^ 53) with 9007199254740992 in *. change (2 ^ 52) with 4503599627370496 in *.
        change (2 ^ (52 + 1)) with 9007199254740992 in *. change (2 ^ 22) with 4194304 in *.
        lia.
      * change (-22 + -53 + 53) with (-22). change (2 ^ (-22 + 53)) with 2147483648.
        change (2 ^ (-53 + 53)) with 1.
        change (2 ^ 53) with 9007199254740992 in *. change (2 ^ 52) with 4503599627370496 in *.
        change (2 ^ (53 + 1)) with 18014398509481984 in *. change (2 ^ 22) with 4194304 in *.
        lia.
      * change (-22 + -52 + 52) with (-22). change (2 ^ (-22 + 53)) with 2147483648.
        change (2 ^ (-52 + 53)) with 2.
        change (2 ^ 53) with 9007199254740992 in *. change (2 ^ 52) with 4503599627370496 in *.
        change (2 ^ (52 + 1)) with 9007199254740992 in *. change (2 ^ 22) with 4194304 in *.
        lia.
      * change (-22 + -52 + 53) with (-21). change (2 ^ (-21 + 53)) with 4294967296.
        change (2 ^ (-52 + 53)) with 2.
        change (2 ^ 53) with 9007199254740992 in *. change (2 ^ 52) with 4503599627370496 in *.
        change (2 ^ (53 + 1)) with 18014398509481984 in *. change (2 ^ 22) with 4194304 in *.
        lia.
    + intros n Hn0 Hn. rewrite Hbra by assumption. cbv zeta.
      destruct (Z.eqb_spec q (2 ^ 53)) as [E|_]; [contradiction|].
      replace (n - 22 + ej + Zpos k) with (n + (-22 + ej + Zpos k)) by lia.
      reflexivity.
Qed.

Lemma int64_of_maxDelay : int64_of_float64 (S754_finite false mC (-17)) = maxDelay.
Proof. vm_compute. reflexivity. Qed.

Lemma int64_of_small (M : positive) e :
  e <= 0 -> Zpos M < 2 ^ 53 ->
  int64_of_float64 (S754_finite false M e) = Zpos M / 2 ^ (- e).
Proof.
  intros He HM. unfold int64_of_float64. cbv zeta.
  rewrite Z.shiftl_div_pow2 by lia.
  assert (Hp : 0 < 2 ^ (- e)) by (apply Z.pow_pos_nonneg; lia).
  assert (H0 : 0 <= Zpos M / 2 ^ (- e)) by (apply Z.div_pos; lia).
  assert (H1 : Zpos M / 2 ^ (- e) <= Zpos M).
  { apply Z.div_le_upper_bound; [lia|]. nia. }
  assert (Hin : (- 2 ^ 63 <=? Zpos M / 2 ^ (- e)) && (Zpos M / 2 ^ (- e) <? 2 ^ 63) = true).
  { apply andb_true_intro. split; [apply Z.leb_le|apply Z.ltb_lt].
    - change (2 ^ 63) with 9223372036854775808. lia.
    - change (2 ^ 53) with 9007199254740992 in HM.
      change (2 ^ 63) with 9223372036854775808. lia. }
  rewrite Hin. reflexivity.
Qed.

Lemma backoff_closed_form j : inJitterRange j = true ->
  exists M c, jitterRounding j M c /\
    forall n, 0 <= n -> backoffWithJitter n j = backoffClosed M c n.
Proof.
  intros Hj. destruct (inJitterRange_inv j Hj) as (mj & ej & -> & Hr).
  destruct (product_rounding mj ej Hr) as (M & c & HJ & Hmul).
  exists M, c. split; [exact HJ|].
  destruct HJ as (HM & Hc & _).
  intros n Hn. unfold backoffWithJitter, backoffClosed. cbv zeta.
  rewrite base_times_Pow2 by assumption. rewrite float64_maxDelay.
  assert (HMpos : Zpos (Z.to_pos M) = M).
  { apply Z2Pos.id. change (2 ^ 52) with 4503599627370496 in HM. lia. }
  destruct (Z.leb_spec n 993) as [Hn9|Hn9].
  - rewrite Hmul by assumption.
    destruct (Z.leb_spec (n + c) 971) as [Hnc|Hnc].
    + destruct (float64_gt (S754_finite false (Z.to_pos M) (n + c)) (S754_finite false mC (-17))) eqn:Hgt.
      * unfold float64_gt in Hgt. apply SFltb_finite_pos in Hgt. rewrite HMpos in Hgt.
        rewrite int64_of_maxDelay.
        destruct Hgt as [Hgt|[Hgt1 Hgt2]].
        -- destruct (Z.ltb_spec (-17) (n + c)); [reflexivity|lia].
        -- destruct (Z.ltb_spec (-17) (n + c)); [reflexivity|].
           destruct (Z.eqb_spec (n + c) (-17)); [|lia].
           destruct (Z.ltb_spec (Zpos mC) M); [reflexivity|lia].
      * assert (Hng : ~ (-17 < n + c \/ (-17 = n + c /\ Zpos mC < M))).
        { intros H. rewrite <- HMpos in H. apply SFltb_finite_pos in H.
          unfold float64_gt in Hgt. congruence. }
        destruct (Z.ltb_spec (-17) (n + c)) as [H1|H1]; [exfalso; apply Hng; lia|].
        assert (Hor : (n + c =? -17) && (Zpos mC <? M) = false).
        { destruct (Z.eqb_spec (n + c) (-17)) as [H2|H2]; [|reflexivity].
          destruct (Z.ltb_spec (Zpos mC) M) as [H3|H3]; [exfalso; apply Hng; lia|reflexivity]. }
        rewrite Hor. cbn [orb].
        rewrite int64_of_small by lia. rewrite HMpos. reflexivity.
    + change (float64_gt (S754_infinity false) (S754_finite false mC (-17))) with true.
      cbv iota. rewrite int64_of_maxDelay.
      destruct (Z.ltb_spec (-17) (n + c)); [reflexivity|lia].
  - cbn [SFmul xorb].
    change (float64_gt (S754_infinity false) (S754_finite false mC (-17))) with true.
    cbv iota. rewrite int64_of_maxDelay.
    destruct (Z.ltb_spec (-17) (n + c)); [reflexivity|lia].
Qed.

Lemma closed_cases M c n :
  -23 <= c <= -21 -> 0 <= n ->
  (backoffClosed M c n = maxDelay /\
   (-17 < n + c \/ (n + c = -17 /\ Zpos mC < M))) \/
  (backoffClosed M c n = M / 2 ^ (- (n + c)) /\
   17 <= - (n + c) <= 23 /\ (n + c = -17 -> M <= Zpos mC)).
Proof.
  intros Hc Hn. unfold backoffClosed.
  destruct (Z.ltb_spec (-17) (n + c)) as [H1|H1]; [left; split; [reflexivity|lia]|].
  destruct (Z.eqb_spec (n + c) (-17)) as [H2|H2].
  - destruct (Z.ltb_spec (Zpos mC) M) as [H3|H3]; [left; split; [reflexivity|lia]|].
    right. cbn [orb andb]. repeat split; lia.
  - right. cbn [orb andb]. repeat split; lia.
Qed.

Lemma closed_le_maxDelay j M c n :
  jitterRounding j M c -> 0 <= n -> backoffClosed M c n <= maxDelay.
Proof.
  intros (HM & Hc & _) Hn.
  destruct (closed_cases M c n Hc Hn) as [[-> _] | (-> & Hw & Hcap)]; [lia|].
  assert (Hw' : - (n + c) = 17 \/ 18 <= - (n + c)) by lia.
  unfold maxDelay, Second.
  destruct Hw' as [Hw'|Hw'].
  - rewrite Hw'. specialize (Hcap ltac:(lia)).
    apply Z.div_le_upper_bound; [reflexivity|]. change (2 ^ 17) with 131072.
    change (Zpos mC) with 7864320000000000 in Hcap. lia.
  - apply Z.le_trans with (M / 2 ^ 18).
    + apply Z.div_le_compat_l; [change (2 ^ 52) with 4503599627370496 in HM; lia|].
      split; [reflexivity|]. apply Z.pow_le_mono_r; lia.
    + apply Z.div_le_upper_bound; [reflexivity|]. change (2 ^ 18) with 262144.
      change (2 ^ 53) with 9007199254740992 in HM. lia.
Qed.

Lemma closed_monotone j M c n n' :
  jitterRounding j M c -> 0 <= n -> n <= n' ->
  backoffClosed M c n <= backoffClosed M c n'.
Proof.
  intros HJ Hn Hnn.
  pose proof (closed_le_maxDelay j M c n HJ Hn) as Ha.
  destruct HJ as (HM & Hc & _).
  destruct (closed_cases M c n' Hc ltac:(lia)) as [[-> _] | (-> & Hw' & Hcap')]; [exact Ha|].
  destruct (closed_cases M c n Hc Hn) as [[_ Hcap] | (-> & Hw & Hcap)].
  - exfalso. destruct Hcap as [Hcap|[Hcap1 Hcap2]]; [lia|].
    specialize (Hcap' ltac:(lia)). lia.
  - apply Z.div_le_compat_l; [change (2 ^ 52) with 4503599627370496 in HM; lia|].
    split; [apply Z.pow_pos_nonneg; lia|]. apply Z.pow_le_mono_r; lia.
Qed.

Ltac pow_consts :=
  change (2 ^ 53) with 9007199254740992 in *;
  change (2 ^ 52) with 4503599627370496 in *;
  change (Zpos mC) with 7864320000000000 in *.

Lemma closed_bracket j M c n :
  jitterRounding j M c -> 0 <= n ->
  (backoffClosed M c n - 1) * 2 ^ 53
    < Z.min (minDelay * 2 ^ n * jitter53 j) (maxDelay * 2 ^ 53)
    < (backoffClosed M c n + 1) * 2 ^ 53.
Proof.
  intros (HM & Hc & HU) Hn.
  replace (minDelay * 2 ^ n * jitter53 j) with (2 ^ n * (minDelay * jitter53 j)) by ring.
  set (X0 := minDelay * jitter53 j) in *. clearbody X0.
  assert (Hc3 : c = -23 \/ c = -22 \/ c = -21) by lia.
  destruct (closed_cases M c n Hc Hn) as [[-> Hcap] | (-> & Hw & Hcap)].
  - (* capped *)
    unfold maxDelay, Second. pow_consts.
    destruct Hcap as [Hcap|[Hcap1 Hcap2]].
    + assert (Hp : 2 ^ (-16 - c) <= 2 ^ n) by (apply Z.pow_le_mono_r; lia).
      assert (HX0 : 0 <= X0).
      { destruct Hc3 as [-> | [-> | ->]];
          [change (2 ^ (-23 + 53)) with 1073741824 in HU
          |change (2 ^ (-22 + 53)) with 2147483648 in HU
          |change (2 ^ (-21 + 53)) with 4294967296 in HU]; lia. }
      assert (Hq : 2 ^ (-16 - c) * X0 <= 2 ^ n * X0) by (apply Z.mul_le_mono_nonneg_r; lia).
      clear Hp. set (p := 2 ^ n * X0) in *. clearbody p.
      destruct Hc3 as [-> | [-> | ->]];
        [change (2 ^ (-23 + 53)) with 1073741824 in HU; change (2 ^ (-16 - -23)) with 128 in Hq
        |change (2 ^ (-22 + 53)) with 2147483648 in HU; change (2 ^ (-16 - -22)) with 64 in Hq
        |change (2 ^ (-21 + 53)) with 4294967296 in HU; change (2 ^ (-16 - -21)) with 32 in Hq];
        lia.
    + destruct Hc3 as [-> | [-> | ->]].
      * assert (n = 6) as -> by lia. change (2 ^ 6) with 64.
        change (2 ^ (-23 + 53)) with 1073741824 in HU. lia.
      * assert (n = 5) as -> by lia. change (2 ^ 5) with 32.
        change (2 ^ (-22 + 53)) with 2147483648 in HU. lia.
      * assert (n = 4) as -> by lia. change (2 ^ 4) with 16.
        change (2 ^ (-21 + 53)) with 4294967296 in HU. lia.
  - (* not capped: the exponent is one of seven *)
    assert (Hpos : 0 < 2 ^ (- (n + c))) by (apply Z.pow_pos_nonneg; lia).
    pose proof (Z.div_mod M (2 ^ (- (n + c))) ltac:(lia)) as Hdiv.
    pose proof (Z.mod_pos_bound M (2 ^ (- (n + c))) Hpos) as Hmod.
    set (r := M / 2 ^ (- (n + c))) in *. clearbody r.
    set (t := M mod 2 ^ (- (n + c))) in *. clearbody t.
    unfold maxDelay, Second. pow_consts.
    assert (Hw7 : - (n + c) = 17 \/ - (n + c) = 18 \/ - (n + c) = 19 \/ - (n + c) = 20 \/
                  - (n + c) = 21 \/ - (n + c) = 22 \/ - (n + c) = 23) by lia.
    destruct Hc3 as [-> | [-> | ->]];
      [change (2 ^ (-23 + 53)) with 1073741824 in HU
      |change (2 ^ (-22 + 53)) with 2147483648 in HU
      |change (2 ^ (-21 + 53)) with 4294967296 in HU];
      destruct Hw7 as [W|[W|[W|[W|[W|[W|W]]]]]]; rewrite W in *;
      try (exfalso; lia);
      match goal with
      | |- context [2 ^ n] =>
          first [ assert (n = 0) as -> by lia | assert (n = 1) as -> by lia
                | assert (n = 2) as -> by lia | assert (n = 3) as -> by lia
                | assert (n = 4) as -> by lia | assert (n = 5) as -> by lia
                | assert (n = 6) as -> by lia ]
      end;
      lia.
Qed.

(** C5.  For a retry count [n >= 0] and a binary64 jitter factor [j] with
    [0.5 <= j < 1.5], the delay [r] that [calculateBackoff] computes never
    exceeds [maxDelay]; it is the base delay times [2^n] times [j], capped
    at [maxDelay], to the nanosecond: [r] differs by less than one from
    that product (here multiplied by [2^53] to stay in the integers), the
    difference being the rounding of the product to binary64 and the
    truncation to a whole [time.Duration]; and with [j] fixed it does not
    decrease when [n] grows. *)
Theorem calculateBackoff_capped_and_monotone (n : Z) (j : float64) :
  0 <= n -> inJitterRange j = true ->
  let r := backoffWithJitter n j in
  r <= maxDelay /\
  (r - 1) * 2 ^ 53 < Z.min (minDelay * 2 ^ n * jitter53 j) (maxDelay * 2 ^ 53)
                   < (r + 1) * 2 ^ 53 /\
  (forall n', n <= n' -> r <= backoffWithJitter n' j) /\
  (forall env m, SFadd prec emax half (randFloat64 env (drawnFloat m)) = j ->
                 fst (calculateBackoff env n m) = r).
Proof.
  intros Hn Hj r.
  destruct (backoff_closed_form j Hj) as (M & c & HJ & Hcl).
  subst r. rewrite (Hcl n Hn).
  split; [exact (closed_le_maxDelay j M c n HJ Hn)|].
  split; [exact (closed_bracket j M c n HJ Hn)|].
  split.
  - intros n' Hnn. rewrite (Hcl n') by lia.
    exact (closed_monotone j M c n n' HJ Hn Hnn).
  - intros env m Hu. unfold calculateBackoff, Float64. cbn [fst]. rewrite Hu.
    apply Hcl. exact Hn.
Qed.

Lemma calculateBackoff_capped_and_monotone_witness :
  let r := backoffWithJitter 3 one in
  r <= maxDelay /\
  (r - 1) * 2 ^ 53 < Z.min (minDelay * 2 ^ 3 * jitter53 one) (maxDelay * 2 ^ 53)
                   < (r + 1) * 2 ^ 53 /\
  (forall n', 3 <= n' -> r <= backoffWithJitter n' one) /\
  (forall env m, SFadd prec emax half (randFloat64 env (drawnFloat m)) = one ->
                 fst (calculateBackoff env 3 m) = r).
Proof.
  apply (calculateBackoff_capped_and_monotone 3 one); [lia | reflexivity].
Defined.

Example backoffWithJitter_values :
  map (fun n => backoffWithJitter n one) [0; 1; 2; 3; 4; 5; 6; 7; 1000; 2000]
  = [2 * Second; 4 * Second; 8 * Second; 16 * Second; 32 * Second;
     60 * Second; 60 * Second; 60 * Second; 60 * Second; 60 * Second].
Proof. vm_compute. reflexivity. Qed.

(** ** The walk over the folder *)

Lemma walkFn_cases os env folderPath token r2Client e m :
  entryErr e = None ->
  (passedOver os e = true ->
     walkFn os env folderPath token r2Client e m = (None, m)) /\
  (passedOver os e = false ->
     exists note,
       parseKeepNote os (entryPath e) = Ok note /\ IsArchived note = false /\
       walkFn os env folderPath token r2Client e m =
       (None, snd (processMessage os env note folderPath token r2Client (entryPath e) m))).
Proof.
  intros He. unfold walkFn, passedOver. rewrite He.
  destruct (entryIsDir e); cbn [orb].
  - split; [reflexivity|discriminate].
  - destruct (String.eqb (Ext (entryPath e)) ".json"); cbn [negb orb].
    + destruct (parseKeepNote os (entryPath e)) as [note|msg].
      * destruct (IsArchived note) eqn:Ha.
        -- split; [reflexivity|discriminate].
        -- split; [discriminate|]. intros _. exists note.
           repeat split; try assumption.
           destruct (processMessage os env note folderPath token r2Client (entryPath e) m).
           reflexivity.
      * split; [reflexivity|discriminate].
    + split; [reflexivity|discriminate].
Qed.

Lemma walkFn_error os env folderPath token r2Client e m err :
  entryErr e = Some err -> walkFn os env folderPath token r2Client e m = (Some err, m).
Proof. intros He. unfold walkFn. rewrite He. reflexivity. Qed.

Lemma walkFn_nil os env folderPath token r2Client e m :
  entryErr e = None -> fst (walkFn os env folderPath token r2Client e m) = None.
Proof.
  intros He.
  destruct (walkFn_cases os env folderPath token r2Client e m He) as [H1 H2].
  destruct (passedOver os e).
  - rewrite H1 by reflexivity. reflexivity.
  - destruct (H2 eq_refl) as (note & _ & _ & ->). reflexivity.
Qed.

(** X2.  [processKeepFolder] returns the first error that the walk itself
    reports and nil when there is none: a note that does not parse or
    whose delivery fails never ends the run.  After a walk error no
    further entry is looked at. *)
Theorem processKeepFolder_stops_only_on_walk_error os env folderPath token r2Client entries m :
  fst (processKeepFolder os env folderPath token r2Client entries m) = firstWalkError entries /\
  snd (processKeepFolder os env folderPath token r2Client entries m) =
  snd (processKeepFolder os env folderPath token r2Client (visited entries) m).
Proof.
  revert m. induction entries as [|e rest IH]; intros m; [split; reflexivity|].
  cbn [processKeepFolder firstWalkError visited].
  destruct (entryErr e) as [err|] eqn:He.
  - rewrite (walkFn_error _ _ _ _ _ _ _ _ He). split; reflexivity.
  - pose proof (walkFn_nil os env folderPath token r2Client e m He) as Hn.
    cbn [processKeepFolder].
    destruct (walkFn os env folderPath token r2Client e m) as [r m1].
    cbn [fst] in Hn. subst r. apply IH.
Qed.

Lemma wrap64_eq z : exists q, wrap64 z = z + q * 2 ^ 64.
Proof.
  unfold wrap64. exists (- ((z + 2 ^ 63) / 2 ^ 64)).
  pose proof (Z.div_mod (z + 2 ^ 63) (2 ^ 64) ltac:(discriminate)) as H. lia.
Qed.

Lemma openCalls_step t s f t' s' f' :
  t' = incr t ->
  (s' = incr s /\ f' = f) \/ (s' = s /\ f' = incr f) ->
  (t' - s' - f') mod 2 ^ 64 = (t - s - f) mod 2 ^ 64.
Proof.
  intros -> H. unfold incr.
  destruct (wrap64_eq (t + 1)) as [q1 ->].
  destruct H as [[-> ->]|[-> ->]]; unfold incr.
  - destruct (wrap64_eq (s + 1)) as [q2 ->].
    replace (t + 1 + q1 * 2 ^ 64 - (s + 1 + q2 * 2 ^ 64) - f)
      with (t - s - f + (q1 - q2) * 2 ^ 64) by ring.
    apply Z_mod_plus_full.
  - destruct (wrap64_eq (f + 1)) as [q2 ->].
    replace (t + 1 + q1 * 2 ^ 64 - s - (f + 1 + q2 * 2 ^ 64))
      with (t - s - f + (q1 - q2) * 2 ^ 64) by ring.
    apply Z_mod_plus_full.
Qed.

Lemma processAttachment_inert os r2 folderPath acc a :
  sent (snd (processAttachment os r2 folderPath acc a)) = sent (snd acc) /\
  Stats (snd (processAttachment os r2 folderPath acc a)) = Stats (snd acc) /\
  drawnInt (snd (processAttachment os r2 folderPath acc a)) = drawnInt (snd acc) /\
  drawnFloat (snd (processAttachment os r2 folderPath acc a)) = drawnFloat (snd acc).
Proof.
  destruct acc as [links m]. unfold processAttachment, findAttachmentFile.
  destruct (statOk os (pathJoin os folderPath (FilePath a))).
  - destruct (UploadLocalFile r2 (pathJoin os folderPath (FilePath a)));
      repeat split; reflexivity.
  - repeat split; reflexivity.
Qed.

Lemma collect_inert os r2 folderPath l : forall acc,
  sent (snd (fold_left (processAttachment os r2 folderPath) l acc)) = sent (snd acc) /\
  Stats (snd (fold_left (processAttachment os r2 folderPath) l acc)) = Stats (snd acc) /\
  drawnInt (snd (fold_left (processAttachment os r2 folderPath) l acc)) = drawnInt (snd acc) /\
  drawnFloat (snd (fold_left (processAttachment os r2 folderPath) l acc)) = drawnFloat (snd acc).
Proof.
  induction l as [|a l IH]; intros acc; cbn [fold_left]; [repeat split; reflexivity|].
  destruct (IH (processAttachment os r2 folderPath acc a)) as (H1 & H2 & H3 & H4).
  destruct (processAttachment_inert os r2 folderPath acc a) as (K1 & K2 & K3 & K4).
  rewrite H1, H2, H3, H4. repeat split; assumption.
Qed.

Lemma gathered_inert os r2Client folderPath note m :
  sent (snd (gathered os r2Client folderPath note m)) = sent m /\
  Stats (snd (gathered os r2Client folderPath note m)) = Stats m /\
  drawnInt (snd (gathered os r2Client folderPath note m)) = drawnInt m /\
  drawnFloat (snd (gathered os r2Client folderPath note m)) = drawnFloat m.
Proof.
  unfold gathered, collectLinks. destruct r2Client as [r2|]; [|repeat split; reflexivity].
  apply (collect_inert os r2 folderPath (Attachments note) ([], m)).
Qed.

(** What one call of [processMessage] does to the counters. *)
Lemma processMessage_counts os env note folderPath token r2Client filePath m :
  let m' := snd (processMessage os env note folderPath token r2Client filePath m) in
  (exists j : nat, (j <= 5)%nat /\ sent m' = (sent m + S j)%nat) /\
  TotalCalls (Stats m') = incr (TotalCalls (Stats m)) /\
  openCalls (Stats m') = openCalls (Stats m).
Proof.
  intros m'. subst m'. rewrite processMessage_eq.
  destruct (gathered_inert os r2Client folderPath note m) as (G1 & G2 & _).
  match goal with
  | |- context [AddToDynalist env ?t ?c ?n ?m1] =>
      destruct (AddToDynalist_facts env t c n m1)
        as (j & Hb & Hs & _ & _ & _ & _ & Htc & _ & Hres);
      set (res := AddToDynalist env t c n m1) in *
  end.
  rewrite G1 in Hs. rewrite G2 in Htc, Hres.
  split; [exists j; split; [unfold maxRetries in Hb; lia|exact Hs]|].
  split; [exact Htc|].
  unfold openCalls. apply openCalls_step; [exact Htc|].
  destruct (fst res).
  - right. destruct Hres as (H1 & H2 & _). split; assumption.
  - left. destruct Hres as (H1 & H2 & _). split; assumption.
Qed.


(** X4.  Every call counted in [TotalCalls] is also counted in exactly one
    of [SuccessfulCalls] and [FailedCalls]: the difference between the
    first counter and the sum of the other two, taken modulo [2^64], is
    the same after a call of [AddToDynalist], and after a whole run over a
    folder, as before. *)
Theorem calls_are_accounted_for os env folderPath token r2Client entries content note m :
  openCalls (Stats (snd (AddToDynalist env token content note m))) = openCalls (Stats m) /\
  openCalls (Stats (snd (processKeepFolder os env folderPath token r2Client entries m)))
  = openCalls (Stats m).
Proof.
  split.
  - destruct (AddToDynalist_facts env token content note m)
      as (j & _ & _ & _ & _ & _ & _ & Htc & _ & Hres).
    unfold openCalls. apply openCalls_step; [exact Htc|].
    destruct (fst (AddToDynalist env token content note m)).
    + right. destruct Hres as (H1 & H2 & _). split; assumption.
    + left. destruct Hres as (H1 & H2 & _). split; assumption.
  - revert m. induction entries as [|e rest IH]; intros m; [reflexivity|].
    cbn [processKeepFolder].
    destruct (entryErr e) as [err|] eqn:He.
    + rewrite (walkFn_error _ _ _ _ _ _ _ _ He). reflexivity.
    + destruct (walkFn_cases os env folderPath token r2Client e m He) as [H1 H2].
      destruct (passedOver os e) eqn:Hp.
      * rewrite (H1 eq_refl). apply IH.
      * destruct (H2 eq_refl) as (note' & _ & _ & Hw). rewrite Hw.
        rewrite IH.
        apply (processMessage_counts os env note' folderPath token r2Client (entryPath e) m).
Qed.

(** ** Attachments *)

Lemma processAttachment_spec os r2 folderPath links m a :
  processAttachment os r2 folderPath (links, m) a =
  (List.app links (linkOf os r2 folderPath a),
   {| Stats := Stats m;
      trace := List.app (trace m) (attachmentEvents os folderPath a);
      sent := sent m; drawnInt := drawnInt m; drawnFloat := drawnFloat m |}).
Proof.
  unfold processAttachment, findAttachmentFile, linkOf, attachmentEvents. cbv zeta.
  destruct (statOk os (pathJoin os folderPath (FilePath a))).
  - destruct (UploadLocalFile r2 (pathJoin os folderPath (FilePath a))) as [url|msg];
      unfold emit; cbn [Stats trace sent drawnInt drawnFloat];
      rewrite <- ?app_assoc, ?app_nil_r; reflexivity.
  - unfold emit. cbn [Stats trace sent drawnInt drawnFloat]. rewrite app_nil_r. reflexivity.
Qed.

Lemma collect_spec os r2 folderPath l : forall links m,
  fold_left (processAttachment os r2 folderPath) l (links, m) =
  (List.app links (flat_map (linkOf os r2 folderPath) l),
   {| Stats := Stats m;
      trace := List.app (trace m) (flat_map (attachmentEvents os folderPath) l);
      sent := sent m; drawnInt := drawnInt m; drawnFloat := drawnFloat m |}).
Proof.
  induction l as [|a l IH]; intros links m.
  - cbn. rewrite !app_nil_r. destruct m; reflexivity.
  - cbn [fold_left flat_map]. rewrite processAttachment_spec, IH.
    cbn [Stats trace sent drawnInt drawnFloat]. rewrite <- !app_assoc. reflexivity.
Qed.

(** X5.  With a storage client, [processMessage] looks every attachment
    up once, in order, and uploads exactly those whose file is there, all
    before the pause and the first request.  The links of the payload are
    those of the attachments that were found and uploaded, in order: a
    missing file or a failed upload costs only its own link, and the note
    is delivered all the same. *)
Theorem processMessage_attachments os env note folderPath token r2 filePath m :
  let res := processMessage os env note folderPath token (Some r2) filePath m in
  let links := flat_map (linkOf os r2 folderPath) (Attachments note) in
  let payload := payloadOf token note filePath links in
  exists (pause : Z) (retries : nat),
    trace (snd res) =
      List.app (trace m)
        (List.app (flat_map (attachmentEvents os folderPath) (Attachments note))
           (Sleep pause :: Post dynalistAPIURL payload
              :: retryEvents env payload 0 (drawnFloat m) retries)) /\
    (List.length links <= List.length (Attachments note))%nat.
Proof.
  intros res links payload. subst res. rewrite processMessage_eq.
  unfold gathered, collectLinks. rewrite collect_spec. cbn [fst snd List.app].
  fold links. fold payload.
  match goal with
  | |- context [AddToDynalist env ?t ?c ?n ?m1] =>
      destruct (AddToDynalist_facts env t c n m1) as (j & _ & _ & _ & _ & _ & Ht & _)
  end.
  exists (pauseOf env m), j. split.
  - rewrite Ht. cbn [trace drawnFloat]. rewrite <- app_assoc. reflexivity.
  - subst links. clear. induction (Attachments note) as [|a l IH]; [apply Nat.le_refl|].
    cbn [flat_map]. rewrite length_app. cbn [List.length].
    assert (List.length (linkOf os r2 folderPath a) <= 1)%nat.
    { unfold linkOf. cbv zeta.
      destruct (statOk os (pathJoin os folderPath (FilePath a))); [|cbn; lia].
      destruct (UploadLocalFile r2 (pathJoin os folderPath (FilePath a))); cbn; lia. }
    lia.
Qed.

Example processMessage_attachments_ex :
  posts (trace (snd (processMessage osWithoutB (envOf 0 half [] (response "Ok" ""))
                       noteThreePhotos "/takeout" "tok" (Some r2RefusingC)
                       "/takeout/trip.json" machine0)))
  = [ requestOf "tok" "gkeep: Trip"
        ("B" ++ nl ++ nl ++ "Attachments:" ++ nl
             ++ "[a.jpg](https://r2.example/takeout/a.jpg)") ] /\
  storageEvents (trace (snd (processMessage osWithoutB (envOf 0 half [] (response "Ok" ""))
                               noteThreePhotos "/takeout" "tok" (Some r2RefusingC)
                               "/takeout/trip.json" machine0)))
  = [ StatFile "/takeout/a.jpg"; UploadFile "/takeout/a.jpg";
      StatFile "/takeout/b.jpg";
      StatFile "/takeout/c.jpg"; UploadFile "/takeout/c.jpg" ].
Proof. split; vm_compute; reflexivity. Qed.

(** ** Titles from file names *)

Lemma append_length (a b : string) : length (a ++ b) = (length a + length b)%nat.
Proof. induction a as [|c a IH]; cbn; [reflexivity|]. rewrite IH. reflexivity. Qed.

Lemma substring_0_length (n : nat) : forall s,
  (n <= length s)%nat -> length (substring 0 n s) = n.
Proof.
  induction n as [|n IH]; intros s Hn.
  - destruct s; reflexivity.
  - destruct s as [|c s]; cbn in Hn; [lia|]. cbn. rewrite IH by lia. reflexivity.
Qed.

Lemma TrimLeft_head cutset s c t :
  TrimLeft s cutset = String c t -> inCutset cutset c = false.
Proof.
  induction s as [|d s IH]; cbn; [discriminate|].
  destruct (inCutset cutset d) eqn:Hd; [exact IH|].
  intros H. injection H as <- _. exact Hd.
Qed.

Lemma TrimLeft_suffix cutset s : exists pre, s = pre ++ TrimLeft s cutset.
Proof.
  induction s as [|d s [pre IH]]; [exists ""; reflexivity|].
  cbn. destruct (inCutset cutset d).
  - exists (String d pre). cbn. rewrite <- IH. reflexivity.
  - exists "". reflexivity.
Qed.

Lemma append_last_inj p c q d :
  p ++ String c "" = q ++ String d "" -> c = d.
Proof.
  revert q. induction p as [|x p IH]; intros q H.
  - destruct q as [|y q]; cbn in H; [congruence|].
    injection H as _ H. destruct q; discriminate.
  - destruct q as [|y q]; cbn in H.
    + injection H as _ H. destruct p; discriminate.
    + injection H as _ H. exact (IH _ H).
Qed.

Lemma TrimRight_last cutset s : forall p c,
  TrimRight s cutset = p ++ String c "" -> inCutset cutset c = false.
Proof.
  induction s as [|d s IH]; intros p c H.
  - destruct p; discriminate.
  - cbn in H. destruct (TrimRight s cutset) as [|e t] eqn:Ht.
    + destruct (inCutset cutset d) eqn:Hd; [destruct p; discriminate|].
      destruct p as [|x p]; cbn in H.
      * injection H as <-. exact Hd.
      * injection H as _ H. destruct p; discriminate.
    + destruct p as [|x p]; cbn in H; [discriminate|].
      injection H as _ H. exact (IH _ _ H).
Qed.

Lemma Trim_head cutset s c t : Trim s cutset = String c t -> inCutset cutset c = false.
Proof. apply TrimLeft_head. Qed.

Lemma Trim_last cutset s p c :
  Trim s cutset = p ++ String c "" -> inCutset cutset c = false.
Proof.
  unfold Trim. intros H.
  destruct (TrimLeft_suffix cutset (TrimRight s cutset)) as [pre Hpre].
  rewrite H in Hpre. rewrite <- append_assoc in Hpre.
  exact (TrimRight_last cutset s _ _ Hpre).
Qed.

Lemma shortenFilename_eq filename :
  shortenFilename filename =
  ellipsis15
    (Trim (fold_left (fun (base pattern : string) => hd EmptyString (Split base pattern))
                     timestampPatterns (TrimSuffix (Base filename) (Ext filename)))
          "._- ").
Proof. reflexivity. Qed.

Lemma shortenFilename_form (filename : string) :
  let r := shortenFilename filename in
  ((length r <= 15)%nat \/
   (exists p, length p = 15%nat /\ r = p ++ "...")) /\
  (length r <= 18)%nat /\
  (forall c t, r = String c t -> inCutset "._- " c = false) /\
  ((length r <= 15)%nat ->
   forall p c, r = p ++ String c "" -> inCutset "._- " c = false).
Proof.
  intros r. subst r. rewrite shortenFilename_eq.
  set (base := Trim _ "._- ").
  assert (Hh : forall c t, base = String c t -> inCutset "._- " c = false).
  { intros c t. apply Trim_head. }
  assert (Hl : forall p c, base = p ++ String c "" -> inCutset "._- " c = false).
  { intros p c. apply Trim_last. }
  clearbody base. unfold ellipsis15.
  destruct (Nat.ltb_spec 15 (length base)) as [Hlt|Hle].
  - assert (Hlen : length (substring 0 15 base) = 15%nat) by (apply substring_0_length; lia).
    split; [right; exists (substring 0 15 base); split; [exact Hlen|reflexivity]|].
    split; [rewrite append_length, Hlen; cbn; lia|].
    split.
    + intros c t H. destruct base as [|d base]; [cbn in Hlt; lia|].
      cbn in H. injection H as <- _. exact (Hh d base eq_refl).
    + rewrite append_length, Hlen. cbn. lia.
  - split; [left; exact Hle|]. split; [lia|]. split; [exact Hh|].
    intros _. exact Hl.
Qed.

(** X6.  The title [shortenFilename] derives from a file name has at most
    fifteen bytes, or is fifteen bytes followed by ["..."]: never more
    than eighteen.  It never begins with a dot, an underscore, a hyphen or
    a space, and when it is not cut it does not end with one either. *)
Theorem shortenFilename_shape (filename : string) :
  let r := shortenFilename filename in
  ((length r <= 15)%nat \/
   (exists p, length p = 15%nat /\ r = p ++ "...")) /\
  (length r <= 18)%nat /\
  (forall c t, r = String c t -> inCutset "._- " c = false) /\
  ((length r <= 15)%nat ->
   forall p c, r = p ++ String c "" -> inCutset "._- " c = false).
Proof. exact (shortenFilename_form filename). Qed.

Lemma noBackslash_substring s : forall n m,
  noBackslash s = true -> noBackslash (substring n m s) = true.
Proof.
  induction s as [|c s IH]; intros n m H.
  - destruct n, m; reflexivity.
  - cbn [noBackslash] in H. apply andb_prop in H. destruct H as [Hc Hs].
    destruct n as [|n].
    + destruct m as [|m]; [reflexivity|]. cbn [substring noBackslash].
      rewrite Hc, IH by assumption. reflexivity.
    + cbn [substring]. apply IH. assumption.
Qed.

Lemma noBackslash_TrimRight cutset s :
  noBackslash s = true -> noBackslash (TrimRight s cutset) = true.
Proof.
  induction s as [|c s IH]; intros H; [reflexivity|].
  cbn [noBackslash] in H. apply andb_prop in H. destruct H as [Hc Hs].
  cbn [TrimRight]. specialize (IH Hs).
  destruct (TrimRight s cutset) as [|d t].
  - destruct (inCutset cutset c); [reflexivity|]. cbn [noBackslash]. rewrite Hc. reflexivity.
  - cbn [noBackslash] in *. rewrite Hc, IH. reflexivity.
Qed.

Lemma noBackslash_after_last_separator s : forall cur,
  noBackslash cur = true -> noBackslash s = true ->
  noBackslash (after_last_separator cur s) = true.
Proof.
  induction s as [|c s IH]; intros cur Hcur H; [exact Hcur|].
  cbn [noBackslash] in H. apply andb_prop in H. destruct H as [Hc Hs].
  cbn [after_last_separator]. destruct (IsPathSeparator c); apply IH; assumption.
Qed.

Lemma noBackslash_Base path : noBackslash path = true -> noBackslash (Base path) = true.
Proof.
  intros H. unfold Base. destruct (String.eqb path ""); [reflexivity|].
  pose proof (noBackslash_TrimRight "/" path H) as Ht.
  pose proof (noBackslash_after_last_separator _ _ Ht Ht) as Ha.
  destruct (String.eqb (after_last_separator (TrimRight path "/") (TrimRight path "/")) "");
    [reflexivity|exact Ha].
Qed.

Lemma noBackslash_TrimSuffix s suffix :
  noBackslash s = true -> noBackslash (TrimSuffix s suffix) = true.
Proof.
  intros H. unfold TrimSuffix. destruct (HasSuffix s suffix); [|exact H].
  apply noBackslash_substring. exact H.
Qed.

(** X7.  For a path without a backslash the loop over [timestampPatterns]
    changes nothing: the title is the base name without its extension,
    trimmed of dots, underscores, hyphens and spaces at both ends, and cut
    to fifteen bytes.  Digits and timestamps in the name stay. *)
Theorem shortenFilename_without_backslash (filename : string) :
  noBackslash filename = true ->
  shortenFilename filename =
  ellipsis15 (Trim (TrimSuffix (Base filename) (Ext filename)) "._- ").
Proof.
  intros H. rewrite shortenFilename_eq.
  rewrite timestampPatterns_literal; [reflexivity|].
  apply noBackslash_TrimSuffix, noBackslash_Base. exact H.
Qed.

Lemma shortenFilename_without_backslash_witness :
  shortenFilename "/takeout/Keep/Tax_2023-04-01 .json" = "Tax_2023-04-01".
Proof.
  rewrite (shortenFilename_without_backslash "/takeout/Keep/Tax_2023-04-01 .json");
    reflexivity.
Defined.

Lemma ext_scan_suffix s : forall cand e,
  ext_scan cand s = e -> e = cand \/ exists pre, s = pre ++ e.
Proof.
  induction s as [|c s IH]; intros cand e H; [left; symmetry; exact H|].
  cbn [ext_scan] in H. destruct (IsPathSeparator c).
  - destruct (IH _ _ H) as [->|[pre ->]].
    + right. exists (String c s). rewrite append_empty_r. reflexivity.
    + right. exists (String c pre). reflexivity.
  - destruct (Ascii.eqb c "."%char).
    + destruct (IH _ _ H) as [->|[pre ->]].
      * right. exists "". reflexivity.
      * right. exists (String c pre). reflexivity.
    + destruct (IH _ _ H) as [->|[pre ->]]; [left; reflexivity|].
      right. exists (String c pre). reflexivity.
Qed.

Lemma substring_whole e : substring 0 (length e) e = e.
Proof. induction e as [|c e IH]; cbn; [reflexivity|]. rewrite IH. reflexivity. Qed.

Lemma substring_append pre e : substring (length pre) (length e) (pre ++ e) = e.
Proof.
  induction pre as [|c pre IH]; cbn [length append substring]; [apply substring_whole|].
  exact IH.
Qed.

Lemma HasSuffix_append pre e : HasSuffix (pre ++ e) e = true.
Proof.
  unfold HasSuffix. rewrite append_length.
  replace (length pre + length e - length e)%nat with (length pre) by lia.
  rewrite substring_append, String.eqb_refl.
  destruct (Nat.leb_spec (length e) (length pre + length e)); [reflexivity|lia].
Qed.

Lemma passedOver_json os (e : WalkEntry) :
  passedOver os e = false -> HasSuffix (entryPath e) ".json" = true.
Proof.
  unfold passedOver. intros H.
  apply orb_false_elim in H. destruct H as [H _].
  apply orb_false_elim in H. destruct H as [_ H].
  apply negb_false_iff, String.eqb_eq in H.
  destruct (ext_scan_suffix (entryPath e) "" ".json" H) as [E|[pre E]]; [discriminate|].
  rewrite E. apply HasSuffix_append.
Qed.

(** X8.  The callback of [processKeepFolder] sends a request only for an
    entry whose path ends in [".json"]: [filepath.Ext] returns a suffix of
    the path. *)
Theorem handed_over_paths_end_in_json os env folderPath token r2Client (e : WalkEntry) m :
  entryErr e = None ->
  sent (snd (walkFn os env folderPath token r2Client e m)) <> sent m ->
  HasSuffix (entryPath e) ".json" = true.
Proof.
  intros He Hs. apply (passedOver_json os).
  destruct (walkFn_cases os env folderPath token r2Client e m He) as [H1 _].
  destruct (passedOver os e); [|reflexivity].
  exfalso. apply Hs. rewrite (H1 eq_refl). reflexivity.
Qed.

Lemma handed_over_paths_end_in_json_witness :
  HasSuffix (entryPath (fileEntry "/takeout/n.json")) ".json" = true.
Proof.
  apply (handed_over_paths_end_in_json (osParsing noteTB) (envOf 0 half [] (response "Ok" ""))
           "/takeout" "tok" None (fileEntry "/takeout/n.json") machine0).
  - reflexivity.
  - vm_compute. discriminate.
Defined.

(** ** The statistics after a success *)

Lemma Run_success_LastError env req rc m j r m' :
  Run env req rc m j r m' -> r = None ->
  LastError (Stats m') =
  match j with
  | O => LastError (Stats m)
  | S j' => errorOf (roundTrip env (sent m + j') req)
  end.
Proof.
  induction 1 as [rc m Hc|rc m v Hc Hv|rc m j r m' Hc _ IH]; intros Hr.
  - reflexivity.
  - discriminate.
  - rewrite (IH Hr). rewrite sent_retried, Stats_retried.
    destruct j as [|j'].
    + rewrite Nat.add_0_r. reflexivity.
    + f_equal. f_equal. lia.
Qed.

(** X9.  A success does not clear [Stats.LastError].  After a call of
    [AddToDynalist] that succeeds at its first attempt the field is what
    it was before the call; after one that succeeds at a later attempt it
    holds the error of the last failed attempt of that call. *)
Theorem AddToDynalist_success_keeps_LastError env token content note m :
  let req := requestOf token content note in
  let res := AddToDynalist env token content note m in
  fst res = None ->
  exists j : nat,
    sent (snd res) = (sent m + S j)%nat /\
    LastStatus (Stats (snd res)) = "Success" /\
    LastError (Stats (snd res)) =
    match j with
    | O => LastError (Stats m)
    | S j' => errorOf (roundTrip env (sent m + j') req)
    end.
Proof.
  intros req res Hr.
  destruct (AddToDynalist_Run env token content note m) as [j HR].
  fold req in HR. fold res in HR.
  exists j. split; [exact (Run_sent _ _ _ _ _ _ _ HR)|]. split.
  - pose proof (Run_stats _ _ _ _ _ _ _ HR) as (_ & _ & H).
    rewrite Hr in H. apply H.
  - exact (Run_success_LastError _ _ _ _ _ _ _ HR Hr).
Qed.

Lemma AddToDynalist_success_keeps_LastError_witness :
  exists j : nat,
    sent (snd (AddToDynalist envTimeoutThenOk "tok" "c" "n" machine0)) = (0 + S j)%nat /\
    LastStatus (Stats (snd (AddToDynalist envTimeoutThenOk "tok" "c" "n" machine0)))
      = "Success" /\
    LastError (Stats (snd (AddToDynalist envTimeoutThenOk "tok" "c" "n" machine0))) =
    match j with
    | O => ""
    | S j' => errorOf (roundTrip envTimeoutThenOk (0 + j') (requestOf "tok" "c" "n"))
    end.
Proof.
  apply (AddToDynalist_success_keeps_LastError envTimeoutThenOk "tok" "c" "n" machine0).
  reflexivity.
Defined.

Example LastError_after_retry :
  Stats (snd (AddToDynalist envTimeoutThenOk "tok" "c" "n" machine0)) =
  {| TotalCalls := 1; SuccessfulCalls := 1; FailedCalls := 0; Retries := 1;
     LastError := "failed to send request: timeout"; LastStatus := "Success" |}.
Proof. vm_compute. reflexivity. Qed.

(** ** The jitter factor *)

Lemma inJitterRange_intro mj ej :
  (ej = -53 /\ 2 ^ 52 <= Zpos mj < 2 ^ 53) \/
  (ej = -52 /\ 2 ^ 52 <= Zpos mj < 6755399441055744) ->
  inJitterRange (S754_finite false mj ej) = true.
Proof.
  intros H.
  assert (Hd : Zpos (digits2_pos mj) = 53).
  { apply digits2_pos_unique. change (2 ^ (53 - 1)) with (2 ^ 52).
    destruct H as [[_ H]|[_ H]]; [exact H|].
    change (2 ^ 53) with 9007199254740992. lia. }
  unfold inJitterRange. apply andb_true_intro. split; [apply andb_true_intro; split|].
  - cbn [valid_binary]. unfold bounded, canonical_mantissa. rewrite Hd.
    apply andb_true_intro. split.
    + apply Z.eqb_eq. unfold fexp, emin, prec, emax.
      destruct H as [[-> _]|[-> _]]; reflexivity.
    + apply Z.leb_le. unfold prec, emax. destruct H as [[-> _]|[-> _]]; lia.
  - unfold half. apply SFleb_finite_pos.
    destruct H as [[-> H]|[-> H]]; [right|left; lia].
    split; [reflexivity|]. change (Zpos 4503599627370496) with (2 ^ 52). lia.
  - unfold oneAndHalf. apply SFltb_finite_pos.
    destruct H as [[-> H]|[-> H]]; [left; lia|right].
    split; [reflexivity|]. lia.
Qed.

Lemma inUnit_inv u : inUnit u = true ->
  (exists s, u = S754_zero s) \/
  (exists m e, u = S754_finite false m e /\ -1074 <= e <= -53 /\ Zpos m < 2 ^ 53).
Proof.
  unfold inUnit. intros H.
  apply andb_prop in H. destruct H as [H Hlt]. apply andb_prop in H. destruct H as [Hv Hle].
  destruct u as [s|s| |s m e]; try discriminate.
  - left. exists s. reflexivity.
  - destruct s; discriminate.
  - destruct s; [discriminate|]. right. exists m, e. split; [reflexivity|].
    unfold one in Hlt. apply SFltb_finite_pos in Hlt.
    cbn [valid_binary] in Hv. unfold bounded, canonical_mantissa in Hv.
    apply andb_prop in Hv. destruct Hv as [Hc _]. apply Z.eqb_eq in Hc.
    pose proof (digits2_pos_bounds m) as HB.
    unfold fexp, emin, prec, emax in Hc.
    assert (Hd : Zpos (digits2_pos m) <= 53) by (clear - Hc; lia).
    assert (He : -1074 <= e) by (clear - Hc; lia).
    assert (Hm : Zpos m < 2 ^ 53).
    { apply Z.lt_le_trans with (2 ^ Zpos (digits2_pos m)); [apply HB|].
      apply Z.pow_le_mono_r; lia. }
    split; [|exact Hm]. split; [exact He|].
    destruct Hlt as [Hlt|[-> Hlt]]; [lia|]. exfalso.
    assert (Hd' : Zpos (digits2_pos m) = 53) by (clear - Hc; lia).
    rewrite Hd' in HB. change (2 ^ (53 - 1)) with (Zpos 4503599627370496) in HB.
    clear - HB Hlt. lia.
Qed.

Lemma iter_xO_pow (x : positive) (d : positive) :
  Zpos (Pos.iter xO x d) = Zpos x * 2 ^ Zpos d.
Proof.
  revert x. induction d as [|d IH] using Pos.peano_ind; intros x.
  - cbn [Pos.iter]. rewrite Pos2Z.inj_xO. change (2 ^ 1) with 2. lia.
  - rewrite Pos.iter_succ, Pos2Z.inj_xO, IH, Pos2Z.inj_succ, Z.pow_succ_r by lia. ring.
Qed.

Lemma shl_align_fst mx ex ex' :
  ex' <= ex -> Zpos (fst (shl_align mx ex ex')) = Zpos mx * 2 ^ (ex - ex').
Proof.
  intros H. unfold shl_align. destruct (ex' - ex) as [|p|d] eqn:E.
  - replace (ex - ex') with 0 by lia. cbn [fst]. lia.
  - lia.
  - cbn [fst]. rewrite iter_xO_pow. f_equal. f_equal. lia.
Qed.

Lemma shl_align_id mx ex ex' : ex <= ex' -> shl_align mx ex ex' = (mx, ex).
Proof.
  intros H. unfold shl_align. destruct (ex' - ex) as [|p|d] eqn:E; try reflexivity. lia.
Qed.

Lemma pow2_split a b : 0 <= a -> 0 <= b -> 2 ^ (a + b) = 2 ^ a * 2 ^ b.
Proof. intros. apply Z.pow_add_r; assumption. Qed.

(** The sum [0.5 + u] for a finite [u] below one. *)
Lemma SFadd_half_finite m e :
  -1074 <= e <= -53 -> Zpos m < 2 ^ 53 ->
  inJitterRange (SFadd prec emax half (S754_finite false m e)) = true \/
  SFadd prec emax half (S754_finite false m e) = oneAndHalf.
Proof.
  intros He Hm. unfold half. cbn [SFadd].
  rewrite Z.min_r by lia. cbv zeta. unfold cond_Zopp.
  rewrite (shl_align_fst 4503599627370496 (-53) e) by lia.
  rewrite (shl_align_fst m e e) by lia.
  replace (e - e) with 0 by lia. rewrite Z.mul_1_r.
  change (Zpos 4503599627370496) with (2 ^ 52).
  rewrite <- pow2_split by lia.
  set (p := 2 ^ (-53 - e)).
  assert (Hp : 0 < p) by (apply Z.pow_pos_nonneg; lia).
  assert (Hp1 : 1 <= p) by lia.
  assert (E52 : 2 ^ (52 + (-53 - e)) = 2 ^ 52 * p) by (apply pow2_split; lia).
  rewrite E52.
  assert (Hmp : Zpos m < 2 ^ 53 * p).
  { change (2 ^ 53) with 9007199254740992 in *. nia. }
  destruct (2 ^ 52 * p + Zpos m) as [|S|S] eqn:ES;
    [change (2 ^ 52) with 4503599627370496 in ES; lia| |change (2 ^ 52) with 4503599627370496 in ES; lia].
  cbn [binary_normalize]. unfold binary_round.
  assert (Hlow : 2 ^ 52 * p <= Zpos S) by lia.
  assert (Hhigh : Zpos S < 3 * (2 ^ 52 * p)).
  { rewrite <- ES. change (2 ^ 53) with (2 * 2 ^ 52) in Hmp. lia. }
  assert (E53 : 2 ^ 53 * p = 2 ^ (- e)).
  { unfold p. rewrite <- pow2_split by lia. f_equal. lia. }
  assert (E52' : 2 ^ 52 * p = 2 ^ (- e - 1)).
  { unfold p. rewrite <- pow2_split by lia. f_equal. lia. }
  assert (E54 : 2 * (2 ^ 53 * p) = 2 ^ (- e + 1)).
  { rewrite E53. rewrite (Z.pow_add_r 2 (- e) 1) by lia. change (2 ^ 1) with 2. ring. }
  destruct (Z.ltb_spec (Zpos S) (2 ^ 53 * p)) as [Hlt|Hge].
  - (* the sum is below one *)
    assert (Hd : Zpos (digits2_pos S) = - e).
    { apply digits2_pos_unique. rewrite <- E52', <- E53. lia. }
    rewrite Hd. replace (- e + e) with 0 by lia.
    change (fexp prec emax 0) with (-53).
    rewrite shl_align_id by lia.
    left.
    destruct (Z.eq_dec e (-53)) as [->|Hne].
    + rewrite binary_round_aux_53 by (try exact Hd; lia).
      change (-53 <=? 971) with true. cbv iota.
      apply inJitterRange_intro. left. split; [reflexivity|].
      change p with 1 in Hlow, Hlt. lia.
    + assert (Hk : exists k : positive, Zpos k = -53 - e).
      { exists (Z.to_pos (-53 - e)). rewrite Z2Pos.id by lia. reflexivity. }
      destruct Hk as [k Hk].
      rewrite (binary_round_aux_shift false S k) by lia.
      assert (HR : 2 ^ 52 <= roundShift (Zpos S) k <= 2 ^ 53).
      { apply roundShift_range. rewrite Hk.
        replace (-53 - e + 52) with (- e - 1) by lia.
        replace (-53 - e + 53) with (- e) by lia.
        rewrite <- E52', <- E53. lia. }
      cbv zeta. replace (e + Zpos k) with (-53) by lia.
      change (-53 + 1 <=? 971) with true. change (-53 <=? 971) with true.
      destruct (Z.eqb_spec (roundShift (Zpos S) k) (2 ^ 53)) as [Hc|Hc].
      * apply inJitterRange_intro. right. split; [reflexivity|].
        change (2 ^ 52) with 4503599627370496. lia.
      * apply inJitterRange_intro. left. split; [reflexivity|].
        rewrite Z2Pos.id by (change (2 ^ 52) with 4503599627370496 in HR; lia). lia.
  - (* the sum is one or more *)
    assert (Hd : Zpos (digits2_pos S) = - e + 1).
    { apply digits2_pos_unique. replace (- e + 1 - 1) with (- e) by lia.
      rewrite <- E53, <- E54. change (2 ^ 53) with (2 * 2 ^ 52). lia. }
    rewrite Hd. replace (- e + 1 + e) with 1 by lia.
    change (fexp prec emax 1) with (-52).
    rewrite shl_align_id by lia.
    assert (Hk : exists k : positive, Zpos k = -52 - e).
    { exists (Z.to_pos (-52 - e)). rewrite Z2Pos.id by lia. reflexivity. }
    destruct Hk as [k Hk].
    rewrite (binary_round_aux_shift false S k) by lia.
    assert (HR : 2 ^ 52 <= roundShift (Zpos S) k <= 2 ^ 53).
    { apply roundShift_range. rewrite Hk.
      replace (-52 - e + 52) with (- e) by lia.
      replace (-52 - e + 53) with (- e + 1) by lia.
      rewrite <- E53, <- E54. change (2 ^ 53) with (2 * 2 ^ 52). lia. }
    pose proof (roundShift_half_ulp (Zpos S) k ltac:(lia)) as HU.
    assert (Ek : 2 ^ Zpos k = 2 * p).
    { rewrite Hk. unfold p. replace (-52 - e) with (1 + (-53 - e)) by lia.
      rewrite pow2_split by lia. reflexivity. }
    rewrite pow2_double in HU by lia. rewrite Ek in HU.
    assert (Hq : roundShift (Zpos S) k <= 6755399441055744).
    { destruct HU as [_ HU].
      assert (H4 : p * (4 * roundShift (Zpos S) k) < p * (3 * 2 ^ 53 + 2)).
      { change (2 ^ 53) with 9007199254740992. change (2 ^ 52) with 4503599627370496 in Hhigh. lia. }
      apply Z.mul_lt_mono_pos_l in H4; [|exact Hp].
      change (2 ^ 53) with 9007199254740992 in H4. lia. }
    cbv zeta. replace (e + Zpos k) with (-52) by lia.
    change (-52 + 1 <=? 971) with true. change (-52 <=? 971) with true.
    destruct (Z.eqb_spec (roundShift (Zpos S) k) (2 ^ 53)) as [Hc|Hc].
    + exfalso. change (2 ^ 53) with 9007199254740992 in Hc. lia.
    + destruct (Z.eq_dec (roundShift (Zpos S) k) 6755399441055744) as [E15|N15].
      * right. rewrite E15. reflexivity.
      * left. apply inJitterRange_intro. right. split; [reflexivity|].
        rewrite Z2Pos.id by (change (2 ^ 52) with 4503599627370496 in HR; lia). lia.
Qed.

Lemma jitter_range (u : float64) :
  inUnit u = true ->
  inJitterRange (SFadd prec emax half u) = true \/ SFadd prec emax half u = oneAndHalf.
Proof.
  intros Hu. destruct (inUnit_inv u Hu) as [[s ->]|(m & e & -> & He & Hm)].
  - left. destruct s; reflexivity.
  - apply SFadd_half_finite; assumption.
Qed.

(** X10.  The jitter factor [0.5 + rand.Float64()] is a binary64 number
    between 0.5 and 1.5, both included: below 1.5 unless the sum rounds
    up to it. *)
Theorem jitter_between_half_and_oneAndHalf (u : float64) :
  inUnit u = true ->
  inJitterRange (SFadd prec emax half u) = true \/ SFadd prec emax half u = oneAndHalf.
Proof. exact (jitter_range u). Qed.

Lemma jitter_between_half_and_oneAndHalf_witness :
  inJitterRange (SFadd prec emax half half) = true \/
  SFadd prec emax half half = oneAndHalf.
Proof.
  apply (jitter_between_half_and_oneAndHalf half). reflexivity.
Defined.

(** ** The backoff delays of a call *)

Lemma closed_form_of_product mj ej M c :
  2 ^ 52 <= M < 2 ^ 53 -> -23 <= c <= -21 ->
  (forall n, 0 <= n -> n <= 993 ->
     SFmul prec emax (S754_finite false mB (n - 22)) (S754_finite false mj ej) =
     if n + c <=? 971 then S754_finite false (Z.to_pos M) (n + c)
     else S754_infinity false) ->
  forall n, 0 <= n ->
    backoffWithJitter n (S754_finite false mj ej) = backoffClosed M c n.
Proof.
  intros HM Hc Hmul n Hn. unfold backoffWithJitter, backoffClosed. cbv zeta.
  rewrite base_times_Pow2 by assumption. rewrite float64_maxDelay.
  assert (HMpos : Zpos (Z.to_pos M) = M).
  { apply Z2Pos.id. change (2 ^ 52) with 4503599627370496 in HM. lia. }
  destruct (Z.leb_spec n 993) as [Hn9|Hn9].
  - rewrite Hmul by assumption.
    destruct (Z.leb_spec (n + c) 971) as [Hnc|Hnc].
    + destruct (float64_gt (S754_finite false (Z.to_pos M) (n + c))
                           (S754_finite false mC (-17))) eqn:Hgt.
      * unfold float64_gt in Hgt. apply SFltb_finite_pos in Hgt. rewrite HMpos in Hgt.
        rewrite int64_of_maxDelay.
        destruct Hgt as [Hgt|[Hgt1 Hgt2]].
        -- destruct (Z.ltb_spec (-17) (n + c)); [reflexivity|lia].
        -- destruct (Z.ltb_spec (-17) (n + c)); [reflexivity|].
           destruct (Z.eqb_spec (n + c) (-17)); [|lia].
           destruct (Z.ltb_spec (Zpos mC) M); [reflexivity|lia].
      * assert (Hng : ~ (-17 < n + c \/ (-17 = n + c /\ Zpos mC < M))).
        { intros H. rewrite <- HMpos in H. apply SFltb_finite_pos in H.
          unfold float64_gt in Hgt. congruence. }
        destruct (Z.ltb_spec (-17) (n + c)) as [H1|H1]; [exfalso; apply Hng; lia|].
        assert (Hor : (n + c =? -17) && (Zpos mC <? M) = false).
        { destruct (Z.eqb_spec (n + c) (-17)) as [H2|H2]; [|reflexivity].
          destruct (Z.ltb_spec (Zpos mC) M) as [H3|H3]; [exfalso; apply Hng; lia|reflexivity]. }
        rewrite Hor. cbn [orb].
        rewrite int64_of_small by lia. rewrite HMpos. reflexivity.
    + change (float64_gt (S754_infinity false) (S754_finite false mC (-17))) with true.
      cbv iota. rewrite int64_of_maxDelay.
      destruct (Z.ltb_spec (-17) (n + c)); [reflexivity|lia].
  - cbn [SFmul xorb].
    change (float64_gt (S754_infinity false) (S754_finite false mC (-17))) with true.
    cbv iota. rewrite int64_of_maxDelay.
    destruct (Z.ltb_spec (-17) (n + c)); [reflexivity|lia].
Qed.

Lemma product_oneAndHalf n :
  0 <= n -> n <= 993 ->
  SFmul prec emax (S754_finite false mB (n - 22)) oneAndHalf =
  if n + -21 <=? 971 then S754_finite false (Z.to_pos 6291456000000000) (n + -21)
  else S754_infinity false.
Proof.
  intros Hn0 Hn. unfold oneAndHalf. cbn [SFmul xorb].
  rewrite (binary_round_aux_shift false (mB * 6755399441055744) 53) by (try reflexivity; lia).
  replace (roundShift (Zpos (mB * 6755399441055744)) 53) with 6291456000000000
    by (vm_compute; reflexivity).
  cbv zeta. change (6291456000000000 =? 2 ^ 53) with false. cbv iota.
  replace (n - 22 + -52 + 53) with (n + -21) by lia. reflexivity.
Qed.

Lemma jitterRounding_oneAndHalf : jitterRounding oneAndHalf 6291456000000000 (-21).
Proof.
  unfold jitterRounding, jitter53, oneAndHalf, minDelay, Second.
  change (Z.shiftl 6755399441055744 (-52 + 53)) with 13510798882111488.
  change (2 ^ (-21 + 53)) with 4294967296.
  change (2 ^ 52) with 4503599627370496. change (2 ^ 53) with 9007199254740992.
  lia.
Qed.

Lemma backoff_closed_form_closed j :
  inJitterRange j = true \/ j = oneAndHalf ->
  exists M c, jitterRounding j M c /\
    forall n, 0 <= n -> backoffWithJitter n j = backoffClosed M c n.
Proof.
  intros [Hj | ->]; [exact (backoff_closed_form j Hj)|].
  exists 6291456000000000, (-21). split; [exact jitterRounding_oneAndHalf|].
  apply closed_form_of_product.
  - change (2 ^ 52) with 4503599627370496. change (2 ^ 53) with 9007199254740992. lia.
  - lia.
  - exact product_oneAndHalf.
Qed.

Lemma jitter53_closed j :
  inJitterRange j = true \/ j = oneAndHalf ->
  2 ^ 52 <= jitter53 j <= 3 * 2 ^ 52.
Proof.
  intros [Hj | ->].
  - destruct (inJitterRange_inv j Hj) as (mj & ej & -> & [[-> H]|[-> H]]); unfold jitter53.
    + change (-53 + 53) with 0. rewrite Z.shiftl_0_r.
      change (2 ^ 53) with 9007199254740992 in H. change (2 ^ 52) with 4503599627370496 in *.
      lia.
    + change (-52 + 53) with 1. rewrite Z.shiftl_mul_pow2 by lia. change (2 ^ 1) with 2.
      change (2 ^ 52) with 4503599627370496 in *. lia.
  - change (jitter53 oneAndHalf) with 13510798882111488.
    change (2 ^ 52) with 4503599627370496. lia.
Qed.

Lemma backoff_envelope n j :
  1 <= n -> inJitterRange j = true \/ j = oneAndHalf ->
  Z.min (minDelay * 2 ^ (n - 1)) maxDelay <= backoffWithJitter n j
    <= Z.min (3 * minDelay * 2 ^ (n - 1)) maxDelay.
Proof.
  intros Hn Hj.
  destruct (backoff_closed_form_closed j Hj) as (M & c & HJ & Hcl).
  rewrite (Hcl n) by lia.
  pose proof (closed_bracket j M c n HJ ltac:(lia)) as HB.
  pose proof (closed_le_maxDelay j M c n HJ ltac:(lia)) as HA.
  pose proof (jitter53_closed j Hj) as H53.
  set (r := backoffClosed M c n) in *. clearbody r.
  replace (2 ^ n) with (2 * 2 ^ (n - 1)) in HB
    by (replace n with (n - 1 + 1) at 2 by lia; rewrite pow2_double by lia; reflexivity).
  assert (Hw : 0 < 2 ^ (n - 1)) by (apply Z.pow_pos_nonneg; lia).
  set (w := 2 ^ (n - 1)) in *. clearbody w.
  unfold minDelay, maxDelay, Second in *.
  set (J := jitter53 j) in *. clearbody J.
  change (2 ^ 52) with 4503599627370496 in H53.
  change (2 ^ 53) with 9007199254740992 in HB.
  assert (HwJ1 : w * 4503599627370496 <= w * J) by (apply Z.mul_le_mono_nonneg_l; lia).
  assert (HwJ2 : w * J <= w * (3 * 4503599627370496)) by (apply Z.mul_le_mono_nonneg_l; lia).
  replace (2 * 1000000000 * (2 * w) * J) with (4000000000 * (w * J)) in HB by ring.
  set (wJ := w * J) in *. clearbody wJ.
  lia.
Qed.

(** X11.  For a retry count [n >= 1], as [AddToDynalist] passes it, and a
    value [u] of [rand.Float64], the delay of [calculateBackoff] is at
    least [minDelay * 2^(n-1)] and at most three times that, both capped
    at [maxDelay]: never less than two seconds, and from the sixth retry
    on always sixty. *)
Theorem backoff_grows_within_bounds (n : Z) (u : float64) :
  1 <= n -> inUnit u = true ->
  let d := backoffWithJitter n (SFadd prec emax half u) in
  Z.min (minDelay * 2 ^ (n - 1)) maxDelay <= d
    <= Z.min (3 * minDelay * 2 ^ (n - 1)) maxDelay /\
  minDelay <= d <= maxDelay /\
  (6 <= n -> d = maxDelay).
Proof.
  intros Hn Hu d.
  pose proof (backoff_envelope n _ Hn (jitter_range u Hu)) as HE.
  fold d in HE.
  assert (Hw : 1 <= 2 ^ (n - 1)).
  { change 1 with (2 ^ 0) at 1. apply Z.pow_le_mono_r; lia. }
  split; [exact HE|]. split.
  - unfold minDelay, maxDelay, Second in *. lia.
  - intros H6.
    assert (H32 : 2 ^ 5 <= 2 ^ (n - 1)) by (apply Z.pow_le_mono_r; lia).
    change (2 ^ 5) with 32 in H32.
    unfold minDelay, maxDelay, Second in *. lia.
Qed.

Lemma backoff_grows_within_bounds_witness :
  let d := backoffWithJitter 3 (SFadd prec emax half half) in
  Z.min (minDelay * 2 ^ (3 - 1)) maxDelay <= d
    <= Z.min (3 * minDelay * 2 ^ (3 - 1)) maxDelay /\
  minDelay <= d <= maxDelay /\
  (6 <= 3 -> d = maxDelay).
Proof.
  apply (backoff_grows_within_bounds 3 half); [lia | reflexivity].
Defined.







Example AddToDynalist_sleeping_time_ex :
  sleeps (trace (snd (AddToDynalist envThreeRateLimits "tok" "c" "n" machine0)))
  = [1 * Second; 4 * Second; 8 * Second; 16 * Second].
Proof. vm_compute. reflexivity. Qed.

(** ** The version with the progress display: the title *)

Lemma previewPiece_length t : (length (previewPiece t) <= 33)%nat.
Proof.
  unfold previewPiece. destruct (30 <? length t)%nat eqn:E.
  - apply Nat.ltb_lt in E. rewrite append_length, substring_0_length by lia.
    cbn. lia.
  - apply Nat.ltb_ge in E. lia.
Qed.

Lemma previewPiece_empty t : previewPiece t = "" -> t = "".
Proof.
  unfold previewPiece. destruct (30 <? length t)%nat eqn:E; [|tauto].
  intros H. apply (f_equal length) in H.
  apply Nat.ltb_lt in E. rewrite append_length, substring_0_length in H by lia.
  cbn in H. lia.
Qed.

Lemma append_nonempty_r (a b : string) : b <> "" -> a ++ b <> "".
Proof.
  intros Hb H. apply (f_equal length) in H. rewrite append_length in H.
  destruct b; [congruence|]. cbn in H. lia.
Qed.

Lemma previewLoop_second TrimSpace lines : forall p,
  p <> "" ->
  Progressive.previewLoop TrimSpace lines p 1 =
  p ++ match filter (fun l => negb (String.eqb l "")) (map TrimSpace lines) with
       | [] => ""
       | l :: _ => " | " ++ previewPiece l
       end.
Proof.
  induction lines as [|line rest IH]; intros p Hp.
  - cbn. rewrite append_empty_r. reflexivity.
  - cbn [Progressive.previewLoop map filter].
    destruct (negb (String.eqb (TrimSpace line) "")) eqn:E.
    + apply String.eqb_neq in Hp. rewrite Hp. cbn [negb].
      change (2 <=? 1 + 1) with true. cbn iota.
      fold (previewPiece (TrimSpace line)).
      unfold previewPiece.
      destruct (30 <? length (TrimSpace line))%nat; rewrite ?append_assoc; reflexivity.
    + apply IH. exact Hp.
Qed.

Lemma previewLoop_first TrimSpace lines :
  Progressive.previewLoop TrimSpace lines "" 0 =
  match filter (fun l => negb (String.eqb l "")) (map TrimSpace lines) with
  | [] => ""
  | [l] => previewPiece l
  | l1 :: l2 :: _ => previewPiece l1 ++ " | " ++ previewPiece l2
  end.
Proof.
  induction lines as [|line rest IH]; [reflexivity|].
  cbn [Progressive.previewLoop map filter].
  destruct (negb (String.eqb (TrimSpace line) "")) eqn:E; [|exact IH].
  cbn [String.eqb negb]. change (2 <=? 0 + 1) with false. cbn iota.
  change (0 + 1) with 1.
  assert (Hne : previewPiece (TrimSpace line) <> "").
  { intros H. apply previewPiece_empty in H. rewrite H in E. discriminate. }
  assert (Hp : (if (30 <? length (TrimSpace line))%nat
                then "" ++ substring 0 30 (TrimSpace line) ++ "..."
                else "" ++ TrimSpace line) = previewPiece (TrimSpace line)).
  { unfold previewPiece. destruct (30 <? length (TrimSpace line))%nat; reflexivity. }
  rewrite Hp, (previewLoop_second TrimSpace rest _ Hne).
  destruct (filter (fun l => negb (String.eqb l "")) (map TrimSpace rest)) as [|l2 ls].
  - apply append_empty_r.
  - reflexivity.
Qed.

Lemma previewOf_length TrimSpace text : (length (previewOf TrimSpace text) <= 69)%nat.
Proof.
  unfold previewOf. destruct (String.eqb text ""); [cbn; lia|].
  destruct (inkLines TrimSpace text) as [|l1 [|l2 ls]].
  - cbn; lia.
  - pose proof (previewPiece_length l1). lia.
  - rewrite !append_length.
    pose proof (previewPiece_length l1). pose proof (previewPiece_length l2).
    cbn [length]. lia.
Qed.

Lemma processMessage_preview_eq TrimSpace os env note folderPath token r2Client filePath m :
  Progressive.processMessage TrimSpace os env note folderPath token r2Client filePath m =
  AddToDynalist env token
    ("gkeep: " ++ previewTitle TrimSpace note filePath
       ++ hashtagTail (processLabels (Labels note)))
    (TextContent note ++ attachmentsBlock (fst (gathered os r2Client folderPath note m)))
    (snd (gathered os r2Client folderPath note m)).
Proof.
  unfold Progressive.processMessage, gathered, collectLinks.
  assert (E : forall r2,
             (if (0 <? List.length (Attachments note))%nat
              then fold_left (processAttachment os r2 folderPath) (Attachments note) ([], m)
              else ([], m)) =
             fold_left (processAttachment os r2 folderPath) (Attachments note) ([], m)).
  { intros r2. destruct (Attachments note); reflexivity. }
  assert (T : (if String.eqb (Title note) ""
               then
                 if negb (String.eqb (TextContent note) "")
                 then
                   if negb (String.eqb
                              (Progressive.previewLoop TrimSpace (Split (TextContent note) nl) "" 0)
                              "")
                   then shortenFilename filePath ++ ": "
                          ++ Progressive.previewLoop TrimSpace (Split (TextContent note) nl) "" 0
                   else shortenFilename filePath
                 else shortenFilename filePath
               else Title note) = previewTitle TrimSpace note filePath).
  { unfold previewTitle, previewOf. destruct (String.eqb (Title note) ""); [|reflexivity].
    destruct (String.eqb (TextContent note) ""); [reflexivity|]. cbn [negb].
    rewrite previewLoop_first. fold (inkLines TrimSpace (TextContent note)).
    destruct (match inkLines TrimSpace (TextContent note) with
              | [] => ""
              | [l] => previewPiece l
              | l1 :: l2 :: _ => previewPiece l1 ++ " | " ++ previewPiece l2
              end); reflexivity. }
  assert (H : forall (links : list string) (m1 : Machine),
    AddToDynalist env token
      (if negb (String.eqb (processLabels (Labels note)) "")
       then ("gkeep: " ++ previewTitle TrimSpace note filePath) ++ " "
              ++ processLabels (Labels note)
       else "gkeep: " ++ previewTitle TrimSpace note filePath)
      (if (0 <? List.length links)%nat
       then TextContent note ++ nl ++ nl ++ "Attachments:" ++ nl ++ Join links nl
       else TextContent note) m1 =
    AddToDynalist env token
      ("gkeep: " ++ previewTitle TrimSpace note filePath
         ++ hashtagTail (processLabels (Labels note)))
      (TextContent note ++ attachmentsBlock links) m1).
  { intros links m1. f_equal.
    - unfold hashtagTail. destruct (String.eqb (processLabels (Labels note)) ""); cbn [negb].
      + rewrite append_empty_r. reflexivity.
      + rewrite append_assoc. reflexivity.
    - destruct links; cbn [List.length Nat.ltb Nat.leb attachmentsBlock].
      + rewrite append_empty_r. reflexivity.
      + reflexivity. }
  destruct r2Client as [r2|].
  - rewrite E.
    destruct (fold_left (processAttachment os r2 folderPath) (Attachments note) ([], m))
      as [links m1].
    cbn [fst snd]. rewrite T. apply H.
  - cbn [fst snd]. rewrite T. apply (H [] m).
Qed.

Lemma processMessage_preview_posts
    TrimSpace os env note folderPath token r2Client filePath m :
  let res :=
    Progressive.processMessage TrimSpace os env note folderPath token r2Client filePath m in
  let links := fst (gathered os r2Client folderPath note m) in
  exists (j : nat) (body : DynalistRequest),
    (j <= 5)%nat /\
    posts (trace (snd res)) = List.app (posts (trace m)) (repeat body (S j)) /\
    Token body = token /\
    Content body = "gkeep: " ++ previewTitle TrimSpace note filePath
                     ++ hashtagTail (processLabels (Labels note)) /\
    Note body = TextContent note ++ attachmentsBlock links.
Proof.
  intros res links. subst res. rewrite processMessage_preview_eq.
  match goal with
  | |- context [AddToDynalist env ?t ?c ?n ?m1] =>
      destruct (AddToDynalist_facts env t c n m1)
        as (j & Hb & _ & _ & _ & _ & Ht & _)
  end.
  exists j. eexists. split; [unfold maxRetries in Hb; lia|].
  split.
  - rewrite Ht, posts_app, gathered_posts. cbn [posts flat_map List.app].
    fold (posts (retryEvents env
                   (requestOf token
                      ("gkeep: " ++ previewTitle TrimSpace note filePath
                         ++ hashtagTail (processLabels (Labels note)))
                      (TextContent note
                         ++ attachmentsBlock (fst (gathered os r2Client folderPath note m))))
                   0 (drawnFloat (snd (gathered os r2Client folderPath note m))) j)).
    rewrite posts_retryEvents. reflexivity.
  - cbn [requestOf Token Content Note]. repeat split.
Qed.

(** X13.  In the version with the progress display, every request that
    [processMessage] sends for a note carries, as content, the marker,
    then the note's title or, for a note without one, the shortened file
    name followed by a colon and the preview (the first two lines of the
    text that are not blank, each trimmed and cut after thirty bytes,
    joined by a bar), then a space and the hashtags when there are any;
    the note field is the text and the attachments block, without
    hashtags.  Between one and six such requests are sent. *)
Theorem processMessage_title_with_preview
    TrimSpace os env note folderPath token r2Client filePath m :
  let res :=
    Progressive.processMessage TrimSpace os env note folderPath token r2Client filePath m in
  let links := fst (gathered os r2Client folderPath note m) in
  exists (j : nat) (body : DynalistRequest),
    (j <= 5)%nat /\
    posts (trace (snd res)) = List.app (posts (trace m)) (repeat body (S j)) /\
    Token body = token /\
    Content body = "gkeep: " ++ previewTitle TrimSpace note filePath
                     ++ hashtagTail (processLabels (Labels note)) /\
    Note body = TextContent note ++ attachmentsBlock links.
Proof. exact (processMessage_preview_posts TrimSpace os env note folderPath token r2Client filePath m). Qed.

Example processMessage_title_with_preview_ex :
  posts (trace (snd (Progressive.processMessage trimAsciiSpace os0
                       (envOf 0 half [] (response "Ok" "")) noteUntitled
                       "/takeout" "tok" None "/takeout/Keep/memo.json" machine0)))
  = [ requestOf "tok"
        "gkeep: memo: milk and eggs | call the plumber before the en... #Home"
        (TextContent noteUntitled) ].
Proof. vm_compute. reflexivity. Qed.

(** X14.  For a note without a title the content of the requests, the
    hashtags apart, is at most 96 bytes long: the marker, a shortened file
    name of at most 18 bytes and, when the text has a line that is not
    blank, a colon and a preview of at most 69 bytes.  The preview is
    empty exactly when the text is empty or every line of it is blank. *)
Theorem untitled_note_title_is_short
    TrimSpace os env note folderPath token r2Client filePath m :
  Title note = "" ->
  let res :=
    Progressive.processMessage TrimSpace os env note folderPath token r2Client filePath m in
  let preview :=
    if String.eqb (TextContent note) "" then ""
    else Progressive.previewLoop TrimSpace (Split (TextContent note) nl) "" 0 in
  exists (j : nat) (body : DynalistRequest) (title : string),
    posts (trace (snd res)) = List.app (posts (trace m)) (repeat body (S j)) /\
    Content body = title ++ hashtagTail (processLabels (Labels note)) /\
    title = "gkeep: " ++ shortenFilename filePath
              ++ (if String.eqb preview "" then "" else ": " ++ preview) /\
    (length title <= 96)%nat /\
    (length preview <= 69)%nat /\
    (preview = "" <->
     TextContent note = "" \/
     Forall (fun line => TrimSpace line = "") (Split (TextContent note) nl)).
Proof.
  intros HT res preview.
  destruct (processMessage_preview_posts
              TrimSpace os env note folderPath token r2Client filePath m)
    as (j & body & _ & Hp & _ & Hc & _).
  assert (Epre : preview = previewOf TrimSpace (TextContent note)).
  { unfold preview, previewOf. destruct (String.eqb (TextContent note) ""); [reflexivity|].
    rewrite previewLoop_first. reflexivity. }
  assert (Hlen : (length preview <= 69)%nat)
    by (rewrite Epre; apply previewOf_length).
  assert (Etitle : previewTitle TrimSpace note filePath =
                   shortenFilename filePath
                     ++ (if String.eqb preview "" then "" else ": " ++ preview)).
  { unfold previewTitle. rewrite HT, <- Epre. cbn [String.eqb].
    destruct preview; cbn [String.eqb]; [rewrite append_empty_r|]; reflexivity. }
  exists j, body,
    ("gkeep: " ++ shortenFilename filePath
       ++ (if String.eqb preview "" then "" else ": " ++ preview)).
  split; [exact Hp|]. split.
  - rewrite Hc, Etitle, !append_assoc. reflexivity.
  - split; [reflexivity|]. split.
    + rewrite !append_length.
      destruct (shortenFilename_form filePath) as (_ & H18 & _).
      destruct (String.eqb preview ""); rewrite ?append_length; cbn [length]; lia.
    + split; [exact Hlen|].
      unfold preview. destruct (String.eqb (TextContent note) "") eqn:E0.
      * apply String.eqb_eq in E0. tauto.
      * apply String.eqb_neq in E0. rewrite previewLoop_first.
        set (lines := Split (TextContent note) nl). clearbody lines.
        assert (G : filter (fun l => negb (String.eqb l "")) (map TrimSpace lines) = []
                    <-> Forall (fun line => TrimSpace line = "") lines).
        { induction lines as [|l ls IH]; cbn [map filter].
          - split; [constructor|reflexivity].
          - destruct (String.eqb (TrimSpace l) "") eqn:El; cbn [negb].
            + apply String.eqb_eq in El. rewrite IH. split.
              * intros H. constructor; assumption.
              * intros H. inversion H; assumption.
            + apply String.eqb_neq in El. split; [discriminate|].
              intros H. inversion H. contradiction. }
        split.
        -- intros H. right. apply G.
           destruct (filter (fun l => negb (String.eqb l "")) (map TrimSpace lines))
             as [|l1 [|l2 ls]] eqn:EF; [reflexivity| |].
           ++ exfalso. apply previewPiece_empty in H. subst l1.
              assert (In "" (filter (fun l => negb (String.eqb l "")) (map TrimSpace lines)))
                by (rewrite EF; left; reflexivity).
              apply filter_In in H. destruct H as [_ H]. discriminate.
           ++ exfalso. apply (f_equal length) in H. rewrite !append_length in H.
              cbn in H. lia.
        -- intros [H|H]; [contradiction|]. apply G in H. rewrite H. reflexivity.
Qed.

Lemma untitled_note_title_is_short_witness :
  let res :=
    Progressive.processMessage trimAsciiSpace os0 (envOf 0 half [] (response "Ok" ""))
      noteUntitled "/takeout" "tok" None "/takeout/Keep/memo.json" machine0 in
  let preview :=
    if String.eqb (TextContent noteUntitled) "" then ""
    else Progressive.previewLoop trimAsciiSpace (Split (TextContent noteUntitled) nl) "" 0 in
  exists (j : nat) (body : DynalistRequest) (title : string),
    posts (trace (snd res)) = List.app (posts (trace machine0)) (repeat body (S j)) /\
    Content body = title ++ hashtagTail (processLabels (Labels noteUntitled)) /\
    title = "gkeep: " ++ shortenFilename "/takeout/Keep/memo.json"
              ++ (if String.eqb preview "" then "" else ": " ++ preview) /\
    (length title <= 96)%nat /\
    (length preview <= 69)%nat /\
    (preview = "" <->
     TextContent noteUntitled = "" \/
     Forall (fun line => trimAsciiSpace line = "") (Split (TextContent noteUntitled) nl)).
Proof.
  apply (untitled_note_title_is_short trimAsciiSpace os0 (envOf 0 half [] (response "Ok" ""))
           noteUntitled "/takeout" "tok" None "/takeout/Keep/memo.json" machine0).
  reflexivity.
Defined.

(** X15.  For a note that has a title and no label the two versions of
    [processMessage] do the same: the same result and the same machine
    afterwards. *)
Theorem processMessage_versions_agree
    TrimSpace os env note folderPath token r2Client filePath m :
  Title note <> "" -> Labels note = [] ->
  Progressive.processMessage TrimSpace os env note folderPath token r2Client filePath m =
  processMessage os env note folderPath token r2Client filePath m.
Proof.
  intros HT HL. rewrite processMessage_preview_eq, processMessage_eq.
  cbn [payloadOf requestOf Content Note]. unfold previewTitle, titleOf.
  apply String.eqb_neq in HT. rewrite HT, HL.
  change (processLabels []) with "". cbn [hashtagTail hashtagBlock String.eqb].
  rewrite !append_empty_r. reflexivity.
Qed.

Lemma processMessage_versions_agree_witness :
  Progressive.processMessage trimAsciiSpace os0 (envOf 0 half [] (response "Ok" ""))
    noteThreePhotos "/takeout" "tok" (Some r2ok) "/takeout/Keep/n.json" machine0 =
  processMessage os0 (envOf 0 half [] (response "Ok" ""))
    noteThreePhotos "/takeout" "tok" (Some r2ok) "/takeout/Keep/n.json" machine0.
Proof.
  apply (processMessage_versions_agree trimAsciiSpace os0 (envOf 0 half [] (response "Ok" ""))
           noteThreePhotos "/takeout" "tok" (Some r2ok) "/takeout/Keep/n.json" machine0).
  - discriminate.
  - reflexivity.
Defined.

(** ** The version with the progress display: the counters *)

Lemma incrN_add a b x : incrN a (incrN b x) = incrN (a + b) x.
Proof. unfold incrN. symmetry. apply Nat.iter_add. Qed.

Lemma incr_small x : - 2 ^ 63 <= x + 1 < 2 ^ 63 -> incr x = x + 1.
Proof.
  intros H. unfold incr, wrap64.
  rewrite Z.mod_small by (change (2 ^ 64) with (2 * 2 ^ 63); lia). lia.
Qed.

Lemma incrN_small n : forall x,
  0 <= x -> x + Z.of_nat n < 2 ^ 63 -> incrN n x = x + Z.of_nat n.
Proof.
  induction n as [|n IH]; intros x H0 H.
  - cbn. lia.
  - rewrite incrN_S, incr_small by lia. rewrite IH by lia. lia.
Qed.

Lemma advanced_0 p : advanced p 0 0 = p.
Proof. destruct p. reflexivity. Qed.

Lemma advanced_advanced p a1 b1 a2 b2 :
  advanced (advanced p a1 b1) a2 b2 = advanced p (a2 + a1) (b2 + b1).
Proof. unfold advanced. cbn. rewrite !incrN_add. reflexivity. Qed.

Lemma processMessage_preview_counts
    TrimSpace os env note folderPath token r2Client filePath m :
  let res :=
    Progressive.processMessage TrimSpace os env note folderPath token r2Client filePath m in
  match fst res with
  | None =>
      SuccessfulCalls (Stats (snd res)) = incr (SuccessfulCalls (Stats m)) /\
      FailedCalls (Stats (snd res)) = FailedCalls (Stats m)
  | Some _ =>
      SuccessfulCalls (Stats (snd res)) = SuccessfulCalls (Stats m) /\
      FailedCalls (Stats (snd res)) = incr (FailedCalls (Stats m))
  end.
Proof.
  intros res. subst res. rewrite processMessage_preview_eq.
  destruct (gathered_inert os r2Client folderPath note m) as (_ & G2 & _).
  match goal with
  | |- context [AddToDynalist env ?t ?c ?n ?m1] =>
      destruct (AddToDynalist_facts env t c n m1)
        as (j & _ & _ & _ & _ & _ & _ & _ & _ & Hres);
      set (res := AddToDynalist env t c n m1) in *
  end.
  rewrite G2 in Hres.
  destruct (fst res); destruct Hres as (H1 & H2 & _); split; assumption.
Qed.

Lemma countJsonFiles_progress entries : forall w,
  Progressive.Progress (Progressive.countJsonFiles entries w) =
    {| Progressive.TotalNotes :=
         incrN (jsonFiles entries) (Progressive.TotalNotes (Progressive.Progress w));
       Progressive.ProcessedNotes := Progressive.ProcessedNotes (Progressive.Progress w);
       Progressive.SkippedNotes := Progressive.SkippedNotes (Progressive.Progress w);
       Progressive.StartTime := Progressive.StartTime (Progressive.Progress w) |} /\
  Progressive.displayed (Progressive.countJsonFiles entries w) = Progressive.displayed w /\
  Progressive.machine (Progressive.countJsonFiles entries w) = Progressive.machine w.
Proof.
  unfold Progressive.countJsonFiles.
  induction entries as [|e rest IH]; intros w.
  - destruct w as [[t p sk st] d mc]. repeat split.
  - cbn [fold_left]. destruct (IH (Progressive.countFn e w)) as (H1 & H2 & H3).
    rewrite H1, H2, H3. clear IH H1 H2 H3.
    unfold Progressive.countFn, jsonFiles, isJsonFile. cbn [filter].
    destruct (entryErr e); [repeat split|].
    destruct (negb (entryIsDir e) && String.eqb (Ext (entryPath e)) ".json");
      [|repeat split].
    cbn [List.length Progressive.updProgress Progressive.Progress Progressive.displayed
         Progressive.machine Progressive.incTotalNotes Progressive.TotalNotes
         Progressive.ProcessedNotes Progressive.SkippedNotes Progressive.StartTime].
    rewrite incrN_S. repeat split.
Qed.

Lemma jsonFiles_le_length entries : (jsonFiles entries <= List.length entries)%nat.
Proof. unfold jsonFiles. apply filter_length_le. Qed.

Lemma jsonFiles_visited entries : (jsonFiles (visited entries) <= jsonFiles entries)%nat.
Proof.
  unfold jsonFiles. induction entries as [|e rest IH]; [reflexivity|].
  cbn [visited filter]. unfold isJsonFile at 2. destruct (entryErr e) eqn:He.
  - cbn. lia.
  - cbn [filter]. unfold isJsonFile at 1. rewrite He.
    destruct (negb (entryIsDir e) && String.eqb (Ext (entryPath e)) ".json");
      cbn [List.length]; lia.
Qed.

Lemma visited_all entries : firstWalkError entries = None -> visited entries = entries.
Proof.
  induction entries as [|e rest IH]; [reflexivity|].
  cbn. destruct (entryErr e); [discriminate|]. intros H. rewrite IH by exact H. reflexivity.
Qed.

(** ** The progress bar on binary64 *)

Lemma binary_round_aux_stages s mx ex lx :
  binary_round_aux prec emax s mx ex lx =
  roundFinish s
    (round_nearest_even (shr_m (fst (shr_fexp prec emax mx ex lx)))
                        (loc_of_shr_record (fst (shr_fexp prec emax mx ex lx))))
    (snd (shr_fexp prec emax mx ex lx)).
Proof.
  unfold binary_round_aux, roundFinish.
  destruct (shr_fexp prec emax mx ex lx) as [r e]. reflexivity.
Qed.

Lemma roundFinish_53 s mr e :
  2 ^ 52 <= mr <= 2 ^ 53 -> -1074 <= e -> e + 1 <= 971 ->
  exists m e',
    roundFinish s mr e = S754_finite s m e' /\
    e <= e' <= e + 1 /\
    Zpos m * 2 ^ (e' - e) = mr /\
    2 ^ 52 <= Zpos m < 2 ^ 53.
Proof.
  intros Hr He He'.
  destruct mr as [|q|q]; [change (2 ^ 52) with 4503599627370496 in Hr; lia| |lia].
  destruct (Z.eqb_spec (Zpos q) (2 ^ 53)) as [E53|N53].
  - injection E53 as ->. exists 4503599627370496%positive, (e + 1).
    unfold roundFinish, shr_fexp. cbn [Zdigits2 shr_record_of_loc].
    change (Zpos (digits2_pos 9007199254740992)) with 54.
    rewrite fexp_normal by lia. replace (54 + e - 53 - e) with 1 by lia.
    cbn [shr iter_pos shr_1 shr_m orb].
    replace (e + 1 <=? emax - prec) with true
      by (symmetry; apply Z.leb_le; unfold emax, prec; lia).
    replace (e + 1 - e) with 1 by lia.
    repeat split; try lia; reflexivity.
  - assert (Hd' : Zpos (digits2_pos q) = 53).
    { apply digits2_pos_unique. change (2 ^ (53 - 1)) with (2 ^ 52). lia. }
    exists q, e.
    unfold roundFinish, shr_fexp. cbn [Zdigits2 shr_record_of_loc]. rewrite Hd'.
    rewrite fexp_normal by lia. replace (53 + e - 53 - e) with 0 by lia.
    cbn [shr shr_m].
    replace (e <=? emax - prec) with true
      by (symmetry; apply Z.leb_le; unfold emax, prec; lia).
    replace (e - e) with 0 by lia.
    repeat split; try lia.
Qed.

Lemma round_nearest_even_bounds r :
  shr_m r <= round_nearest_even (shr_m r) (loc_of_shr_record r) <= shr_m r + 1.
Proof.
  destruct r as [m [|] [|]]; cbn [shr_m loc_of_shr_record round_nearest_even]; try lia.
  destruct (Z.even m); lia.
Qed.

Lemma shr_m_of_loc m l : shr_m (shr_record_of_loc m l) = m.
Proof. destruct l as [|[| |]]; reflexivity. Qed.

Lemma shr_m_shr_1 r : 0 <= shr_m r -> shr_m (shr_1 r) = Z.div2 (shr_m r).
Proof.
  destruct r as [m rb sb]. cbn [shr_m]. intros Hm.
  rewrite shr_1_eq by assumption. reflexivity.
Qed.

Lemma shr_fexp_53 (q : positive) e l :
  2 ^ 52 <= Zpos q < 2 ^ 53 -> -1074 <= e ->
  shr_fexp prec emax (Zpos q) e l = (shr_record_of_loc (Zpos q) l, e).
Proof.
  intros Hq He.
  assert (Hd : Zpos (digits2_pos q) = 53).
  { apply digits2_pos_unique. change (2 ^ (53 - 1)) with (2 ^ 52). lia. }
  unfold shr_fexp. cbn [Zdigits2]. rewrite Hd.
  rewrite fexp_normal by lia. replace (53 + e - 53 - e) with 0 by lia.
  reflexivity.
Qed.

Lemma shr_fexp_54 (q : positive) e l :
  2 ^ 53 <= Zpos q < 2 ^ 54 -> -1074 <= e ->
  shr_fexp prec emax (Zpos q) e l = (shr_1 (shr_record_of_loc (Zpos q) l), e + 1).
Proof.
  intros Hq He.
  assert (Hd : Zpos (digits2_pos q) = 54).
  { apply digits2_pos_unique. change (2 ^ (54 - 1)) with (2 ^ 53). lia. }
  unfold shr_fexp. cbn [Zdigits2]. rewrite Hd.
  rewrite fexp_normal by lia. replace (54 + e - 53 - e) with 1 by lia.
  reflexivity.
Qed.

(** Rounding a quotient of 53 or 54 bits, whatever lies beyond it. *)
Lemma binary_round_aux_quotient s (q : positive) e l :
  2 ^ 52 <= Zpos q < 2 ^ 54 -> -1074 <= e -> e + 2 <= 971 ->
  exists m e',
    binary_round_aux prec emax s (Zpos q) e l = S754_finite s m e' /\
    e <= e' <= e + 2 /\
    Zpos m * 2 ^ (e' - e) <= Zpos q + 2 /\
    Zpos m < 2 ^ 53.
Proof.
  intros Hq He He'. rewrite binary_round_aux_stages.
  destruct (Z.lt_ge_cases (Zpos q) (2 ^ 53)) as [H53|H54].
  - rewrite shr_fexp_53 by lia. cbn [fst snd].
    pose proof (round_nearest_even_bounds (shr_record_of_loc (Zpos q) l)) as HB.
    set (mr := round_nearest_even _ _) in *.
    rewrite shr_m_of_loc in HB.
    destruct (roundFinish_53 s mr e ltac:(lia) He ltac:(lia))
      as (m & e' & -> & Hee & Hv & Hm).
    exists m, e'. repeat split; try lia.
  - rewrite shr_fexp_54 by lia. cbn [fst snd].
    pose proof (round_nearest_even_bounds (shr_1 (shr_record_of_loc (Zpos q) l))) as HB.
    set (mr := round_nearest_even _ _) in *.
    rewrite shr_m_shr_1 in HB by (rewrite shr_m_of_loc; lia).
    rewrite shr_m_of_loc in HB.
    pose proof (Z.div2_odd (Zpos q)) as Hd.
    assert (Hb : 0 <= Z.b2z (Z.odd (Zpos q)) <= 1) by (destruct (Z.odd (Zpos q)); cbn; lia).
    change (2 ^ 54) with (2 * 2 ^ 53) in Hq. change (2 ^ 53) with (2 * 2 ^ 52) in H54, Hq.
    destruct (roundFinish_53 s mr (e + 1)
                ltac:(change (2 ^ 53) with (2 * 2 ^ 52); lia) ltac:(lia) ltac:(lia))
      as (m & e' & -> & Hee & Hv & Hm).
    exists m, e'. split; [reflexivity|]. split; [lia|]. split; [|lia].
    replace (e' - e) with (e' - (e + 1) + 1) by lia.
    rewrite pow2_double by lia. lia.
Qed.

Lemma SFdiv_core_53 (m1 m2 : positive) e1 e2 :
  2 ^ 52 <= Zpos m1 < 2 ^ 53 -> 2 ^ 52 <= Zpos m2 < 2 ^ 53 ->
  -1021 <= e1 - e2 ->
  SFdiv_core_binary prec emax (Zpos m1) e1 (Zpos m2) e2 =
  ((Zpos m1 * 2 ^ 53) / Zpos m2, e1 - e2 - 53,
   new_location (Zpos m2) ((Zpos m1 * 2 ^ 53) mod Zpos m2)).
Proof.
  intros H1 H2 He.
  assert (Hd1 : Zpos (digits2_pos m1) = 53).
  { apply digits2_pos_unique. change (2 ^ (53 - 1)) with (2 ^ 52). lia. }
  assert (Hd2 : Zpos (digits2_pos m2) = 53).
  { apply digits2_pos_unique. change (2 ^ (53 - 1)) with (2 ^ 52). lia. }
  unfold SFdiv_core_binary. cbn [Zdigits2]. rewrite Hd1, Hd2.
  replace (53 + e1 - (53 + e2)) with (e1 - e2) by lia.
  rewrite fexp_normal by lia.
  rewrite Z.min_l by lia.
  replace (e1 - e2 - (e1 - e2 - 53)) with 53 by lia.
  cbv iota.
  rewrite Z.shiftl_mul_pow2 by lia.
  unfold Z.div, Z.modulo.
  destruct (Z.div_eucl (Zpos m1 * 2 ^ 53) (Zpos m2)) as [q r]. reflexivity.
Qed.

(** The quotient of two binary64 numbers with full mantissas. *)
Lemma SFdiv_53 (m1 m2 : positive) e1 e2 :
  2 ^ 52 <= Zpos m1 < 2 ^ 53 -> 2 ^ 52 <= Zpos m2 < 2 ^ 53 ->
  -1021 <= e1 - e2 <= 1000 ->
  exists m e,
    SFdiv prec emax (S754_finite false m1 e1) (S754_finite false m2 e2)
      = S754_finite false m e /\
    e1 - e2 - 53 <= e <= e1 - e2 - 51 /\
    Zpos m * 2 ^ (e - (e1 - e2 - 53)) * Zpos m2 <= Zpos m1 * 2 ^ 53 + 2 * Zpos m2 /\
    Zpos m < 2 ^ 53.
Proof.
  intros H1 H2 He.
  unfold SFdiv. rewrite SFdiv_core_53 by lia. cbn [xorb].
  pose proof (Z.div_mod (Zpos m1 * 2 ^ 53) (Zpos m2) ltac:(lia)) as HD.
  pose proof (Z.mod_pos_bound (Zpos m1 * 2 ^ 53) (Zpos m2) ltac:(lia)) as HM.
  set (q := Zpos m1 * 2 ^ 53 / Zpos m2) in *.
  set (r := (Zpos m1 * 2 ^ 53) mod Zpos m2) in *.
  assert (Hq : 2 ^ 52 <= q < 2 ^ 54).
  { change (2 ^ 54) with 18014398509481984. change (2 ^ 53) with 9007199254740992 in *.
    change (2 ^ 52) with 4503599627370496 in *. split; nia. }
  destruct q as [|qp|qp]; [change (2 ^ 52) with 4503599627370496 in Hq; lia| |lia].
  destruct (binary_round_aux_quotient false qp (e1 - e2 - 53)
              (new_location (Zpos m2) r) Hq ltac:(lia) ltac:(lia))
    as (m & e & -> & Hee & Hv & Hm).
  exists m, e. split; [reflexivity|]. split; [lia|]. split; [|exact Hm].
  nia.
Qed.

Lemma shl_align_snd mx ex ex' : ex' <= ex -> snd (shl_align mx ex ex') = ex'.
Proof.
  intros H. unfold shl_align. destruct (ex' - ex) eqn:E; cbn [snd]; lia.
Qed.

(** [float64(z)] for a positive [int64]: a full mantissa, within half a
    unit in the last place of [z]. *)
Lemma float64_of_int_pos z :
  1 <= z < 2 ^ 63 ->
  exists m e,
    float64_of_int z = S754_finite false m e /\
    2 ^ 52 <= Zpos m < 2 ^ 53 /\
    -52 <= e <= 11 /\
    - (Zpos m * 2 ^ (e + 52)) <= 2 ^ 53 * (Zpos m * 2 ^ (e + 52) - z * 2 ^ 52)
      <= Zpos m * 2 ^ (e + 52).
Proof.
  intros Hz. destruct z as [|p|p]; try lia.
  unfold float64_of_int, binary_normalize, binary_round.
  pose proof (digits2_pos_bounds p) as HB.
  set (d := Zpos (digits2_pos p)) in *.
  assert (Hd : 1 <= d <= 63).
  { split; [unfold d; lia|].
    destruct (Z.le_gt_cases d 63) as [H|H]; [exact H|].
    assert (2 ^ 63 <= 2 ^ (d - 1)) by (apply Z.pow_le_mono_r; lia). lia. }
  replace (d + 0) with d by lia. rewrite fexp_normal by lia.
  destruct (Z.le_gt_cases d 53) as [Hs|Hl].
  - (* the integer fits the mantissa *)
    pose proof (shl_align_fst p 0 (d - 53) ltac:(lia)) as Hf.
    pose proof (shl_align_snd p 0 (d - 53) ltac:(lia)) as Hsn.
    destruct (shl_align p 0 (d - 53)) as [mz ez]. cbn [fst snd] in Hf, Hsn. subst ez.
    replace (0 - (d - 53)) with (53 - d) in Hf by lia.
    assert (E53 : 2 ^ 53 = 2 ^ d * 2 ^ (53 - d)).
    { rewrite <- Z.pow_add_r by lia. f_equal. lia. }
    assert (E52 : 2 ^ 52 = 2 ^ (d - 1) * 2 ^ (53 - d)).
    { rewrite <- Z.pow_add_r by lia. f_equal. lia. }
    assert (Hpos : 0 < 2 ^ (53 - d)) by (apply Z.pow_pos_nonneg; lia).
    assert (Hm : 2 ^ 52 <= Zpos mz < 2 ^ 53).
    { rewrite Hf, E52, E53. split; nia. }
    assert (Hdz : Zpos (digits2_pos mz) = 53).
    { apply digits2_pos_unique. change (2 ^ (53 - 1)) with (2 ^ 52). exact Hm. }
    rewrite binary_round_aux_53 by (try assumption; lia).
    replace (d - 53 <=? 971) with true by (symmetry; apply Z.leb_le; lia).
    exists mz, (d - 53). split; [reflexivity|]. split; [exact Hm|]. split; [lia|].
    replace (d - 53 + 52) with (d - 1) by lia.
    assert (EV : Zpos mz * 2 ^ (d - 1) = Zpos p * 2 ^ 52).
    { rewrite Hf, E52. ring. }
    rewrite EV.
    assert (0 <= Zpos p * 2 ^ 52) by (change (2 ^ 52) with 4503599627370496; lia).
    lia.
  - (* the integer is rounded *)
    rewrite shl_align_id by lia.
    set (k := Z.to_pos (d - 53)).
    assert (Hk : Zpos k = d - 53) by (unfold k; rewrite Z2Pos.id; lia).
    rewrite (binary_round_aux_shift false p k 0) by (fold d; lia).
    cbv zeta.
    assert (HP : 2 ^ (Zpos k + 52) <= Zpos p < 2 ^ (Zpos k + 53)).
    { rewrite Hk. replace (d - 53 + 52) with (d - 1) by lia.
      replace (d - 53 + 53) with d by lia. exact HB. }
    pose proof (roundShift_range (Zpos p) k HP) as HR.
    pose proof (roundShift_half_ulp (Zpos p) k ltac:(lia)) as HU.
    rewrite pow2_double in HU by lia.
    set (q := roundShift (Zpos p) k) in *.
    assert (Hpk : 0 < 2 ^ Zpos k) by (apply Z.pow_pos_nonneg; lia).
    assert (EK : 2 ^ (Zpos k + 52) = 2 ^ Zpos k * 2 ^ 52) by (apply Z.pow_add_r; lia).
    assert (Main : - (q * 2 ^ (Zpos k + 52))
                   <= 2 ^ 53 * (q * 2 ^ (Zpos k + 52) - Zpos p * 2 ^ 52)
                   <= q * 2 ^ (Zpos k + 52)).
    { rewrite EK. change (2 ^ 53) with 9007199254740992 in *.
      change (2 ^ 52) with 4503599627370496 in *. split; nia. }
    destruct (Z.eqb_spec q (2 ^ 53)) as [E|N].
    + replace (0 + Zpos k + 1 <=? 971) with true by (symmetry; apply Z.leb_le; lia).
      exists 4503599627370496%positive, (0 + Zpos k + 1).
      split; [reflexivity|].
      split; [change (2 ^ 52) with 4503599627370496; change (2 ^ 53) with 9007199254740992; lia|].
      split; [lia|].
      replace (Zpos 4503599627370496 * 2 ^ (0 + Zpos k + 1 + 52))
        with (q * 2 ^ (Zpos k + 52)); [exact Main|].
      rewrite E. replace (0 + Zpos k + 1 + 52) with (Zpos k + 52 + 1) by lia.
      rewrite pow2_double by lia. change (2 ^ 53) with (2 * 4503599627370496). ring.
    + replace (0 + Zpos k <=? 971) with true by (symmetry; apply Z.leb_le; lia).
      exists (Z.to_pos q), (0 + Zpos k).
      assert (Hq0 : 0 < q) by (change (2 ^ 52) with 4503599627370496 in HR; lia).
      rewrite Z2Pos.id by exact Hq0.
      split; [reflexivity|]. split; [lia|]. split; [lia|].
      replace (0 + Zpos k + 52) with (Zpos k + 52) by lia. exact Main.
Qed.

Lemma float64_of_width :
  float64_of_int Progressive.width = S754_finite false 8444249301319680 (-48).
Proof. vm_compute. reflexivity. Qed.

(** [float64(width) * x] for a binary64 [x] with a full mantissa. *)
Lemma width_times (mP : positive) eP :
  2 ^ 52 <= Zpos mP < 2 ^ 53 -> -52 <= eP <= 11 ->
  exists m e,
    SFmul prec emax (float64_of_int Progressive.width) (S754_finite false mP eP)
      = S754_finite false m e /\
    2 ^ 52 <= Zpos m < 2 ^ 53 /\
    eP + 4 <= e <= eP + 6 /\
    - (Zpos m * 2 ^ (e + 52))
      <= 2 ^ 53 * (Zpos m * 2 ^ (e + 52) - 30 * (Zpos mP * 2 ^ (eP + 52)))
      <= Zpos m * 2 ^ (e + 52).
Proof.
  intros Hm He. rewrite float64_of_width. cbn [SFmul xorb].
  set (W := 2 ^ (eP + 52)).
  assert (HW : 0 < W) by (apply Z.pow_pos_nonneg; lia).
  assert (Hprod : Zpos (8444249301319680 * mP) = 8444249301319680 * Zpos mP) by reflexivity.
  assert (Cases : Zpos (8444249301319680 * mP) < 2 ^ 105 \/
                  2 ^ 105 <= Zpos (8444249301319680 * mP)) by lia.
  assert (Gen : forall k : positive, (k = 52 \/ k = 53)%positive ->
            2 ^ (Zpos k + 52) <= Zpos (8444249301319680 * mP) < 2 ^ (Zpos k + 53) ->
            exists m e,
              binary_round_aux prec emax false (Zpos (8444249301319680 * mP)) (-48 + eP)
                               loc_Exact = S754_finite false m e /\
              2 ^ 52 <= Zpos m < 2 ^ 53 /\
              eP + 4 <= e <= eP + 6 /\
              - (Zpos m * 2 ^ (e + 52))
                <= 2 ^ 53 * (Zpos m * 2 ^ (e + 52) - 30 * (Zpos mP * W))
                <= Zpos m * 2 ^ (e + 52)).
  { intros k Hk HP.
    assert (Hdig : Zpos (digits2_pos (8444249301319680 * mP)) = Zpos k + 53).
    { apply digits2_pos_unique. replace (Zpos k + 53 - 1) with (Zpos k + 52) by lia.
      exact HP. }
    rewrite (binary_round_aux_shift false _ k (-48 + eP) Hdig) by lia.
    cbv zeta.
    pose proof (roundShift_range _ k HP) as HR.
    pose proof (roundShift_half_ulp (Zpos (8444249301319680 * mP)) k ltac:(lia)) as HU.
    set (q := roundShift (Zpos (8444249301319680 * mP)) k) in *.
    rewrite Hprod in HU.
    assert (EW : forall j, 0 <= j -> 2 ^ (eP + 52 + j) = W * 2 ^ j).
    { intros j Hj. unfold W. apply Z.pow_add_r; lia. }
    assert (Main : - (q * 2 ^ (-48 + eP + Zpos k + 52))
                   <= 2 ^ 53 * (q * 2 ^ (-48 + eP + Zpos k + 52) - 30 * (Zpos mP * W))
                   <= q * 2 ^ (-48 + eP + Zpos k + 52)).
    { replace (-48 + eP + Zpos k + 52) with (eP + 52 + (Zpos k - 48)) by lia.
      rewrite EW by lia.
      destruct Hk as [-> | ->].
      - change (2 ^ (52 - 48)) with 16. change (2 ^ (52 + 1)) with 9007199254740992 in HU.
        change (2 ^ 52) with 4503599627370496 in *. change (2 ^ 53) with 9007199254740992 in *.
        split; nia.
      - change (2 ^ (53 - 48)) with 32. change (2 ^ (53 + 1)) with 18014398509481984 in HU.
        change (2 ^ 52) with 4503599627370496 in *. change (2 ^ 53) with 9007199254740992 in *.
        split; nia. }
    destruct (Z.eqb_spec q (2 ^ 53)) as [E|N].
    - replace (-48 + eP + Zpos k + 1 <=? 971) with true
        by (symmetry; apply Z.leb_le; lia).
      exists 4503599627370496%positive, (-48 + eP + Zpos k + 1).
      split; [reflexivity|].
      split; [change (2 ^ 52) with 4503599627370496; change (2 ^ 53) with 9007199254740992; lia|].
      split; [lia|].
      replace (Zpos 4503599627370496 * 2 ^ (-48 + eP + Zpos k + 1 + 52))
        with (q * 2 ^ (-48 + eP + Zpos k + 52)); [exact Main|].
      rewrite E. replace (-48 + eP + Zpos k + 1 + 52) with (-48 + eP + Zpos k + 52 + 1) by lia.
      rewrite pow2_double by lia. change (2 ^ 53) with (2 * 4503599627370496). ring.
    - replace (-48 + eP + Zpos k <=? 971) with true by (symmetry; apply Z.leb_le; lia).
      exists (Z.to_pos q), (-48 + eP + Zpos k).
      assert (Hq0 : 0 < q) by (change (2 ^ 52) with 4503599627370496 in HR; lia).
      rewrite Z2Pos.id by exact Hq0.
      split; [reflexivity|]. split; [lia|]. split; [lia|]. exact Main. }
  fold W.
  destruct Cases as [C|C].
  - apply (Gen 52%positive); [left; reflexivity|].
    change (2 ^ (52 + 52)) with 20282409603651670423947251286016.
    change (2 ^ (52 + 53)) with (2 ^ 105). split; [|exact C].
    rewrite Hprod. change (2 ^ 52) with 4503599627370496 in Hm. lia.
  - apply (Gen 53%positive); [right; reflexivity|].
    change (2 ^ (53 + 52)) with (2 ^ 105). split; [exact C|].
    rewrite Hprod. change (2 ^ (53 + 53)) with 81129638414606681695789005144064.
    change (2 ^ 53) with 9007199254740992 in Hm. lia.
Qed.

(** The bar never has less than no cell nor more than [width] cells while
    the notes processed are between none and all. *)
Lemma completed_in_range (p : Progressive.ProgressStats) :
  0 <= Progressive.ProcessedNotes p <= Progressive.TotalNotes p ->
  1 <= Progressive.TotalNotes p < 2 ^ 63 ->
  0 <= Progressive.completed p <= Progressive.width.
Proof.
  intros HP HT. unfold Progressive.completed.
  set (P := Progressive.ProcessedNotes p) in *.
  set (T := Progressive.TotalNotes p) in *.
  destruct (float64_of_int_pos T HT) as (mT & eT & -> & HmT & HeT & HVT).
  destruct (Z.eq_dec P 0) as [->|HP0].
  { change (float64_of_int 0) with (S754_zero false).
    rewrite float64_of_width. cbn. unfold Progressive.width. lia. }
  destruct (float64_of_int_pos P ltac:(lia)) as (mP & eP & -> & HmP & HeP & HVP).
  destruct (width_times mP eP HmP HeP) as (m1 & e1 & -> & Hm1 & He1 & HVA).
  destruct (SFdiv_53 m1 mT e1 eT Hm1 HmT ltac:(lia)) as (m & e & -> & Hee & Hv & Hm).
  set (a := 2 ^ (e1 + 52)) in *. set (b := 2 ^ (eT + 52)) in *.
  set (VP := Zpos mP * 2 ^ (eP + 52)) in *.
  assert (Ha : 0 < a) by (apply Z.pow_pos_nonneg; lia).
  assert (Hb : 0 < b) by (apply Z.pow_pos_nonneg; lia).
  (* the product is at most a little over thirty times the total *)
  assert (HAT : 100 * (Zpos m1 * a) <= 3001 * (Zpos mT * b)).
  { change (2 ^ 53) with 9007199254740992 in HVA, HVP, HVT.
    change (2 ^ 52) with 4503599627370496 in HVP, HVT. lia. }
  (* so the exponents are close *)
  assert (Hexp : e1 - eT <= 5).
  { destruct (Z.le_gt_cases (e1 - eT) 5) as [H|H]; [exact H|exfalso].
    assert (Hab : 2 ^ 6 * b <= a).
    { unfold a, b. rewrite <- Z.pow_add_r by lia. apply Z.pow_le_mono_r; lia. }
    change (2 ^ 6) with 64 in Hab.
    change (2 ^ 52) with 4503599627370496 in Hm1, HmT.
    change (2 ^ 53) with 9007199254740992 in Hm1, HmT.
    assert (G1 : 4503599627370496 * (64 * b) <= Zpos m1 * a)
      by (apply Z.mul_le_mono_nonneg; lia).
    assert (G2 : Zpos mT * b <= 9007199254740992 * b)
      by (apply Z.mul_le_mono_nonneg_r; lia).
    lia. }
  rewrite int64_of_small by (try assumption; lia).
  set (N := 53 + eT - e1).
  set (j := e - (e1 - eT - 53)) in *.
  assert (Hj : 0 <= j <= 2) by (unfold j; lia).
  assert (HN : 48 <= N) by (unfold N; lia).
  replace (- e) with (N - j) by (unfold N, j; lia).
  assert (Hpj : 0 < 2 ^ j) by (apply Z.pow_pos_nonneg; lia).
  assert (HpNj : 0 < 2 ^ (N - j)) by (apply Z.pow_pos_nonneg; lia).
  assert (ENj : 2 ^ N = 2 ^ j * 2 ^ (N - j)).
  { rewrite <- Z.pow_add_r by lia. f_equal. lia. }
  assert (ENa : 2 ^ N * a = 2 ^ 53 * b).
  { unfold a, b, N. rewrite <- !Z.pow_add_r by lia. f_equal. lia. }
  assert (Hab : a <= 32 * b).
  { unfold a, b. change 32 with (2 ^ 5). rewrite <- Z.pow_add_r by lia.
    apply Z.pow_le_mono_r; lia. }
  assert (Hlt : Zpos m < 31 * 2 ^ (N - j)).
  { destruct (Z.lt_ge_cases (Zpos m) (31 * 2 ^ (N - j))) as [H|H]; [exact H|exfalso].
    assert (H0 : 31 * 2 ^ (N - j) * (2 ^ j * Zpos mT) <= Zpos m * (2 ^ j * Zpos mT))
      by (apply Z.mul_le_mono_nonneg_r; lia).
    assert (H1 : 31 * 2 ^ N * Zpos mT <= Zpos m1 * 2 ^ 53 + 2 * Zpos mT).
    { rewrite ENj.
      replace (31 * (2 ^ j * 2 ^ (N - j)) * Zpos mT)
        with (31 * 2 ^ (N - j) * (2 ^ j * Zpos mT)) by ring.
      replace (Zpos m * 2 ^ j * Zpos mT) with (Zpos m * (2 ^ j * Zpos mT)) in Hv by ring.
      lia. }
    assert (H2 : 100 * a * (31 * 2 ^ N * Zpos mT)
                 <= 100 * a * (Zpos m1 * 2 ^ 53 + 2 * Zpos mT))
      by (apply Z.mul_le_mono_nonneg_l; lia).
    replace (100 * a * (31 * 2 ^ N * Zpos mT))
      with (3100 * (2 ^ N * a) * Zpos mT) in H2 by ring.
    rewrite ENa in H2.
    replace (100 * a * (Zpos m1 * 2 ^ 53 + 2 * Zpos mT))
      with (2 ^ 53 * (100 * (Zpos m1 * a)) + 200 * (a * Zpos mT)) in H2 by ring.
    assert (H3 : 2 ^ 53 * (100 * (Zpos m1 * a)) <= 2 ^ 53 * (3001 * (Zpos mT * b)))
      by (apply Z.mul_le_mono_nonneg_l; lia).
    assert (H4 : a * Zpos mT <= 32 * b * Zpos mT)
      by (apply Z.mul_le_mono_nonneg_r; lia).
    assert (H5 : 0 < Zpos mT * b) by (apply Z.mul_pos_pos; lia).
    replace (3100 * (2 ^ 53 * b) * Zpos mT) with (3100 * 2 ^ 53 * (Zpos mT * b)) in H2 by ring.
    replace (2 ^ 53 * (3001 * (Zpos mT * b))) with (3001 * 2 ^ 53 * (Zpos mT * b)) in H3 by ring.
    replace (32 * b * Zpos mT) with (32 * (Zpos mT * b)) in H4 by ring.
    change (2 ^ 53) with 9007199254740992 in H2, H3.
    set (X := Zpos mT * b) in *. lia. }
  unfold Progressive.width. split.
  - apply Z.div_pos; lia.
  - assert (Zpos m / 2 ^ (N - j) < 31); [|lia].
    apply Z.div_lt_upper_bound; lia.
Qed.

(** ** The version with the progress display: the run *)

Lemma displayProgress_returns (w : Progressive.World) :
  0 <= Progressive.ProcessedNotes (Progressive.Progress w)
    <= Progressive.TotalNotes (Progressive.Progress w) ->
  1 <= Progressive.TotalNotes (Progressive.Progress w) < 2 ^ 63 ->
  Progressive.displayProgress w =
  Some {| Progressive.Progress := Progressive.Progress w;
          Progressive.displayed :=
            List.app (Progressive.displayed w)
                     [(Progressive.Progress w, Stats (Progressive.machine w))];
          Progressive.machine := Progressive.machine w |}.
Proof.
  intros HP HT. unfold Progressive.displayProgress. cbv zeta.
  pose proof (completed_in_range (Progressive.Progress w) HP HT) as HC.
  unfold Progressive.width in *.
  destruct (Z.ltb_spec (Progressive.completed (Progressive.Progress w)) 0); [lia|].
  destruct (Z.ltb_spec (30 - Progressive.completed (Progressive.Progress w)) 0); [lia|].
  reflexivity.
Qed.

Lemma skipNote_returns (w : Progressive.World) :
  0 <= Progressive.ProcessedNotes (Progressive.Progress w)
    <= Progressive.TotalNotes (Progressive.Progress w) ->
  1 <= Progressive.TotalNotes (Progressive.Progress w) < 2 ^ 63 ->
  exists w',
    Progressive.skipNote w = Some w' /\
    Progressive.Progress w' = advanced (Progressive.Progress w) 0 1 /\
    Progressive.machine w' = Progressive.machine w /\
    Progressive.displayed w' =
      List.app (Progressive.displayed w)
        [(advanced (Progressive.Progress w) 0 1, Stats (Progressive.machine w))].
Proof.
  intros HP HT. unfold Progressive.skipNote.
  rewrite displayProgress_returns by (destruct w as [[t p sk st] d mc]; assumption).
  eexists. split; [reflexivity|].
  destruct w as [[t p sk st] d mc]. repeat split.
Qed.

(** One entry without a walk error, seen by the callback. *)
Lemma walkFn_progress TrimSpace os env folderPath token r2Client e w :
  entryErr e = None ->
  (isJsonFile e = true ->
   0 <= Progressive.ProcessedNotes (Progressive.Progress w) /\
   Progressive.ProcessedNotes (Progressive.Progress w) + 1
     <= Progressive.TotalNotes (Progressive.Progress w) /\
   Progressive.TotalNotes (Progressive.Progress w) < 2 ^ 63) ->
  exists (w' : Progressive.World) (n f s : nat),
    Progressive.walkFn TrimSpace os env folderPath token r2Client e w = Some (None, w') /\
    (n + f)%nat = (if passedOver os e then 0 else 1)%nat /\
    (n + s)%nat = (if isJsonFile e then 1 else 0)%nat /\
    Progressive.Progress w' = advanced (Progressive.Progress w) n s /\
    SuccessfulCalls (Stats (Progressive.machine w'))
      = incrN n (SuccessfulCalls (Stats (Progressive.machine w))) /\
    FailedCalls (Stats (Progressive.machine w'))
      = incrN f (FailedCalls (Stats (Progressive.machine w))) /\
    Progressive.displayed w' =
      List.app (Progressive.displayed w)
        (if isJsonFile e
         then [(advanced (Progressive.Progress w) n s, Stats (Progressive.machine w'))]
         else []).
Proof.
  intros He. unfold Progressive.walkFn, passedOver, isJsonFile. rewrite He.
  destruct (entryIsDir e); cbn [orb negb andb].
  { intros _. exists w, 0%nat, 0%nat, 0%nat.
    rewrite advanced_0, app_nil_r. repeat split. }
  destruct (String.eqb (Ext (entryPath e)) ".json"); cbn [orb negb andb].
  2:{ intros _. exists w, 0%nat, 0%nat, 0%nat.
      rewrite advanced_0, app_nil_r. repeat split. }
  intros Hroom. destruct (Hroom eq_refl) as (HP0 & HP1 & HT). clear Hroom.
  assert (Hskip : forall m1,
            exists w',
              Progressive.skipNote (Progressive.setMachine m1 w) = Some w' /\
              Progressive.Progress w' = advanced (Progressive.Progress w) 0 1 /\
              Progressive.machine w' = m1 /\
              Progressive.displayed w' =
                List.app (Progressive.displayed w)
                  [(advanced (Progressive.Progress w) 0 1, Stats m1)]).
  { intros m1.
    destruct (skipNote_returns (Progressive.setMachine m1 w)) as (w' & H1 & H2 & H3 & H4);
      [cbn; lia|cbn; lia|].
    exists w'. split; [exact H1|]. split; [exact H2|]. split; [exact H3|exact H4]. }
  assert (Hsame : Progressive.setMachine (Progressive.machine w) w = w)
    by (destruct w; reflexivity).
  destruct (parseKeepNote os (entryPath e)) as [note|msg].
  - destruct (IsArchived note).
    + destruct (Hskip (Progressive.machine w)) as (w' & H1 & H2 & H3 & H4).
      rewrite Hsame in H1. rewrite H1. cbn [Progressive.returnNil].
      exists w', 0%nat, 0%nat, 1%nat. rewrite H2, H3, H4. repeat split.
    + pose proof (processMessage_preview_counts TrimSpace os env note folderPath token
                    r2Client (entryPath e) (Progressive.machine w)) as HC.
      cbv zeta in HC.
      destruct (Progressive.processMessage TrimSpace os env note folderPath token r2Client
                  (entryPath e) (Progressive.machine w)) as [[err|] m1];
        cbn [fst snd] in HC; destruct HC as [HS HF].
      * destruct (Hskip m1) as (w' & H1 & H2 & H3 & H4).
        rewrite H1. cbn [Progressive.returnNil].
        exists w', 0%nat, 1%nat, 1%nat. rewrite H2, H3, H4. repeat split; assumption.
      * rewrite displayProgress_returns.
        -- cbn [Progressive.returnNil]. eexists. exists 1%nat, 0%nat, 0%nat.
           split; [reflexivity|].
           destruct w as [[t p sk st] d mc].
           cbn [Progressive.machine] in HS, HF. repeat split; assumption.
        -- destruct w as [[t p sk st] d mc]. cbn in *.
           rewrite incr_small by lia. lia.
        -- destruct w as [[t p sk st] d mc]. cbn in *. lia.
  - destruct (Hskip (Progressive.machine w)) as (w' & H1 & H2 & H3 & H4).
    rewrite Hsame in H1. rewrite H1. cbn [Progressive.returnNil].
    exists w', 0%nat, 0%nat, 1%nat. rewrite H2, H3, H4. repeat split.
Qed.

Lemma processKeepFolder_progress TrimSpace os env folderPath token r2Client entries :
  forall w,
  0 <= Progressive.ProcessedNotes (Progressive.Progress w) ->
  Progressive.ProcessedNotes (Progressive.Progress w) + Z.of_nat (jsonFiles (visited entries))
    <= Progressive.TotalNotes (Progressive.Progress w) ->
  Progressive.TotalNotes (Progressive.Progress w) < 2 ^ 63 ->
  exists (w' : Progressive.World) (n f s : nat)
         (ds : list (Progressive.ProgressStats * RetryStats)),
    Progressive.processKeepFolder TrimSpace os env folderPath token r2Client entries w
      = Some (firstWalkError entries, w') /\
    (n + f)%nat = handedOver os entries /\
    (n + s)%nat = jsonFiles (visited entries) /\
    Progressive.Progress w' = advanced (Progressive.Progress w) n s /\
    SuccessfulCalls (Stats (Progressive.machine w'))
      = incrN n (SuccessfulCalls (Stats (Progressive.machine w))) /\
    FailedCalls (Stats (Progressive.machine w'))
      = incrN f (FailedCalls (Stats (Progressive.machine w))) /\
    Progressive.displayed w' = List.app (Progressive.displayed w) ds /\
    List.length ds = jsonFiles (visited entries) /\
    Forall (fun d => exists a b : nat,
              (1 <= a + b <= jsonFiles (visited entries))%nat /\
              fst d = advanced (Progressive.Progress w) a b) ds.
Proof.
  induction entries as [|e rest IH]; intros w HP0 HPk HT.
  - exists w, 0%nat, 0%nat, 0%nat, []. cbn [Progressive.processKeepFolder firstWalkError].
    rewrite advanced_0, app_nil_r. repeat split. constructor.
  - cbn [Progressive.processKeepFolder firstWalkError visited].
    unfold handedOver. cbn [visited]. cbn [visited] in HPk.
    destruct (entryErr e) as [err|] eqn:He.
    + assert (Hw : Progressive.walkFn TrimSpace os env folderPath token r2Client e w
                   = Some (Some err, w)).
      { unfold Progressive.walkFn. rewrite He. reflexivity. }
      rewrite Hw. exists w, 0%nat, 0%nat, 0%nat, [].
      rewrite advanced_0, app_nil_r. repeat split. constructor.
    + assert (J : jsonFiles (e :: visited rest)
                  = ((if isJsonFile e then 1 else 0) + jsonFiles (visited rest))%nat).
      { unfold jsonFiles. cbn [filter]. destruct (isJsonFile e); reflexivity. }
      rewrite J in HPk |- *.
      destruct (walkFn_progress TrimSpace os env folderPath token r2Client e w He)
        as (w1 & n1 & f1 & s1 & Hw & A1 & A2 & A3 & A4 & A5 & A6).
      { intros Hj. rewrite Hj in HPk. lia. }
      rewrite Hw.
      assert (HP1 : Progressive.ProcessedNotes (Progressive.Progress w1)
                    = Progressive.ProcessedNotes (Progressive.Progress w) + Z.of_nat n1).
      { rewrite A3. unfold advanced. cbn [Progressive.ProcessedNotes].
        apply incrN_small; [exact HP0|]. destruct (isJsonFile e); lia. }
      assert (HT1 : Progressive.TotalNotes (Progressive.Progress w1)
                    = Progressive.TotalNotes (Progressive.Progress w))
        by (rewrite A3; reflexivity).
      destruct (IH w1) as (w' & n & f & s & ds & B0 & B1 & B2 & B4 & B5 & B6 & B7 & B8 & B9);
        [rewrite HP1; lia|rewrite HP1, HT1; destruct (isJsonFile e); lia|rewrite HT1; exact HT|].
      unfold handedOver in B1.
      exists w', (n + n1)%nat, (f + f1)%nat, (s + s1)%nat,
        (List.app (if isJsonFile e
                   then [(advanced (Progressive.Progress w) n1 s1,
                          Stats (Progressive.machine w1))]
                   else []) ds).
      split; [exact B0|].
      split.
      { cbn [filter]. destruct (passedOver os e); cbn [negb List.length]; lia. }
      split; [lia|].
      split; [rewrite B4, A3; apply advanced_advanced|].
      split; [rewrite B5, A4; apply incrN_add|].
      split; [rewrite B6, A5; apply incrN_add|].
      split; [rewrite B7, A6, <- app_assoc; reflexivity|].
      split.
      { rewrite length_app, B8. destruct (isJsonFile e); reflexivity. }
      apply Forall_app. split.
      * destruct (isJsonFile e); [|constructor].
        constructor; [|constructor]. exists n1, s1. split; [lia|reflexivity].
      * eapply Forall_impl; [|exact B9].
        intros d (a & b & Hab & Hd). exists (a + n1)%nat, (b + s1)%nat.
        split; [lia|]. rewrite Hd, A3. apply advanced_advanced.
Qed.

Lemma incrN_incremented k x : incrN k x = incremented x k.
Proof. destruct k as [|k]; [reflexivity|]. apply incrN_sum. Qed.

(** X16.  When [Progress.ProcessedNotes] is not negative and, with the
    JSON files the walk will see, not more than [Progress.TotalNotes],
    a run of [processKeepFolder] in the version with the progress display
    returns, with the first error of the walk itself or nil, and
    [displayProgress] never panics.  [ProcessedNotes] has grown by the
    number of notes delivered, as [Stats.SuccessfulCalls] has;
    [SkippedNotes] has grown by the number of the other JSON files seen
    (those that do not parse, the archived notes and the notes whose
    delivery failed, these as many as [Stats.FailedCalls] has grown by);
    [TotalNotes] is unchanged and the progress was shown once for each
    JSON file. *)
Theorem progress_counts_follow_the_calls
    TrimSpace os env folderPath token r2Client entries w :
  let p := Progressive.Progress w in
  0 <= Progressive.ProcessedNotes p ->
  Progressive.ProcessedNotes p + Z.of_nat (jsonFiles (visited entries))
    <= Progressive.TotalNotes p ->
  Progressive.TotalNotes p < 2 ^ 63 ->
  exists (w' : Progressive.World) (n f s : nat),
    Progressive.processKeepFolder TrimSpace os env folderPath token r2Client entries w
      = Some (firstWalkError entries, w') /\
    (n + f)%nat = handedOver os entries /\
    (n + s)%nat = jsonFiles (visited entries) /\
    Progressive.ProcessedNotes (Progressive.Progress w')
      = Progressive.ProcessedNotes p + Z.of_nat n /\
    Progressive.SkippedNotes (Progressive.Progress w')
      = incremented (Progressive.SkippedNotes p) s /\
    Progressive.TotalNotes (Progressive.Progress w') = Progressive.TotalNotes p /\
    SuccessfulCalls (Stats (Progressive.machine w'))
      = incremented (SuccessfulCalls (Stats (Progressive.machine w))) n /\
    FailedCalls (Stats (Progressive.machine w'))
      = incremented (FailedCalls (Stats (Progressive.machine w))) f /\
    List.length (Progressive.displayed w')
      = (List.length (Progressive.displayed w) + jsonFiles (visited entries))%nat.
Proof.
  intros p HP0 HPk HT. subst p.
  destruct (processKeepFolder_progress TrimSpace os env folderPath token r2Client entries w
              HP0 HPk HT)
    as (w' & n & f & s & ds & B0 & B1 & B2 & B4 & B5 & B6 & B7 & B8 & _).
  exists w', n, f, s. rewrite B4, B7, length_app, B8.
  unfold advanced.
  cbn [Progressive.TotalNotes Progressive.ProcessedNotes Progressive.SkippedNotes].
  rewrite <- !incrN_incremented.
  rewrite (incrN_small n) by lia.
  repeat split; assumption.
Qed.

Lemma progress_counts_follow_the_calls_witness :
  exists (w' : Progressive.World) (n f s : nat),
    Progressive.processKeepFolder trimAsciiSpace (osParsing noteUntitled)
      (envOf 0 half [response "Ok" ""] (response "InvalidToken" ""))
      "/takeout" "tok" None folderTwoNotes worldHalfway
      = Some (firstWalkError folderTwoNotes, w') /\
    (n + f)%nat = handedOver (osParsing noteUntitled) folderTwoNotes /\
    (n + s)%nat = jsonFiles (visited folderTwoNotes) /\
    Progressive.ProcessedNotes (Progressive.Progress w') = 3 + Z.of_nat n /\
    Progressive.SkippedNotes (Progressive.Progress w') = incremented 1 s /\
    Progressive.TotalNotes (Progressive.Progress w') = 6 /\
    SuccessfulCalls (Stats (Progressive.machine w')) = incremented 0 n /\
    FailedCalls (Stats (Progressive.machine w')) = incremented 0 f /\
    List.length (Progressive.displayed w')
      = (0 + jsonFiles (visited folderTwoNotes))%nat.
Proof.
  apply (progress_counts_follow_the_calls trimAsciiSpace (osParsing noteUntitled)
           (envOf 0 half [response "Ok" ""] (response "InvalidToken" ""))
           "/takeout" "tok" None folderTwoNotes worldHalfway).
  - cbn. lia.
  - cbn. lia.
  - cbn. lia.
Defined.

(** X17.  When the folder is counted first, from the counters of [init],
    and then processed, and the two walks see the same entries (fewer than
    [2^63]), the run returns: [displayProgress] does not panic.
    [TotalNotes] is the number of JSON files; processed and skipped notes
    together are the JSON files seen before the first walk error, never
    more than [TotalNotes], and all of them when the run returns nil.
    Each time the progress is shown, at least one note and at most
    [TotalNotes] are counted as processed or skipped, so [TotalNotes] is
    not zero there. *)
Theorem progress_adds_up TrimSpace os env folderPath token r2Client entries now m :
  Z.of_nat (List.length entries) < 2 ^ 63 ->
  let w1 := Progressive.countJsonFiles entries (Progressive.init now m) in
  exists res : option string * Progressive.World,
    Progressive.processKeepFolder TrimSpace os env folderPath token r2Client entries w1
      = Some res /\
    let p := Progressive.Progress (snd res) in
    Progressive.TotalNotes p = Z.of_nat (jsonFiles entries) /\
    0 <= Progressive.ProcessedNotes p /\
    0 <= Progressive.SkippedNotes p /\
    Progressive.ProcessedNotes p + Progressive.SkippedNotes p
      = Z.of_nat (jsonFiles (visited entries)) /\
    Progressive.ProcessedNotes p + Progressive.SkippedNotes p <= Progressive.TotalNotes p /\
    (fst res = None ->
     Progressive.ProcessedNotes p + Progressive.SkippedNotes p = Progressive.TotalNotes p) /\
    Forall (fun d =>
              0 <= Progressive.ProcessedNotes (fst d) /\
              0 <= Progressive.SkippedNotes (fst d) /\
              1 <= Progressive.ProcessedNotes (fst d) + Progressive.SkippedNotes (fst d)
                <= Progressive.TotalNotes (fst d) /\
              Progressive.TotalNotes (fst d) = Progressive.TotalNotes p)
           (Progressive.displayed (snd res)).
Proof.
  intros Hlen w1.
  destruct (countJsonFiles_progress entries (Progressive.init now m)) as (C1 & C2 & C3).
  fold w1 in C1, C2, C3.
  cbn [Progressive.init Progressive.Progress Progressive.displayed Progressive.machine
       Progressive.TotalNotes Progressive.ProcessedNotes Progressive.SkippedNotes
       Progressive.StartTime] in C1, C2, C3.
  pose proof (jsonFiles_le_length entries) as L1.
  pose proof (jsonFiles_visited entries) as L2.
  rewrite (incrN_small (jsonFiles entries) 0) in C1 by lia.
  destruct (processKeepFolder_progress TrimSpace os env folderPath token r2Client entries w1)
    as (w' & n & f & s & ds & B0 & B1 & B2 & B4 & _ & _ & B7 & _ & B9).
  { rewrite C1. cbn. lia. }
  { rewrite C1. cbn. lia. }
  { rewrite C1. cbn. lia. }
  exists (firstWalkError entries, w'). split; [exact B0|].
  cbv zeta. cbn [fst snd].
  rewrite B4, B7, C1, C2. clear B4 B7.
  unfold advanced.
  cbn [Progressive.TotalNotes Progressive.ProcessedNotes Progressive.SkippedNotes
       Progressive.StartTime List.app].
  rewrite (incrN_small n 0), (incrN_small s 0) by lia.
  split; [lia|]. split; [lia|]. split; [lia|]. split; [lia|]. split; [lia|].
  split.
  - intros Hnil. rewrite (visited_all entries Hnil) in B2. lia.
  - eapply Forall_impl; [|exact B9].
    intros d (a & b & Hab & Hd). rewrite Hd, C1. unfold advanced.
    cbn [Progressive.TotalNotes Progressive.ProcessedNotes Progressive.SkippedNotes
         Progressive.StartTime].
    rewrite (incrN_small a 0), (incrN_small b 0) by lia.
    lia.
Qed.

Lemma progress_adds_up_witness :
  let w1 := Progressive.countJsonFiles folderTwoNotes (Progressive.init 0 machine0) in
  exists res : option string * Progressive.World,
    Progressive.processKeepFolder trimAsciiSpace (osParsing noteUntitled)
      (envOf 0 half [] (response "Ok" "")) "/takeout" "tok" None folderTwoNotes w1
      = Some res /\
    let p := Progressive.Progress (snd res) in
    Progressive.TotalNotes p = Z.of_nat (jsonFiles folderTwoNotes) /\
    0 <= Progressive.ProcessedNotes p /\
    0 <= Progressive.SkippedNotes p /\
    Progressive.ProcessedNotes p + Progressive.SkippedNotes p
      = Z.of_nat (jsonFiles (visited folderTwoNotes)) /\
    Progressive.ProcessedNotes p + Progressive.SkippedNotes p <= Progressive.TotalNotes p /\
    (fst res = None ->
     Progressive.ProcessedNotes p + Progressive.SkippedNotes p = Progressive.TotalNotes p) /\
    Forall (fun d =>
              0 <= Progressive.ProcessedNotes (fst d) /\
              0 <= Progressive.SkippedNotes (fst d) /\
              1 <= Progressive.ProcessedNotes (fst d) + Progressive.SkippedNotes (fst d)
                <= Progressive.TotalNotes (fst d) /\
              Progressive.TotalNotes (fst d) = Progressive.TotalNotes p)
           (Progressive.displayed (snd res)).
Proof.
  apply (progress_adds_up trimAsciiSpace (osParsing noteUntitled)
           (envOf 0 half [] (response "Ok" "")) "/takeout" "tok" None folderTwoNotes
           0 machine0).
  cbn. lia.
Defined.

Example progress_ex :
  let w1 := Progressive.countJsonFiles folderTwoNotes (Progressive.init 0 machine0) in
  option_map (fun res => (fst res, map fst (Progressive.displayed (snd res))))
    (Progressive.processKeepFolder trimAsciiSpace (osParsing noteUntitled)
       (envOf 0 half [response "Ok" ""] (response "InvalidToken" ""))
       "/takeout" "tok" None folderTwoNotes w1) =
  Some (None,
        [ {| Progressive.TotalNotes := 2; Progressive.ProcessedNotes := 1;
             Progressive.SkippedNotes := 0; Progressive.StartTime := 0 |};
          {| Progressive.TotalNotes := 2; Progressive.ProcessedNotes := 1;
             Progressive.SkippedNotes := 1; Progressive.StartTime := 0 |} ]).
Proof. vm_compute. reflexivity. Qed.

(** Without the count [TotalNotes] is zero, and the display that follows
    the first delivered note divides by it: the program ends there. *)
Example progress_without_count :
  Progressive.processKeepFolder trimAsciiSpace (osParsing noteUntitled)
    (envOf 0 half [] (response "Ok" "")) "/takeout" "tok" None folderTwoNotes
    (Progressive.init 0 machine0) = None.
Proof. vm_compute. reflexivity. Qed.

Example completed_ex :
  map (fun processed =>
         Progressive.completed
           {| Progressive.TotalNotes := 7; Progressive.ProcessedNotes := processed;
              Progressive.SkippedNotes := 0; Progressive.StartTime := 0 |})
      [0; 1; 3; 6; 7]
  = [0; 4; 12; 25; 30].
Proof. vm_compute. reflexivity. Qed.

(** ** The hashtag string *)

Lemma underscored_length s : length (underscored s) = length s.
Proof.
  induction s as [|c s IH]; [reflexivity|].
  cbn [underscored]. destruct (Ascii.eqb c " "%char); cbn [length]; rewrite IH; reflexivity.
Qed.

Lemma Join_hashtags_length labels :
  S (length (Join (map hashtagOf labels) " ")) = Nat.max 1 (hashtagRoom labels).
Proof.
  unfold Join. induction labels as [|l rest IH]; [reflexivity|].
  cbn [map concat hashtagRoom fold_right].
  fold (hashtagRoom rest). destruct rest as [|l2 rest].
  - cbn [map hashtagRoom fold_right]. unfold hashtagOf. cbn [length].
    rewrite underscored_length. lia.
  - change (map hashtagOf (l2 :: rest)) with (hashtagOf l2 :: map hashtagOf rest) in *.
    cbv iota. rewrite !append_length.
    assert (H2 : (2 <= hashtagRoom (l2 :: rest))%nat) by (cbn; lia).
    unfold hashtagOf at 1. cbn [length]. rewrite underscored_length. lia.
Qed.

(** X18.  [processLabels] returns the empty string for a note without
    labels and for no other; for a note with labels the result begins with
    ['#'], and its length is the sum over the labels of the length of the
    name plus two, less one: replacing the spaces changes no length, and
    a label with an empty name still gives a hashtag. *)
Theorem processLabels_length (labels : list Label) :
  (processLabels labels = "" <-> labels = []) /\
  prefix "#" (processLabels labels) = negb (Nat.eqb (List.length labels) 0) /\
  length (processLabels labels) = (hashtagRoom labels - 1)%nat.
Proof.
  pose proof (Join_hashtags_length labels) as HL.
  rewrite processLabels_eq.
  split; [|split].
  - split.
    + intros H. rewrite H in HL. destruct labels as [|l rest]; [reflexivity|].
      cbn [hashtagRoom fold_right length] in HL. lia.
    + intros ->. reflexivity.
  - destruct labels as [|l rest]; [reflexivity|].
    unfold Join. cbn [map concat List.length Nat.eqb negb].
    assert (H : forall t, prefix "#" (hashtagOf l ++ t) = true).
    { intros t. unfold hashtagOf. cbn [append]. rewrite prefix_cons, prefix_empty.
      destruct (ascii_dec "#"%char "#"%char); congruence. }
    destruct (map hashtagOf rest); [|apply H].
    rewrite <- (append_empty_r (hashtagOf l)). apply H.
  - lia.
Qed.

Example processLabels_length_ex :
  length (processLabels labelsWorkAB) = 16%nat /\ hashtagRoom labelsWorkAB = 17%nat.
Proof. split; reflexivity. Qed.

(** ** Examples *)

(** The sum [0.5 + rand.Float64()] is rounded: for the largest value below
    one that [rand.Float64] returns, the jitter factor is [1.5] itself. *)
Example jitter_rounds_to_oneAndHalf :
  SFadd prec emax half (S754_finite false 9007199254740991 (-53)) = oneAndHalf.
Proof. vm_compute. reflexivity. Qed.

Example shortenFilename_ex1 : shortenFilename "/takeout/Keep/Shopping list.json" = "Shopping list".
Proof. reflexivity. Qed.
Example shortenFilename_ex2 : shortenFilename "/takeout/Keep/2024-03-25T19_29_21.446+01_00.json" = "2024-03-25T19_2...".
Proof. reflexivity. Qed.
Example processLabels_ex : processLabels [ {| Name := "Work" |}; {| Name := "A B" |} ] = "#Work #A_B".
Proof. reflexivity. Qed.
Example Split_ex : Split "a, b, c" ", " = ["a"; "b"; "c"].
Proof. reflexivity. Qed.
Example Base_ex : (Base "a/b.c/", Ext "a/b.c/", Base "///", Base "", Ext "x/a.b.c") = ("b.c", "", "/", ".", ".c").
Proof. reflexivity. Qed.
